(** * DailyPuzzleStats: aggregation and layout of the chart components

    A shallow embedding of the computations performed by the Vue components
    [GamesPlayed.vue], its animated variant with a [dataFile] prop,
    [GamesCalendar.vue], the leaderboard component and [GamesBreakdown.vue],
    together with the parts of the JavaScript platform and of d3 that these
    computations call; the counters of [GameStats.vue] and the player
    selector shared by the calendar and the breakdown are modelled too.

    Conventions.
    - A JavaScript [Date] is its time value in milliseconds.  In [JSDate]
      the local time zone has a fixed zero offset, so that the local getters
      coincide with the ECMAScript abstract operations [Day], [YearFromTime],
      [MonthFromTime], [DateFromTime] and [WeekDay]; [JSDateZone] reads local
      time in a zone whose offset changes, and is used where a change of
      offset decides the outcome (the date loop of the day buckets).
    - Pixel positions and angles are exact rationals and reals; where the
      rounding of binary64 decides the outcome (a pointer halfway between
      two bands, a slice centred on the bottom of the pie) the computation
      is also given in binary64 ([D3BandFloat], [GamesBreakdownFloat]).
    - A thrown [TypeError] (property access on [null]) is the outcome
      [TypeError] of the [result] monad; the date loop takes fuel.
    - Strings are sequences of ASCII characters.
    - Insertion-ordered JavaScript [Map]s and [Set]s are association lists
      and duplicate-free lists in first-insertion order. *)

From Stdlib Require Import String Ascii DecimalString.
From Stdlib Require Import ZArith List Bool Lia.
From Stdlib Require Import Permutation Sorted.
From Stdlib Require Import Reals QArith Qminmax Qabs Psatz.
From Stdlib Require Floats.
Import ListNotations.

Local Open Scope Z_scope.

(** ** ECMAScript date arithmetic (ECMA-262, Date objects) *)

Module JSDate.

Definition msPerDay : Z := 86400000.

Definition Day (t : Z) : Z := t / msPerDay.

Definition TimeWithinDay (t : Z) : Z := t mod msPerDay.

Definition DaysInYear (y : Z) : Z :=
  if negb (y mod 4 =? 0) then 365
  else if negb (y mod 100 =? 0) then 366
  else if negb (y mod 400 =? 0) then 365
  else 366.

Definition DayFromYear (y : Z) : Z :=
  365 * (y - 1970) + (y - 1969) / 4 - (y - 1901) / 100 + (y - 1601) / 400.

(** [YearFromDay d] is the largest [y] with [DayFromYear y <= d].  The
    quotient by the mean year length is at most one year off. *)
Definition YearFromDay (d : Z) : Z :=
  let y0 := 1970 + (d * 400) / 146097 in
  if DayFromYear (y0 + 1) <=? d then y0 + 1
  else if DayFromYear y0 <=? d then y0
  else y0 - 1.

Definition InLeapYear (y : Z) : Z := DaysInYear y - 365.

Definition DayWithinYear (d : Z) : Z := d - DayFromYear (YearFromDay d).

(** Number of days of the year that precede month [m] (0-based). *)
Definition DaysBeforeMonth (leap m : Z) : Z :=
  if m =? 0 then 0
  else if m =? 1 then 31
  else if m =? 2 then 59 + leap
  else if m =? 3 then 90 + leap
  else if m =? 4 then 120 + leap
  else if m =? 5 then 151 + leap
  else if m =? 6 then 181 + leap
  else if m =? 7 then 212 + leap
  else if m =? 8 then 243 + leap
  else if m =? 9 then 273 + leap
  else if m =? 10 then 304 + leap
  else if m =? 11 then 334 + leap
  else 365 + leap.

Definition MonthFromDay (d : Z) : Z :=
  let w := DayWithinYear d in
  let leap := InLeapYear (YearFromDay d) in
  if w <? 31 then 0
  else if w <? 59 + leap then 1
  else if w <? 90 + leap then 2
  else if w <? 120 + leap then 3
  else if w <? 151 + leap then 4
  else if w <? 181 + leap then 5
  else if w <? 212 + leap then 6
  else if w <? 243 + leap then 7
  else if w <? 273 + leap then 8
  else if w <? 304 + leap then 9
  else if w <? 334 + leap then 10
  else 11.

Definition DateFromDay (d : Z) : Z :=
  DayWithinYear d
  - DaysBeforeMonth (InLeapYear (YearFromDay d)) (MonthFromDay d) + 1.

Definition WeekDay (d : Z) : Z := (d + 4) mod 7.

(** [MakeDay]: months outside 0..11 carry into the year, the date is an
    offset from the first of the month. *)
Definition MakeDay (year month date : Z) : Z :=
  let ym := year + month / 12 in
  let mn := month mod 12 in
  DayFromYear ym + DaysBeforeMonth (InLeapYear ym) mn + date - 1.

(** A [Date] object, identified with its time value. *)
Record t : Set := mk { time : Z }.

Definition getTime (dt : t) : Z := time dt.
Definition getFullYear (dt : t) : Z := YearFromDay (Day (time dt)).
Definition getMonth (dt : t) : Z := MonthFromDay (Day (time dt)).
Definition getDate (dt : t) : Z := DateFromDay (Day (time dt)).
Definition getDay (dt : t) : Z := WeekDay (Day (time dt)).

(** [MakeFullYear]: a year in 0..99 denotes 1900 + year. *)
Definition MakeFullYear (year : Z) : Z :=
  if (0 <=? year) && (year <=? 99) then 1900 + year else year.

(** [new Date(year, month, date)] *)
Definition create (year month date : Z) : t :=
  mk (MakeDay (MakeFullYear year) month date * msPerDay).

(** [dt.setDate(date)] keeps year, month and time within the day.  This is
    [setDate] in the zone of constant offset, where the next day is 24
    hours later; [JSDateZone.setDate] below reads local time in a zone
    whose offset changes. *)
Definition setDate (dt : t) (date : Z) : t :=
  mk (MakeDay (getFullYear dt) (getMonth dt) date * msPerDay
      + TimeWithinDay (time dt)).

(** [dt.setFullYear(year)] keeps month, date and time within the day. *)
Definition setFullYear (dt : t) (year : Z) : t :=
  mk (MakeDay year (getMonth dt) (getDate dt) * msPerDay
      + TimeWithinDay (time dt)).

End JSDate.


(** ** Dates in a zone whose offset changes

    [JSDate] above reads local time in a zone of constant offset zero.
    Here the zone has one change of offset (the start or the end of a
    daylight-saving period), and local time follows ECMA-262:
    [LocalTime(t) = t + LocalTZA(t, true)] and
    [UTC(t) = t - LocalTZA(t, false)]. *)

Module JSDateZone.
Import JSDate.

(** Offsets in milliseconds: [before] until the instant [switch] (a time
    value), [after] from then on. *)
Record Zone : Set := mkZone { before : Z; after : Z; switch : Z }.

(** [LocalTZA(t, true)]: the offset in effect at the instant [t]. *)
Definition offsetAt (z : Zone) (t : Z) : Z :=
  if t <? switch z then before z else after z.

(** [LocalTZA(t, false)]: the offset of the local time [t]; a local time
    that the change skips or repeats is read with the offset before the
    change. *)
Definition offsetOfLocal (z : Zone) (t : Z) : Z :=
  if t <? switch z + Z.max (before z) (after z) then before z else after z.

Definition LocalTime (z : Zone) (t : Z) : Z := t + offsetAt z t.

Definition UTC (z : Zone) (t : Z) : Z := t - offsetOfLocal z t.

Definition getFullYear (z : Zone) (dt : t) : Z :=
  YearFromDay (Day (LocalTime z (time dt))).
Definition getMonth (z : Zone) (dt : t) : Z :=
  MonthFromDay (Day (LocalTime z (time dt))).
Definition getDate (z : Zone) (dt : t) : Z :=
  DateFromDay (Day (LocalTime z (time dt))).
Definition getHours (z : Zone) (dt : t) : Z :=
  TimeWithinDay (LocalTime z (time dt)) / 3600000.

(** [new Date(year, month, date)] *)
Definition create (z : Zone) (year month date : Z) : t :=
  mk (UTC z (MakeDay (MakeFullYear year) month date * msPerDay)).

(** [dt.setDate(date)]: year, month and time within the day are those of
    the local time of [dt]. *)
Definition setDate (z : Zone) (dt : t) (date : Z) : t :=
  let tl := LocalTime z (time dt) in
  mk (UTC z (MakeDay (YearFromDay (Day tl)) (MonthFromDay (Day tl)) date
               * msPerDay
             + TimeWithinDay tl)).

(** [dt.setFullYear(year)] *)
Definition setFullYear (z : Zone) (dt : t) (year : Z) : t :=
  let tl := LocalTime z (time dt) in
  mk (UTC z (MakeDay year (MonthFromDay (Day tl)) (DateFromDay (Day tl))
               * msPerDay
             + TimeWithinDay tl)).

(** The zone of [JSDate]. *)
Definition utc : Zone := mkZone 0 0 0.

(** America/Havana around 9 March 2025: five hours behind UTC until
    05:00 UTC of that day, when local clocks go from 0:00 to 1:00, and
    four hours behind from then on. *)
Definition havana : Zone :=
  mkZone (- (5 * 3600000)) (- (4 * 3600000))
         (MakeDay 2025 2 9 * msPerDay + 5 * 3600000).

End JSDateZone.

(** ** Outcomes of a computation *)

Inductive result (A : Type) : Type :=
| Ok (a : A)
| TypeError
| OutOfFuel.

Arguments Ok {A} a.
Arguments TypeError {A}.
Arguments OutOfFuel {A}.

Definition bind {A B : Type} (r : result A) (k : A -> result B) : result B :=
  match r with
  | Ok a => k a
  | TypeError => TypeError
  | OutOfFuel => OutOfFuel
  end.

Notation "x <- r ;; k" := (bind r (fun x => k))
  (at level 61, r at next level, right associativity).

(** [xs.map(f)] for a callback that may throw: left to right, the first
    exception aborts the whole call. *)
Fixpoint mapM {A B : Type} (f : A -> result B) (xs : list A)
  : result (list B) :=
  match xs with
  | [] => Ok []
  | x :: xs' => y <- f x ;; ys <- mapM f xs' ;; Ok (y :: ys)
  end.

(** ** Insertion-ordered maps (JavaScript [Map], d3 [InternMap]) *)

Module JsMap.
Section WithKey.
Context {K V : Type} (eqb : K -> K -> bool).

Definition t := list (K * V).

Fixpoint get (m : t) (k : K) : option V :=
  match m with
  | [] => None
  | (k', v) :: m' => if eqb k' k then Some v else get m' k
  end.

(** [set] overwrites in place when the key is present and appends otherwise,
    so that iteration follows first insertion. *)
Fixpoint set (m : t) (k : K) (v : V) : t :=
  match m with
  | [] => [(k, v)]
  | (k', v') :: m' => if eqb k' k then (k', v) :: m' else (k', v') :: set m' k v
  end.

Definition has (m : t) (k : K) : bool :=
  match get m k with Some _ => true | None => false end.

(** [new Map(iterable)] *)
Definition of_list (kvs : list (K * V)) : t :=
  fold_left (fun m kv => set m (fst kv) (snd kv)) kvs [].

Definition keys (m : t) : list K := map fst m.
Definition values (m : t) : list V := map snd m.

End WithKey.
End JsMap.

(** ** The date parser [d3.timeParse('%m/%d/%Y')] *)

Module D3TimeParse.

Definition isDigit (c : ascii) : bool :=
  let n := N_of_ascii c in (48 <=? n)%N && (n <=? 57)%N.

(** ASCII part of the regular-expression class [\s]. *)
Definition isSpace (c : ascii) : bool :=
  let n := N_of_ascii c in ((9 <=? n)%N && (n <=? 13)%N) || (n =? 32)%N.

Definition digitValue (c : ascii) : Z := Z.of_N (N_of_ascii c) - 48.

Fixpoint takeWhile (p : ascii -> bool) (s : list ascii) : list ascii :=
  match s with
  | c :: s' => if p c then c :: takeWhile p s' else []
  | [] => []
  end.

Definition decimal (ds : list ascii) : Z :=
  fold_left (fun acc c => 10 * acc + digitValue c) ds 0.

(** [numberRe.exec(string.slice(i, i + w))] with [numberRe = /^\s*\d+/]:
    the numeric value of the match and the input left after it. *)
Definition parseNumber (w : nat) (s : list ascii)
  : option (Z * list ascii) :=
  let window := firstn w s in
  let sp := takeWhile isSpace window in
  let ds := takeWhile isDigit (skipn (length sp) window) in
  match ds with
  | [] => None
  | _ => Some (decimal ds, skipn (length sp + length ds) s)
  end.

(** A literal character of the specifier. *)
Definition parseLiteral (c : ascii) (s : list ascii) : option (list ascii) :=
  match s with
  | c' :: s' => if Ascii.eqb c c' then Some s' else None
  | [] => None
  end.

(** [localDate]: the fields are interpreted in local time; a year below 100
    is set with [setFullYear] to escape the two-digit-year rule. *)
Definition localDate (y m d : Z) : JSDate.t :=
  if (0 <=? y) && (y <? 100)
  then JSDate.setFullYear (JSDate.create (-1) m d) y
  else JSDate.create y m d.

(** The parser for the specifier [%m/%d/%Y]; [None] is JavaScript [null]. *)
Definition parseDate (str : string) : option JSDate.t :=
  match parseNumber 2 (list_ascii_of_string str) with
  | None => None
  | Some (mo, s1) =>
    match parseLiteral "/" s1 with
    | None => None
    | Some s2 =>
      match parseNumber 2 s2 with
      | None => None
      | Some (d, s3) =>
        match parseLiteral "/" s3 with
        | None => None
        | Some s4 =>
          match parseNumber 4 s4 with
          | Some (y, []) => Some (localDate y (mo - 1) d)
          | _ => None
          end
        end
      end
    end
  end.

End D3TimeParse.


(** The same parser in a zone whose offset changes: the fields are read
    as above, and [localDate] builds the date in the zone. *)

Module D3TimeParseZone.
Import D3TimeParse.

(** The year, the month (from 0) and the day that the specifier reads. *)
Definition parseFields (str : string) : option (Z * Z * Z) :=
  match parseNumber 2 (list_ascii_of_string str) with
  | None => None
  | Some (mo, s1) =>
    match parseLiteral "/" s1 with
    | None => None
    | Some s2 =>
      match parseNumber 2 s2 with
      | None => None
      | Some (d, s3) =>
        match parseLiteral "/" s3 with
        | None => None
        | Some s4 =>
          match parseNumber 4 s4 with
          | Some (y, []) => Some (y, mo - 1, d)
          | _ => None
          end
        end
      end
    end
  end.

Definition localDate (z : JSDateZone.Zone) (y m d : Z) : JSDate.t :=
  if (0 <=? y) && (y <? 100)
  then JSDateZone.setFullYear z (JSDateZone.create z (-1) m d) y
  else JSDateZone.create z y m d.

Definition parseDate (z : JSDateZone.Zone) (str : string)
  : option JSDate.t :=
  match parseFields str with
  | Some (y, m, d) => Some (localDate z y m d)
  | None => None
  end.

End D3TimeParseZone.

(** ** Insertion-ordered sets (JavaScript [Set]) *)

Module JsSet.
Section WithElt.
Context {A : Type} (eqb : A -> A -> bool).

Definition t := list A.

Definition has (s : t) (x : A) : bool := existsb (eqb x) s.

Definition add (s : t) (x : A) : t := if has s x then s else s ++ [x].

Definition size (s : t) : Z := Z.of_nat (length s).

(** [new Set(iterable)] *)
Definition of_list (xs : list A) : t := fold_left add xs [].

End WithElt.
End JsSet.

(** ** d3-array: [max] and [rollup] *)

Module D3Array.

(** [d3.max]: [None] is the [undefined] of an empty array. *)
Definition max (xs : list Z) : option Z :=
  fold_left (fun acc x =>
               match acc with
               | None => Some x
               | Some m => Some (if m <? x then x else m)
               end) xs None.

Section Rollup.
Context {A K R : Type} (eqb : K -> K -> bool).

(** The grouping loop of [d3.rollup]: each value is pushed on the array of
    its key, a new key being inserted after the existing ones.  The key
    function may throw. *)
Fixpoint groupLoop (keyof : A -> result K) (values : list A)
    (groups : @JsMap.t K (list A)) : result (@JsMap.t K (list A)) :=
  match values with
  | [] => Ok groups
  | v :: vs =>
    k <- keyof v ;;
    groupLoop keyof vs
      (match JsMap.get eqb groups k with
       | Some group => JsMap.set eqb groups k (group ++ [v])
       | None => JsMap.set eqb groups k [v]
       end)
  end.

(** [d3.rollup(values, reduce, keyof)] *)
Definition rollup (reduce : list A -> R) (keyof : A -> result K)
    (values : list A) : result (@JsMap.t K R) :=
  groups <- groupLoop keyof values [] ;;
  Ok (map (fun kv => (fst kv, reduce (snd kv))) groups).

End Rollup.

End D3Array.

(** ** d3-scale and d3-array: the band scale and [bisector().center]

    Positions are rational numbers; [None] among them is [undefined] or
    [NaN], with which every comparison is false. *)

Module D3Band.

Definition keyEqb (a b : option Z) : bool :=
  match a, b with
  | Some x, Some y => x =? y
  | None, None => true
  | _, _ => false
  end.

Definition Qltb (a b : Q) : bool :=
  match (a ?= b)%Q with Lt => true | _ => false end.

Record Band : Set := mkBand {
  domain : list (option Z);
  values : list Q;
  bandwidth : Q
}.

(** [d3.scaleBand().domain(keys).range([r0, r1]).padding(padding)]: the
    domain keeps the first occurrence of each key; [rescale] computes the
    step, the start and the band width with alignment 1/2. *)
Definition scaleBand (keys : list (option Z)) (r0 r1 padding : Q) : Band :=
  let domain := JsSet.of_list keyEqb keys in
  let paddingInner := Qmin 1 padding in
  let paddingOuter := padding in
  let align := (1 # 2)%Q in
  let n := inject_Z (Z.of_nat (length domain)) in
  let reverse := Qltb r1 r0 in
  let start := if reverse then r1 else r0 in
  let stop := if reverse then r0 else r1 in
  let step := ((stop - start)
               / Qmax 1 (n - paddingInner + paddingOuter * 2))%Q in
  let start' := (start + (stop - start - step * (n - paddingInner)) * align)%Q in
  let bandwidth := (step * (1 - paddingInner))%Q in
  let values := map (fun i => (start' + step * inject_Z (Z.of_nat i))%Q)
                    (seq 0 (length domain)) in
  mkBand domain (if reverse then rev values else values) bandwidth.

(** [index.get(d)] *)
Fixpoint indexOf (d : option Z) (dom : list (option Z)) : option nat :=
  match dom with
  | [] => None
  | k :: dom' =>
    if keyEqb k d then Some O
    else match indexOf d dom' with
         | Some i => Some (S i)
         | None => None
         end
  end.

(** [x(d)]: the position of the band of [d], [undefined] off the domain. *)
Definition position (x : Band) (d : option Z) : option Q :=
  match indexOf d (domain x) with
  | Some i => nth_error (values x) i
  | None => None
  end.

(** [a[i]] *)
Definition at_ (a : list (option Q)) (i : nat) : option Q :=
  match nth_error a i with
  | Some v => v
  | None => None
  end.

(** [compare2(a[mid], x) < 0], that is [a[mid] < x]. *)
Definition below (v : option Q) (x : Q) : bool :=
  match v with
  | Some q => Qltb q x
  | None => false
  end.

(** The [do ... while (lo < hi)] loop of [left], run at most [fuel]
    times. *)
Fixpoint leftLoop (fuel : nat) (a : list (option Q)) (x : Q) (lo hi : nat)
  : nat :=
  match fuel with
  | O => lo
  | S fuel' =>
    let mid := Nat.div2 (lo + hi) in
    let lo' := if below (at_ a mid) x then S mid else lo in
    let hi' := if below (at_ a mid) x then hi else mid in
    if (lo' <? hi')%nat then leftLoop fuel' a x lo' hi' else lo'
  end.

(** [bisector(d => d).left(a, x, lo, hi)]; each turn of the loop shrinks
    [hi - lo], which bounds the number of turns. *)
Definition left (a : list (option Q)) (x : Q) (lo hi : nat) : nat :=
  if (lo <? hi)%nat then leftLoop (hi - lo) a x lo hi else lo.

(** [delta(a[i - 1], x) > -delta(a[i], x)] with [delta(d, x) = d - x]. *)
Definition closerToLower (a : list (option Q)) (x : Q) (i : nat) : bool :=
  match at_ a (i - 1), at_ a i with
  | Some l, Some u => Qltb (- (u - x)) (l - x)
  | _, _ => false
  end.

(** [bisector(d => d).center(a, x)], on exact positions.  The program
    runs it on doubles ([D3BandFloat.center] below); the two agree except
    where the rounding of the positions decides which of two neighbours
    is the nearer. *)
Definition center (a : list (option Q)) (x : Q) : nat :=
  let lo := O in
  let hi := length a in
  let i := left a x lo (hi - 1) in
  if (lo <? i)%nat && closerToLower a x i then (i - 1)%nat else i.

End D3Band.


(** ** The band scale and [bisector().center] in binary64

    The positions above are exact rationals; the program computes them in
    IEEE 754 binary64, operation by operation, as here.  [undefined] and
    [NaN] are [nan]. *)

Module D3BandFloat.

(** The double of an integer below 2^53 in absolute value. *)
Definition ofZ (z : Z) : PrimFloat.float :=
  if z <? 0 then PrimFloat.opp (PrimFloat.of_uint63 (Uint63.of_Z (- z)))
  else PrimFloat.of_uint63 (Uint63.of_Z z).

(** [Math.min] and [Math.max] *)
Definition fmin (a b : PrimFloat.float) : PrimFloat.float :=
  if PrimFloat.is_nan a || PrimFloat.is_nan b then PrimFloat.nan
  else if PrimFloat.ltb b a then b else a.

Definition fmax (a b : PrimFloat.float) : PrimFloat.float :=
  if PrimFloat.is_nan a || PrimFloat.is_nan b then PrimFloat.nan
  else if PrimFloat.ltb a b then b else a.

Record Band : Set := mkBand {
  domain : list (option Z);
  values : list PrimFloat.float;
  bandwidth : PrimFloat.float
}.

(** [d3.scaleBand().domain(keys).range([r0, r1]).padding(padding)] *)
Definition scaleBand (keys : list (option Z))
    (r0 r1 padding : PrimFloat.float) : Band :=
  let domain := JsSet.of_list D3Band.keyEqb keys in
  let paddingInner := fmin (ofZ 1) padding in
  let paddingOuter := padding in
  let align := PrimFloat.div (ofZ 1) (ofZ 2) in
  let n := ofZ (Z.of_nat (length domain)) in
  let reverse := PrimFloat.ltb r1 r0 in
  let start := if reverse then r1 else r0 in
  let stop := if reverse then r0 else r1 in
  let step :=
    PrimFloat.div (PrimFloat.sub stop start)
      (fmax (ofZ 1)
         (PrimFloat.add (PrimFloat.sub n paddingInner)
                        (PrimFloat.mul paddingOuter (ofZ 2)))) in
  let start' :=
    PrimFloat.add start
      (PrimFloat.mul
         (PrimFloat.sub (PrimFloat.sub stop start)
                        (PrimFloat.mul step (PrimFloat.sub n paddingInner)))
         align) in
  let bandwidth := PrimFloat.mul step (PrimFloat.sub (ofZ 1) paddingInner) in
  let values :=
    map (fun i => PrimFloat.add start'
                    (PrimFloat.mul step (ofZ (Z.of_nat i))))
        (seq 0 (length domain)) in
  mkBand domain (if reverse then rev values else values) bandwidth.

(** [x(d)] *)
Definition position (x : Band) (d : option Z) : PrimFloat.float :=
  match D3Band.indexOf d (domain x) with
  | Some i => nth i (values x) PrimFloat.nan
  | None => PrimFloat.nan
  end.

(** [a[i]] *)
Definition at_ (a : list PrimFloat.float) (i : nat) : PrimFloat.float :=
  nth i a PrimFloat.nan.

(** The loop of [left]: [compare2(a[mid], x) < 0] is [a[mid] < x]. *)
Fixpoint leftLoop (fuel : nat) (a : list PrimFloat.float)
    (x : PrimFloat.float) (lo hi : nat) : nat :=
  match fuel with
  | O => lo
  | S fuel' =>
    let mid := Nat.div2 (lo + hi) in
    let lo' := if PrimFloat.ltb (at_ a mid) x then S mid else lo in
    let hi' := if PrimFloat.ltb (at_ a mid) x then hi else mid in
    if (lo' <? hi')%nat then leftLoop fuel' a x lo' hi' else lo'
  end.

(** [bisector(d => d).left(a, x, lo, hi)]; [compare1(x, x) !== 0] holds
    of [NaN] only. *)
Definition left (a : list PrimFloat.float) (x : PrimFloat.float)
    (lo hi : nat) : nat :=
  if (lo <? hi)%nat
  then if PrimFloat.eqb x x then leftLoop (hi - lo) a x lo hi else hi
  else lo.

(** [bisector(d => d).center(a, x)], with
    [delta(a[i - 1], x) > -delta(a[i], x)] and [delta(d, x) = d - x]. *)
Definition center (a : list PrimFloat.float) (x : PrimFloat.float) : nat :=
  let lo := O in
  let hi := length a in
  let i := left a x lo (hi - 1) in
  if (lo <? i)%nat
     && PrimFloat.ltb (PrimFloat.opp (PrimFloat.sub (at_ a i) x))
                      (PrimFloat.sub (at_ a (i - 1)) x)
  then (i - 1)%nat else i.

End D3BandFloat.

(** ** Rows and entries *)

(** A row of the CSV file as delivered by [d3.csv]. *)
Record RawRow : Set := mkRow {
  rowDate : string;
  rowPerson : string;
  rowGame : string
}.

(** [{ Date: Date; Person: string; Game: string }]; the [Date] field holds
    whatever the parser returned, [None] being [null]. *)
Record Entry : Set := mkEntry {
  Date : option JSDate.t;
  Person : string;
  Game : string
}.

(** The row conversion shared by the components that read dates:
    [d => ({ Date: parseDate(d.Date), Person: d.Person, Game: d.Game })]. *)
Definition normalize (rows : list RawRow) : list Entry :=
  map (fun d => mkEntry (D3TimeParse.parseDate (rowDate d))
                        (rowPerson d) (rowGame d)) rows.

(** [e.Date.getTime()] *)
Definition dateTime (e : Entry) : result Z :=
  match Date e with
  | Some dt => Ok (JSDate.getTime dt)
  | None => TypeError
  end.

(** ** GamesPlayed.vue: daily counts and cumulative totals *)

Module GamesPlayed.

Record DailyCount : Set := mkDaily { day : option Z; count : Z }.
Record Cumulative : Set := mkCumul { cday : option Z; total : Z }.

(** [d3.extent(rawData, d => d.Date)]: [null] values are skipped, [None]
    stands for [[undefined, undefined]]. *)
Definition extent (rawData : list Entry) : option (JSDate.t * JSDate.t) :=
  fold_left
    (fun acc e =>
       match Date e with
       | None => acc
       | Some value =>
         match acc with
         | None => Some (value, value)
         | Some (mn, mx) =>
           let mn' := if JSDate.time value <? JSDate.time mn then value else mn in
           let mx' := if JSDate.time mx <? JSDate.time value then value else mx in
           Some (mn', mx')
         end
       end)
    rawData None.

(** [for (let dt = new Date(minDate); dt <= maxDate;
         dt.setDate(dt.getDate() + 1)) dates.push(new Date(dt))] *)
Fixpoint datesLoop (fuel : nat) (dt maxDate : JSDate.t)
  : result (list JSDate.t) :=
  match fuel with
  | O => OutOfFuel
  | S fuel' =>
    if JSDate.time dt <=? JSDate.time maxDate
    then rest <- datesLoop fuel'
                   (JSDate.setDate dt (JSDate.getDate dt + 1)) maxDate ;;
         Ok (dt :: rest)
    else Ok []
  end.

(** With an undefined extent the loop variable is an invalid date and the
    loop condition is false at once. *)
Definition dates (fuel : nat) (rawData : list Entry)
  : result (list JSDate.t) :=
  match extent rawData with
  | Some (minDate, maxDate) => datesLoop fuel minDate maxDate
  | None => Ok []
  end.

(** [new Map(dates.map((d, i) => [d.getTime(), i + 1]))] *)
Definition dateToDay (ds : list JSDate.t) : JsMap.t :=
  JsMap.of_list Z.eqb
    (map (fun di => (JSDate.getTime (snd di), Z.of_nat (fst di) + 1))
         (combine (seq 0 (length ds)) ds)).

(** [rawData.filter(r => r.Date.getTime() === t).length] *)
Fixpoint countAt (t : Z) (rawData : list Entry) : result Z :=
  match rawData with
  | [] => Ok 0
  | r :: rest =>
    rt <- dateTime r ;;
    n <- countAt t rest ;;
    Ok (if rt =? t then n + 1 else n)
  end.

Definition dailyCountsOf (ds : list JSDate.t) (rawData : list Entry)
  : result (list DailyCount) :=
  let index := dateToDay ds in
  mapM (fun d =>
          c <- countAt (JSDate.getTime d) rawData ;;
          Ok (mkDaily (JsMap.get Z.eqb index (JSDate.getTime d)) c))
       ds.

Definition dailyCounts (fuel : nat) (rawData : list Entry)
  : result (list DailyCount) :=
  ds <- dates fuel rawData ;; dailyCountsOf ds rawData.

(** [let running = 0;
     dailyCounts.map(d => { running += d.count;
                            return { day: d.day, total: running }; })] *)
Fixpoint cumulativeFrom (running : Z) (l : list DailyCount)
  : list Cumulative :=
  match l with
  | [] => []
  | d :: rest =>
    let running' := running + count d in
    mkCumul (day d) running' :: cumulativeFrom running' rest
  end.

Definition cumulative (l : list DailyCount) : list Cumulative :=
  cumulativeFrom 0 l.

(** [dailyCounts.map(d => x(d.day)! + x.bandwidth() / 2)] for the band
    scale [x] of domain [dailyCounts.map(d => d.day)], range [[0, width]]
    and padding 0.1. *)
Definition xCenters (width : Q) (dailyCounts : list DailyCount)
  : list (option Q) :=
  let x := D3Band.scaleBand (map day dailyCounts) 0 width (1 # 10) in
  map (fun d => match D3Band.position x (day d) with
                | Some v => Some (v + D3Band.bandwidth x / 2)%Q
                | None => None
                end) dailyCounts.

(** The index computed by the [mousemove] handler for the pointer offset
    [mx]. *)
Definition hoverIndex (width : Q) (dailyCounts : list DailyCount) (mx : Q)
  : nat :=
  D3Band.center (xCenters width dailyCounts) mx.

(** [900 - margin.left - margin.right] with margins 70 and 150 *)
Definition width : Q := (900 - 70 - 150)%Q.

End GamesPlayed.


(** ** GamesPlayed.vue in a zone whose offset changes

    Only the row conversion and the date loop read local time; the
    extent, the day index and the counts compare time values. *)

Module GamesPlayedZone.
Import GamesPlayed.

Definition normalize (z : JSDateZone.Zone) (rows : list RawRow)
  : list Entry :=
  map (fun d => mkEntry (D3TimeParseZone.parseDate z (rowDate d))
                        (rowPerson d) (rowGame d)) rows.

Fixpoint datesLoop (z : JSDateZone.Zone) (fuel : nat)
    (dt maxDate : JSDate.t) : result (list JSDate.t) :=
  match fuel with
  | O => OutOfFuel
  | S fuel' =>
    if JSDate.time dt <=? JSDate.time maxDate
    then rest <- datesLoop z fuel'
                   (JSDateZone.setDate z dt (JSDateZone.getDate z dt + 1))
                   maxDate ;;
         Ok (dt :: rest)
    else Ok []
  end.

Definition dates (z : JSDateZone.Zone) (fuel : nat) (rawData : list Entry)
  : result (list JSDate.t) :=
  match extent rawData with
  | Some (minDate, maxDate) => datesLoop z fuel minDate maxDate
  | None => Ok []
  end.

Definition dailyCounts (z : JSDateZone.Zone) (fuel : nat)
    (rawData : list Entry) : result (list DailyCount) :=
  ds <- dates z fuel rawData ;; dailyCountsOf ds rawData.

End GamesPlayedZone.

(** ** The animated daily/cumulative chart (the component with a
    [dataFile] prop and a fallback for missing data) *)

Module GamesPlayedAnimated.
Import GamesPlayed.

(** [rawData] starts as [[]] and is replaced only when the prop is given
    and [d3.csv] succeeds; [None] is a missing prop or a failed load. *)
Definition loadRawData (rows : option (list RawRow)) : list Entry :=
  match rows with
  | Some rs => normalize rs
  | None => []
  end.

(** [Array.from({ length: 30 }, (_, i) => ({ day: i + 1, count: 0 }))] *)
Definition fallbackDaily : list DailyCount :=
  map (fun i => mkDaily (Some (Z.of_nat i + 1)) 0) (seq 0 30).

(** [dailyCounts.map(d => ({ day: d.day, total: 0 }))] *)
Definition fallbackCumulative (dailyCounts : list DailyCount)
  : list Cumulative :=
  map (fun d => mkCumul (day d) 0) dailyCounts.

(** The [if (rawData.length > 0) ... else ...] that computes both series;
    the first branch is the computation of GamesPlayed.vue, verbatim. *)
Definition series (fuel : nat) (rawData : list Entry)
  : result (list DailyCount * list Cumulative) :=
  if (0 <? length rawData)%nat
  then dc <- GamesPlayed.dailyCounts fuel rawData ;;
       Ok (dc, GamesPlayed.cumulative dc)
  else Ok (fallbackDaily, fallbackCumulative fallbackDaily).

Definition yBarMax (rawData : list Entry) (dailyCounts : list DailyCount)
  : option Z :=
  if (0 <? length rawData)%nat then D3Array.max (map count dailyCounts)
  else Some 10.

Definition yLineMax (rawData : list Entry) (cumulative : list Cumulative)
  : option Z :=
  if (0 <? length rawData)%nat then D3Array.max (map total cumulative)
  else Some 10.

(** The domains handed to [d3.scaleLinear().domain(...)]. *)
Definition yBarDomain rawData dailyCounts : Z * option Z :=
  (0, yBarMax rawData dailyCounts).

Definition yLineDomain rawData cumulative : Z * option Z :=
  (0, yLineMax rawData cumulative).

(** [900 - margin.left - margin.right] with margins 70 and 70; the
    [mousemove] handler is that of GamesPlayed.vue. *)
Definition width : Q := (900 - 70 - 70)%Q.

End GamesPlayedAnimated.

(** ** GamesCalendar.vue: the month grid *)

Module GamesCalendar.

Record Cell : Set := mkCell { cellDay : Z; row : Z; col : Z; cnt : Z }.

Record Layout : Set := mkLayout {
  year : Z;
  month : Z;
  daysInMonth : Z;
  startDay : Z;
  rows : Z;
  maxCount : Z;
  cells : list Cell
}.

(** [Math.ceil(a / b)] for integers [a] and positive [b]. *)
Definition ceilDiv (a b : Z) : Z := - ((- a) / b).

(** [x || d] for a number or [undefined]: 0 and [undefined] are falsy. *)
Definition orElse (x : option Z) (d : Z) : Z :=
  match x with
  | Some v => if v =? 0 then d else v
  | None => d
  end.

(** The days [1, 2, ..., n] visited by [for (day = 1; day <= n; day++)]. *)
Definition daysUpTo (n : Z) : list Z :=
  map (fun i => Z.of_nat i) (seq 1 (Z.to_nat n)).

(** The body of the loop over the days of the month. *)
Definition cellOf (y m startDay : Z) (counts : @JsMap.t Z Z) (day : Z)
  : Cell :=
  let cols := 7 in
  let slot := startDay + (day - 1) in
  let row := slot / cols in
  let col := Z.rem slot cols in
  let dateObj := JSDate.create y m day in
  let ts := JSDate.getTime dateObj in
  let cnt := orElse (JsMap.get Z.eqb counts ts) 0 in
  mkCell day row col cnt.

(** [drawCalendar(entries)]; [Ok None] is the 'No data' placeholder. *)
Definition drawCalendar (entries : list Entry) : result (option Layout) :=
  match entries with
  | [] => Ok None
  | e0 :: _ =>
    counts <- D3Array.rollup Z.eqb (fun v => Z.of_nat (length v))
                dateTime entries ;;
    match Date e0 with
    | None => TypeError
    | Some first =>
      let year := JSDate.getFullYear first in
      let month := JSDate.getMonth first in
      let daysInMonth := JSDate.getDate (JSDate.create year (month + 1) 0) in
      let startDay := JSDate.getDay (JSDate.create year month 1) in
      let cols := 7 in
      let totalSlots := startDay + daysInMonth in
      let rows := ceilDiv totalSlots cols in
      let maxCount := orElse (D3Array.max (JsMap.values counts)) 1 in
      Ok (Some (mkLayout year month daysInMonth startDay rows maxCount
                  (map (cellOf year month startDay counts)
                       (daysUpTo daysInMonth))))
    end
  end.

(** [updateChart]: the entries of the selected player, or all of them. *)
Definition updateChart (selectedPlayer : string) (rawEntries : list Entry)
  : result (option Layout) :=
  drawCalendar
    (if String.eqb selectedPlayer "All" then rawEntries
     else filter (fun e => String.eqb (Person e) selectedPlayer) rawEntries).

End GamesCalendar.

(** ** GamesBreakdown.vue: the pie layout

    Angles are real numbers; the arithmetic of the layout is exact. *)

Module GamesBreakdown.

(** [{ key, value }], the element of [Array.from(counts, ...)]. *)
Record Datum : Set := mkDatum { key : string; value : Z }.

(** An element of the array returned by [d3.pie()]. *)
Record Arc : Type := mkArc {
  data : Datum;
  index : nat;
  arcValue : R;
  startAngle : R;
  endAngle : R;
  padAngle : R
}.

Definition tau : R := (2 * PI)%R.

(** [d3.rollup(dataArray, v => v.length, d => d.Game)] followed by
    [Array.from(counts, ([key, value]) => ({ key, value }))]. *)
Definition aggregate (dataArray : list RawRow) : result (list Datum) :=
  counts <- D3Array.rollup String.eqb (fun v => Z.of_nat (length v))
              (fun d => Ok (rowGame d)) dataArray ;;
  Ok (map (fun kv => mkDatum (fst kv) (snd kv)) counts).

(** [d3.sum(data, d => d.value)] *)
Definition total (data : list Datum) : Z :=
  fold_left (fun acc d => acc + value d) data 0.

(** The first loop of [pie]: the sum of the positive values. *)
Definition positiveSum (data : list Datum) : Z :=
  fold_left (fun sum d => if 0 <? value d then sum + value d else sum)
            data 0.

(** The second loop of [pie], in the order of the index array, which is
    the order of the data since [sort(null)] disables both sorts:
    [a1 = a0 + (v > 0 ? v * k : 0) + pa]. *)
Fixpoint arcsLoop (k pa p a0 : R) (i : nat) (data : list Datum)
  : list Arc :=
  match data with
  | [] => []
  | d :: rest =>
    let v := IZR (value d) in
    let a1 := (a0 + (if 0 <? value d then v * k else 0) + pa)%R in
    mkArc d i v a0 a1 p :: arcsLoop k pa p a1 (S i) rest
  end.

(** [d3.pie().sort(null).value(d => d.value)] with the default start angle
    0, end angle [tau] and pad angle 0. *)
Definition pie (data : list Datum) : list Arc :=
  let n := INR (length data) in
  let a0 := 0%R in
  let da := Rmin tau (Rmax (- tau) (tau - a0)) in
  let p := Rmin (Rabs da / n) 0 in
  let pa := (p * (if Rlt_dec da 0 then -1 else 1))%R in
  let sum := positiveSum data in
  let k := if sum =? 0 then 0%R else ((da - n * pa) / IZR sum)%R in
  arcsLoop k pa p a0 0 data.

(** [arcs.filter(d => d.data.value / total >= threshold)] with
    [threshold = 0.01]. *)
Definition data_ready (tot : Z) (arcs : list Arc) : list Arc :=
  filter (fun a => if Rle_dec (1 / 100) (IZR (value (data a)) / IZR tot)
                   then true else false) arcs.

(** The arcs drawn by [drawChart(dataArray)]; [Ok None] is the 'No data'
    placeholder. *)
Definition drawChart (dataArray : list RawRow) : result (option (list Arc)) :=
  if (length dataArray =? 0)%nat then Ok None
  else data <- aggregate dataArray ;; Ok (Some (pie data)).

End GamesBreakdown.

(** ** The leaderboard component: total entries and days played *)

Module Leaderboard.

Record Bar : Set := mkBar { player : string; value : Z }.

(** What [toDateString] prints: weekday, month, day of the month and year,
    in local time ("Wed Jan 01 2025"). *)
Definition DateString : Set := (Z * Z * Z * Z)%type.

Definition toDateString (dt : JSDate.t) : DateString :=
  (JSDate.getDay dt, JSDate.getMonth dt, JSDate.getDate dt,
   JSDate.getFullYear dt).

Definition dateStringEqb (a b : DateString) : bool :=
  let '(w1, m1, d1, y1) := a in
  let '(w2, m2, d2, y2) := b in
  (w1 =? w2) && (m1 =? m2) && (d1 =? d2) && (y1 =? y2).

(** [Array.from(new Set(entries.map(e => e.Person)))] *)
Definition players (entries : list Entry) : list string :=
  JsSet.of_list String.eqb (map Person entries).

Definition totals (entries : list Entry) : list Bar :=
  map (fun player =>
         mkBar player
           (Z.of_nat (length
              (filter (fun e => String.eqb (Person e) player) entries))))
      (players entries).

(** The callback of [entries.reduce]: the date string is computed first
    (and throws on a null date), a new player gets an empty set, and the
    date string is added to the player's set. *)
Definition daysStep (map : @JsMap.t string (@JsSet.t DateString))
    (e : Entry) : result (@JsMap.t string (@JsSet.t DateString)) :=
  let key := Person e in
  match Date e with
  | None => TypeError
  | Some d =>
    let dt := toDateString d in
    let map1 := if JsMap.has String.eqb map key then map
                else JsMap.set String.eqb map key [] in
    match JsMap.get String.eqb map1 key with
    | Some days =>
      Ok (JsMap.set String.eqb map1 key (JsSet.add dateStringEqb days dt))
    | None => TypeError
    end
  end.

Fixpoint reduceDays (entries : list Entry)
    (map : @JsMap.t string (@JsSet.t DateString))
  : result (@JsMap.t string (@JsSet.t DateString)) :=
  match entries with
  | [] => Ok map
  | e :: rest => map' <- daysStep map e ;; reduceDays rest map'
  end.

Definition daysSet (entries : list Entry) := reduceDays entries [].

(** [players.map(player => ({ player, value: daysSet.get(player)!.size }))] *)
Definition daysPlayed (entries : list Entry) : result (list Bar) :=
  ds <- daysSet entries ;;
  mapM (fun player =>
          match JsMap.get String.eqb ds player with
          | Some days => Ok (mkBar player (JsSet.size days))
          | None => TypeError
          end) (players entries).

(** [Array.prototype.sort] with a comparator is a stable sort; its result
    is that of inserting each element, from the last to the first, before
    the first element that the comparator does not put ahead of it. *)
Section Sort.
Context {A : Type} (compare : A -> A -> Z).

Fixpoint insert (x : A) (l : list A) : list A :=
  match l with
  | [] => [x]
  | y :: l' => if compare x y <=? 0 then x :: l else y :: insert x l'
  end.

Definition sort (l : list A) : list A := fold_right insert [] l.

End Sort.

(** [(a, b) => b.value - a.value] *)
Definition byValueDesc (a b : Bar) : Z := value b - value a.

(** The two sorted lists handed to [drawBarChart]; [Ok None] is the early
    return on an empty entry list. *)
Definition onMounted (entries : list Entry)
  : result (option (list Bar * list Bar)) :=
  if (length entries =? 0)%nat then Ok None
  else
    let totals := totals entries in
    daysPlayed <- daysPlayed entries ;;
    Ok (Some (sort byValueDesc totals, sort byValueDesc daysPlayed)).

End Leaderboard.

(** ** The rest of the components

    The bars of GamesPlayed.vue, the bar charts of the leaderboard, the
    numbers of GameStats.vue, the player selector of GamesCalendar.vue and
    GamesBreakdown.vue, the ordinals of the calendar's hover label and the
    leader lines of the pie. *)

(** *** d3-scale: the linear scale *)

Module D3Linear.

(** [normalize(a, b)]: [x => (x - a) / (b - a)], or the constant 1/2 when
    the domain is a single point. *)
Definition normalize (a b x : Q) : Q :=
  if Qeq_bool (b - a) 0 then (1 # 2)%Q else ((x - a) / (b - a))%Q.

(** [interpolateNumber(a, b)]: [t => a * (1 - t) + b * t]. *)
Definition interpolate (a b t : Q) : Q := (a * (1 - t) + b * t)%Q.

(** [d3.scaleLinear().domain([d0, d1]).range([r0, r1])] applied to [x];
    [bimap] swaps both ends when the domain is decreasing. *)
Definition scale (d0 d1 r0 r1 x : Q) : Q :=
  if D3Band.Qltb d1 d0
  then interpolate r1 r0 (normalize d1 d0 x)
  else interpolate r0 r1 (normalize d0 d1 x).

End D3Linear.

(** *** GamesPlayed.vue: the bars *)

Module GamesPlayedBars.
Import GamesPlayed.

(** The [x] and [x + width] of each bar:
    [.attr('x', d => x(d.day)!)] and [.attr('width', x.bandwidth())]. *)
Definition barSpans (width : Q) (dailyCounts : list DailyCount)
  : list (option (Q * Q)) :=
  let x := D3Band.scaleBand (map day dailyCounts) 0 width (1 # 10) in
  map (fun d => match D3Band.position x (day d) with
                | Some v => Some (v, (v + D3Band.bandwidth x)%Q)
                | None => None
                end) dailyCounts.

(** The domains handed to the two linear scales:
    [[0, d3.max(dailyCounts, d => d.count)!]] and
    [[0, d3.max(cumulative, d => d.total)!]]. *)
Definition yBarMax (dailyCounts : list DailyCount) : option Z :=
  D3Array.max (map count dailyCounts).

Definition yLineMax (cumulative : list Cumulative) : option Z :=
  D3Array.max (map total cumulative).

End GamesPlayedBars.

(** *** GamesPlayed.vue: the [mousemove] handler

    The horizontal position and the text of the two hover labels; the
    vertical positions go through the [nice]d linear scales and are left
    out. *)

Module GamesPlayedHover.
Import GamesPlayed.

Record Hover : Set := mkHover {
  cxLine : option Q;
  lineText : Z;
  cxBar : option Q;
  barText : Z
}.

(** [x(d)! + x.bandwidth() / 2] *)
Definition bandMiddle (x : D3Band.Band) (d : option Z) : option Q :=
  match D3Band.position x d with
  | Some v => Some (v + D3Band.bandwidth x / 2)%Q
  | None => None
  end.

(** [const c = cumulative[idx], b = dailyCounts[idx]]: reading [c.day] or
    [b.day] of an [undefined] element throws. *)
Definition mousemove (width : Q) (dailyCounts : list DailyCount)
    (cumulative : list Cumulative) (mx : Q) : result Hover :=
  let x := D3Band.scaleBand (map day dailyCounts) 0 width (1 # 10) in
  let idx := hoverIndex width dailyCounts mx in
  match nth_error cumulative idx with
  | None => TypeError
  | Some c =>
    match nth_error dailyCounts idx with
    | None => TypeError
    | Some b =>
      Ok (mkHover (bandMiddle x (cday c)) (total c)
                  (bandMiddle x (day b)) (count b))
    end
  end.

End GamesPlayedHover.


(** *** GamesPlayed.vue: the hover index in binary64 *)

Module GamesPlayedFloat.
Import GamesPlayed.

(** [900 - margin.left - margin.right] *)
Definition width : PrimFloat.float := D3BandFloat.ofZ (900 - 70 - 150).

(** [dailyCounts.map(d => x(d.day)! + x.bandwidth() / 2)] with the
    padding [0.1], the double nearest to one tenth. *)
Definition xCenters (width : PrimFloat.float)
    (dailyCounts : list DailyCount) : list PrimFloat.float :=
  let x := D3BandFloat.scaleBand (map day dailyCounts) (D3BandFloat.ofZ 0)
             width (PrimFloat.div (D3BandFloat.ofZ 1) (D3BandFloat.ofZ 10)) in
  map (fun d =>
         PrimFloat.add (D3BandFloat.position x (day d))
           (PrimFloat.div (D3BandFloat.bandwidth x) (D3BandFloat.ofZ 2)))
      dailyCounts.

Definition hoverIndex (width : PrimFloat.float)
    (dailyCounts : list DailyCount) (mx : PrimFloat.float) : nat :=
  D3BandFloat.center (xCenters width dailyCounts) mx.

End GamesPlayedFloat.

(** *** The leaderboard: [drawBarChart] *)

Module LeaderboardChart.
Import Leaderboard.

(** [500 - margin.left - margin.right] with margins 120 and 80 *)
Definition width : Q := (500 - 120 - 80)%Q.

(** The final width of each bar, [x(d.value)], for the scale
    [d3.scaleLinear().domain([0, d3.max(data, d => d.value)!])
       .range([0, width])]; [None] when the maximum is [undefined]. *)
Definition barWidths (data : list Bar) : option (list Q) :=
  match D3Array.max (map value data) with
  | Some m =>
    Some (map (fun d => D3Linear.scale 0 (inject_Z m) 0 width
                          (inject_Z (value d))) data)
  | None => None
  end.

End LeaderboardChart.

(** *** GameStats.vue *)

Module GameStats.

(** [data.length] *)
Definition gamesCount (data : list RawRow) : Z := Z.of_nat (length data).

(** [new Set(data.map(d => d.Person)).size] *)
Definition playersCount (data : list RawRow) : Z :=
  JsSet.size (JsSet.of_list String.eqb (map rowPerson data)).

(** [new Set(data.map(d => d.Game)).size] *)
Definition typesCount (data : list RawRow) : Z :=
  JsSet.size (JsSet.of_list String.eqb (map rowGame data)).

End GameStats.

(** *** The player selector of GamesCalendar.vue and GamesBreakdown.vue *)

Module PlayerSelect.

(** The comparison of [Array.prototype.sort] without a comparator, on
    strings: by code units. *)
Definition defaultCompare (a b : string) : Z :=
  match String.compare a b with
  | Lt => -1
  | Eq => 0
  | Gt => 1
  end.

(** [Array.from(new Set(rows.map(e => e.Person))).sort()] *)
Definition players (persons : list string) : list string :=
  Leaderboard.sort defaultCompare (JsSet.of_list String.eqb persons).

(** [updateChart] of GamesBreakdown.vue: the rows of the selected player,
    or all of them, go to [drawChart]. *)
Definition updateBreakdown (selectedPlayer : string) (rawData : list RawRow)
  : result (option (list GamesBreakdown.Arc)) :=
  GamesBreakdown.drawChart
    (if String.eqb selectedPlayer "All" then rawData
     else filter (fun d => String.eqb (rowPerson d) selectedPlayer) rawData).

End PlayerSelect.

(** *** GamesCalendar.vue: the pixels of the grid *)

Module GamesCalendarSvg.
Import GamesCalendar.

Definition cellSize : Z := 40.
Definition cols : Z := 7.

Record Rect : Set := mkRect { rx : Z; ry : Z; rwidth : Z; rheight : Z }.

(** The [width] and [height] attributes of the [svg] element:
    [cellSize * cols + 60] and [cellSize * (rows + 1)]. *)
Definition svgWidth : Z := cellSize * cols + 60.
Definition svgHeight (L : Layout) : Z := cellSize * (rows L + 1).

(** The rectangle of a cell in the coordinates of the [svg] element: the
    chart group is translated by (60, 0), and the group of the cells by
    (0, cellSize) within it. *)
Definition cellRect (c : Cell) : Rect :=
  mkRect (60 + col c * cellSize) (cellSize + row c * cellSize)
         (cellSize - 2) (cellSize - 2).

(** [Array.from({ length: rows }, (_, i) => i + 1)] *)
Definition weeks (L : Layout) : list Z :=
  map (fun i => Z.of_nat i + 1) (seq 0 (Z.to_nat (rows L))).

(** The middle of the [i]-th week label, in the same coordinates:
    [i * cellSize + cellSize / 2] within a group translated by
    (0, cellSize). *)
Definition weekLabelY (i : Z) : Z := cellSize + (i * cellSize + cellSize / 2).

(** The middle of the [i]-th weekday label: [i * cellSize + cellSize / 2]
    within the chart group. *)
Definition weekdayLabelX (i : Z) : Z := 60 + (i * cellSize + cellSize / 2).

End GamesCalendarSvg.

(** *** GamesCalendar.vue: [formatOrdinal] *)

Module Ordinal.

(** The decimal text of an integer, as [day + 'st'] prints it. *)
Definition numberToString (n : Z) : string :=
  NilZero.string_of_int (Z.to_int n).

(** [formatOrdinal(day)]; [%] is the remainder with the sign of [day]. *)
Definition formatOrdinal (day : Z) : string :=
  let j := Z.rem day 10 in
  let k := Z.rem day 100 in
  if (j =? 1) && negb (k =? 11) then (numberToString day ++ "st")%string
  else if (j =? 2) && negb (k =? 12) then (numberToString day ++ "nd")%string
  else if (j =? 3) && negb (k =? 13) then (numberToString day ++ "rd")%string
  else (numberToString day ++ "th")%string.

End Ordinal.

(** *** GamesBreakdown.vue: leader lines and labels *)

Module BreakdownLabels.
Import GamesBreakdown.

(** [Math.min(width, height) / 2 - margin] *)
Definition radius : R := (Rmin 800 600 / 2 - 40)%R.

(** [d3.arc().innerRadius(inner).outerRadius(outer).centroid(d)] *)
Definition centroid (inner outer : R) (d : Arc) : R * R :=
  let r := ((inner + outer) / 2)%R in
  let a := ((startAngle d + endAngle d) / 2 - PI / 2)%R in
  ((cos a * r)%R, (sin a * r)%R).

(** [d.startAngle + (d.endAngle - d.startAngle) / 2] *)
Definition midAngle (d : Arc) : R :=
  (startAngle d + (endAngle d - startAngle d) / 2)%R.

(** [mid < Math.PI], a comparison of doubles.  It is the comparison of
    the exact angles except for a slice whose exact mid-angle is [PI]
    itself: there the rounding of the angles decides, and [atPI] is what
    it gives. *)
Definition below (atPI : bool) (d : Arc) : bool :=
  if Rlt_dec (midAngle d) PI then true
  else if Rlt_dec PI (midAngle d) then false
  else atPI.

(** [mid < Math.PI ? 1 : -1] *)
Definition side (atPI : bool) (d : Arc) : R :=
  if below atPI d then 1%R else (-1)%R.

(** The three points of the polyline of a slice. *)
Definition polylinePoints (atPI : bool) (d : Arc)
  : (R * R) * (R * R) * (R * R) :=
  let posA := centroid (radius * (5 / 10)) (radius * (8 / 10)) d in
  let posB := centroid (radius * (9 / 10)) (radius * (9 / 10)) d in
  let posC := centroid (radius * (9 / 10)) (radius * (9 / 10)) d in
  let posC := ((radius * (95 / 100) * side atPI d)%R, snd posC) in
  (posA, posB, posC).

(** The translation of the label of a slice. *)
Definition labelPosition (atPI : bool) (d : Arc) : R * R :=
  let pos := centroid (radius * (9 / 10)) (radius * (9 / 10)) d in
  ((radius * (99 / 100) * side atPI d)%R, snd pos).

(** [mid < Math.PI ? 'start' : 'end'] *)
Definition textAnchor (atPI : bool) (d : Arc) : string :=
  if below atPI d then "start"%string else "end"%string.

End BreakdownLabels.

(** *** GamesBreakdown.vue: the mid-angles in binary64 *)

Module GamesBreakdownFloat.
Import GamesBreakdown D3BandFloat.

(** [Math.PI], the double 7074237752028440 / 2^51. *)
Definition PI64 : PrimFloat.float :=
  PrimFloat.div (ofZ 7074237752028440) (ofZ (2 ^ 51)).

Definition tau64 : PrimFloat.float := PrimFloat.mul (ofZ 2) PI64.

(** The second loop of [pie]: the start and end angle of each slice. *)
Fixpoint arcsLoop (k pa a0 : PrimFloat.float) (data : list Datum)
  : list (PrimFloat.float * PrimFloat.float) :=
  match data with
  | [] => []
  | d :: rest =>
    let v := ofZ (value d) in
    let a1 := PrimFloat.add
                (PrimFloat.add a0
                   (if 0 <? value d then PrimFloat.mul v k else ofZ 0))
                pa in
    (a0, a1) :: arcsLoop k pa a1 rest
  end.

(** [d3.pie().sort(null).value(d => d.value)] for integer values, with
    the default start angle 0, end angle [tau] and pad angle 0. *)
Definition pieAngles (data : list Datum)
  : list (PrimFloat.float * PrimFloat.float) :=
  let n := ofZ (Z.of_nat (length data)) in
  let a0 := ofZ 0 in
  let da := fmin tau64
              (fmax (PrimFloat.opp tau64) (PrimFloat.sub tau64 a0)) in
  let p := fmin (PrimFloat.div (PrimFloat.abs da) n) (ofZ 0) in
  let pa := PrimFloat.mul p
              (if PrimFloat.ltb da (ofZ 0) then ofZ (-1) else ofZ 1) in
  let sum := positiveSum data in
  let k := if sum =? 0 then ofZ 0
           else PrimFloat.div (PrimFloat.sub da (PrimFloat.mul n pa))
                              (ofZ sum) in
  arcsLoop k pa a0 data.

(** [d.startAngle + (d.endAngle - d.startAngle) / 2] *)
Definition midAngle (se : PrimFloat.float * PrimFloat.float)
  : PrimFloat.float :=
  PrimFloat.add (fst se)
    (PrimFloat.div (PrimFloat.sub (snd se) (fst se)) (ofZ 2)).

(** [mid < Math.PI] *)
Definition below (se : PrimFloat.float * PrimFloat.float) : bool :=
  PrimFloat.ltb (midAngle se) PI64.

End GamesBreakdownFloat.

(** The three rows of the running example. *)
Definition scenarioRows : list RawRow :=
  [ mkRow "1/1/2025" "A" "Chess"; mkRow "1/1/2025" "B" "Chess";
    mkRow "1/3/2025" "A" "Go" ]%string.

(** ** Vocabulary of the statements *)

(** An entry as a well-typed [Entry] of the components: its date is present
    and is a calendar date, with no time within the day. *)
Definition validEntry (e : Entry) : Prop :=
  exists dt, Date e = Some dt /\ JSDate.TimeWithinDay (JSDate.time dt) = 0.

(** An entry with a date, as the type [Entry] of the components promises. *)
Definition hasDate (e : Entry) : Prop := Date e <> None.

(** Number of entries of [rawData] dated at time value [t]. *)
Definition countOn (t : Z) (rawData : list Entry) : Z :=
  Z.of_nat (length (filter
    (fun e => match Date e with
              | Some dt => JSDate.time dt =? t
              | None => false
              end) rawData)).

(** Sum of the counts of a list of day buckets. *)
Definition sumCounts (l : list GamesPlayed.DailyCount) : Z :=
  fold_right Z.add 0 (map GamesPlayed.count l).

(** The date [i] days after [d]. *)
Definition plusDays (d : JSDate.t) (i : nat) : JSDate.t :=
  JSDate.mk (JSDate.time d + Z.of_nat i * JSDate.msPerDay).

(** Number of calendar days from [mn] to [mx] inclusive. *)
Definition daySpan (mn mx : JSDate.t) : nat :=
  Z.to_nat (JSDate.Day (JSDate.time mx) - JSDate.Day (JSDate.time mn) + 1).

(** Number of entries dated year [y], month [m] (0-based), day [d]. *)
Definition countOnDate (y m d : Z) (entries : list Entry) : Z :=
  Z.of_nat (length (filter
    (fun e => match Date e with
              | Some dt => (JSDate.getFullYear dt =? y)
                           && (JSDate.getMonth dt =? m)
                           && (JSDate.getDate dt =? d)
              | None => false
              end) entries)).

(** The calendar days (as day numbers) of the dated entries of [p]. *)
Definition daysOf (p : string) (entries : list Entry) : list Z :=
  flat_map (fun e =>
              if String.eqb (Person e) p
              then match Date e with
                   | Some dt => [JSDate.Day (JSDate.time dt)]
                   | None => []
                   end
              else []) entries.

(** Number of distinct calendar days on which [p] has an entry. *)
Definition distinctDays (p : string) (entries : list Entry) : Z :=
  Z.of_nat (length (nodup Z.eq_dec (daysOf p entries))).

(** Number of entries of participant [p]. *)
Definition entriesOf (p : string) (entries : list Entry) : Z :=
  Z.of_nat (length (filter (fun e => String.eqb (Person e) p) entries)).

(** Number of rows of game [g]. *)
Definition rowsOfGame (g : string) (rows : list RawRow) : Z :=
  Z.of_nat (length (filter (fun r => String.eqb (rowGame r) g) rows)).

(** Number of rows of participant [p]. *)
Definition rowsOfPerson (p : string) (rows : list RawRow) : Z :=
  Z.of_nat (length (filter (fun r => String.eqb (rowPerson r) p) rows)).

(** The suffix of an English ordinal: 'th' in the teens, otherwise by the
    last digit. *)
Definition englishSuffix (day : Z) : string :=
  if (day / 10) mod 10 =? 1 then "th"
  else if day mod 10 =? 1 then "st"
  else if day mod 10 =? 2 then "nd"
  else if day mod 10 =? 3 then "rd"
  else "th".

(** The character of a decimal digit, and the text of a date written with
    the given digits: month, day and year separated by slashes. *)
Definition digitChar (d : Z) : ascii := ascii_of_N (Z.to_N (48 + d)).

Definition digitsOf (ds : list Z) : list ascii := map digitChar ds.

Definition numeral (ds : list Z) : Z :=
  fold_left (fun acc d => 10 * acc + d) ds 0.

Definition dateText (ms ds ys : list Z) : list ascii :=
  digitsOf ms ++ "/"%char :: digitsOf ds ++ "/"%char :: digitsOf ys.

Definition isDecimalDigit (d : Z) : Prop := 0 <= d <= 9.

(** [text] is a date written as month, day and year in decimal digits,
    separated by slashes: one or two digits for the month and for the day,
    one to four for the year. *)
Definition writtenDate (text : string) (y mo d : Z) : Prop :=
  exists ms ds ys,
    Forall isDecimalDigit ms /\ Forall isDecimalDigit ds /\
    Forall isDecimalDigit ys /\
    (1 <= length ms <= 2)%nat /\ (1 <= length ds <= 2)%nat /\
    (1 <= length ys <= 4)%nat /\
    text = string_of_list_ascii (dateText ms ds ys) /\
    mo = numeral ms /\ d = numeral ds /\ y = numeral ys.

(** [text] begins with three decimal digits, as a date written year first
    does. *)
Definition yearFirst (text : string) : Prop :=
  exists a b c rest,
    isDecimalDigit a /\ isDecimalDigit b /\ isDecimalDigit c /\
    text = string_of_list_ascii (digitsOf [a; b; c] ++ rest).

(** The rational number that a finite double is. *)
Definition exactQ (f : PrimFloat.float) : option Q :=
  match FloatOps.Prim2SF f with
  | SpecFloat.S754_zero _ => Some 0%Q
  | SpecFloat.S754_finite s m e =>
    let mag := if 0 <=? e then inject_Z (Z.pos m * 2 ^ e)
               else (inject_Z (Z.pos m) / inject_Z (2 ^ (- e)))%Q in
    Some (if s then (- mag)%Q else mag)
  | _ => None
  end.

(** Sum of a list of real numbers. *)
Definition Rsum (l : list R) : R := fold_right Rplus 0%R l.

(** Sum of the values of the first [j] data. *)
Definition prefixValue (j : nat) (data : list GamesBreakdown.Datum) : Z :=
  fold_right Z.add 0 (map GamesBreakdown.value (firstn j data)).

(** ** Facts about the date arithmetic *)

Module JSDateFacts.
Import JSDate.

Lemma DayFromYear_succ y : DayFromYear (y + 1) = DayFromYear y + DaysInYear y.
Proof.
  unfold DayFromYear, DaysInYear.
  repeat match goal with
  | |- context [?a =? ?b] => destruct (Z.eqb_spec a b); cbn [negb]
  end; Z.div_mod_to_equations; lia.
Qed.

Lemma DaysInYear_range y : 365 <= DaysInYear y <= 366.
Proof.
  unfold DaysInYear.
  repeat match goal with
  | |- context [?a =? ?b] => destruct (Z.eqb_spec a b); cbn [negb]
  end; lia.
Qed.

Lemma YearFromDay_spec d :
  DayFromYear (YearFromDay d) <= d < DayFromYear (YearFromDay d + 1).
Proof.
  unfold YearFromDay.
  set (y0 := 1970 + d * 400 / 146097).
  destruct (Z.leb_spec (DayFromYear (y0 + 1)) d) as [H1|H1].
  - split; [lia|].
    unfold DayFromYear in *. subst y0. Z.div_mod_to_equations. lia.
  - destruct (Z.leb_spec (DayFromYear y0) d) as [H0|H0].
    + lia.
    + replace (y0 - 1 + 1) with y0 by lia. split; [|lia].
      unfold DayFromYear in *. subst y0. Z.div_mod_to_equations. lia.
Qed.

Lemma DayFromYear_lt y1 y2 : y1 < y2 -> DayFromYear y1 < DayFromYear y2.
Proof.
  intros H. unfold DayFromYear. Z.div_mod_to_equations. lia.
Qed.

Lemma YearFromDay_unique d y :
  DayFromYear y <= d < DayFromYear (y + 1) -> YearFromDay d = y.
Proof.
  intros H. pose proof (YearFromDay_spec d) as S.
  destruct (Z.lt_trichotomy (YearFromDay d) y) as [L|[E|G]]; [|exact E|].
  - assert (DayFromYear (YearFromDay d + 1) <= DayFromYear y).
    { destruct (Z.eq_dec (YearFromDay d + 1) y) as [->|]; [lia|].
      apply Z.lt_le_incl, DayFromYear_lt. lia. }
    lia.
  - assert (DayFromYear (y + 1) <= DayFromYear (YearFromDay d)).
    { destruct (Z.eq_dec (y + 1) (YearFromDay d)) as [->|]; [lia|].
      apply Z.lt_le_incl, DayFromYear_lt. lia. }
    lia.
Qed.

Lemma InLeapYear_range y : 0 <= InLeapYear y <= 1.
Proof. unfold InLeapYear. pose proof (DaysInYear_range y). lia. Qed.

Lemma DayWithinYear_range d :
  0 <= DayWithinYear d < 365 + InLeapYear (YearFromDay d).
Proof.
  unfold DayWithinYear, InLeapYear.
  pose proof (YearFromDay_spec d) as S.
  rewrite DayFromYear_succ in S. lia.
Qed.

Ltac split_ltb :=
  repeat match goal with
  | |- context [?a <? ?b] => destruct (Z.ltb_spec a b)
  end.

Ltac split_ifs :=
  repeat match goal with
  | |- context [?a =? ?b] => destruct (Z.eqb_spec a b)
  | |- context [?a <? ?b] => destruct (Z.ltb_spec a b)
  | |- context [?a <=? ?b] => destruct (Z.leb_spec a b)
  end.

Lemma MonthFromDay_range d : 0 <= MonthFromDay d <= 11.
Proof. unfold MonthFromDay. split_ifs; lia. Qed.

Lemma DateFromDay_range d : 1 <= DateFromDay d <= 31.
Proof.
  unfold DateFromDay, MonthFromDay.
  pose proof (DayWithinYear_range d).
  pose proof (InLeapYear_range (YearFromDay d)).
  split_ltb; cbv [DaysBeforeMonth Z.eqb Pos.eqb]; lia.
Qed.

(** The day reached from the civil date of [d] by changing the date only. *)
Lemma MakeDay_civil d x :
  MakeDay (YearFromDay d) (MonthFromDay d) x = d - DateFromDay d + x.
Proof.
  pose proof (MonthFromDay_range d) as R.
  unfold MakeDay.
  rewrite (Z.div_small (MonthFromDay d) 12), (Z.mod_small (MonthFromDay d) 12)
    by lia.
  rewrite Z.add_0_r. unfold DateFromDay, DayWithinYear. lia.
Qed.

(** Length of month [m] (0-based, 0..11) in a year with leap flag [leap]. *)
Definition monthLength (leap m : Z) : Z :=
  DaysBeforeMonth leap (m + 1) - DaysBeforeMonth leap m.

Ltac prune_ifs :=
  repeat match goal with
  | |- context [?a =? ?b] => destruct (Z.eqb_spec a b); try lia
  | |- context [?a <? ?b] => destruct (Z.ltb_spec a b); try lia
  end.

Lemma civil_MakeDay y m x :
  0 <= m <= 11 ->
  1 <= x <= monthLength (InLeapYear y) m ->
  YearFromDay (MakeDay y m x) = y /\
  MonthFromDay (MakeDay y m x) = m /\
  DateFromDay (MakeDay y m x) = x.
Proof.
  intros Hm Hx.
  pose proof (InLeapYear_range y) as HL.
  assert (HD : MakeDay y m x
               = DayFromYear y + DaysBeforeMonth (InLeapYear y) m + x - 1).
  { unfold MakeDay.
    rewrite (Z.div_small m 12), (Z.mod_small m 12) by lia.
    now rewrite Z.add_0_r. }
  assert (HY : YearFromDay (MakeDay y m x) = y).
  { apply YearFromDay_unique. rewrite DayFromYear_succ, HD.
    unfold InLeapYear in *. revert Hx.
    unfold monthLength, DaysBeforeMonth. prune_ifs. }
  assert (HW : DayWithinYear (MakeDay y m x)
               = DaysBeforeMonth (InLeapYear y) m + x - 1).
  { unfold DayWithinYear. rewrite HY, HD. lia. }
  assert (HM : MonthFromDay (MakeDay y m x) = m).
  { unfold MonthFromDay. rewrite HW, HY.
    revert Hx. unfold monthLength, DaysBeforeMonth. prune_ifs. }
  split; [exact HY|]. split; [exact HM|].
  unfold DateFromDay. rewrite HW, HY, HM. lia.
Qed.

Lemma monthLength_range leap m :
  0 <= leap <= 1 -> 0 <= m <= 11 -> 28 <= monthLength leap m <= 31.
Proof.
  intros HL Hm.
  unfold monthLength, DaysBeforeMonth. prune_ifs.
Qed.

Lemma WeekDay_range d : 0 <= WeekDay d <= 6.
Proof. unfold WeekDay. pose proof (Z.mod_pos_bound (d + 4) 7). lia. Qed.

Lemma Day_mul d : Day (d * msPerDay) = d.
Proof. unfold Day, msPerDay. apply Z.div_mul. lia. Qed.

Lemma time_decompose t : t = Day t * msPerDay + TimeWithinDay t.
Proof.
  unfold Day, TimeWithinDay, msPerDay.
  pose proof (Z.div_mod t 86400000). lia.
Qed.

(** [dt.setDate(dt.getDate() + 1)] advances the time value by one day. *)
Lemma setDate_next dt :
  time (setDate dt (getDate dt + 1)) = time dt + msPerDay.
Proof.
  unfold setDate, getFullYear, getMonth, getDate. cbn [time].
  rewrite MakeDay_civil.
  pose proof (time_decompose (time dt)). lia.
Qed.

Lemma MakeDay_next_month_0 y m :
  0 <= m <= 11 ->
  MakeDay y (m + 1) 0 = MakeDay y m (monthLength (InLeapYear y) m).
Proof.
  intros Hm. unfold MakeDay, monthLength.
  rewrite (Z.div_small m 12), (Z.mod_small m 12) by lia.
  replace (y + 0) with y by lia.
  destruct (Z.eq_dec m 11) as [->|Hne].
  - change ((11 + 1) / 12) with 1. change ((11 + 1) mod 12) with 0.
    rewrite DayFromYear_succ. unfold InLeapYear at 2 3 4.
    change (DaysBeforeMonth (InLeapYear (y + 1)) 0) with 0.
    change (11 + 1) with 12.
    change (DaysBeforeMonth (DaysInYear y - 365) 12)
      with (365 + (DaysInYear y - 365)).
    lia.
  - rewrite (Z.div_small (m + 1) 12), (Z.mod_small (m + 1) 12) by lia.
    replace (y + 0) with y by lia. lia.
Qed.

Lemma Day_create y m d : Day (time (create y m d)) = MakeDay (MakeFullYear y) m d.
Proof. unfold create. cbn [time]. apply Day_mul. Qed.

(** The "day 0 of the next month" idiom gives the length of the month. *)
Lemma getDate_next_month_0 y m :
  0 <= m <= 11 ->
  getDate (create y (m + 1) 0)
  = monthLength (InLeapYear (MakeFullYear y)) m.
Proof.
  intros Hm. unfold getDate. rewrite Day_create, MakeDay_next_month_0 by lia.
  pose proof (monthLength_range (InLeapYear (MakeFullYear y)) m
                (InLeapYear_range _) Hm).
  apply civil_MakeDay; lia.
Qed.

Lemma civil_create y m d :
  0 <= m <= 11 ->
  1 <= d <= monthLength (InLeapYear (MakeFullYear y)) m ->
  getFullYear (create y m d) = MakeFullYear y /\
  getMonth (create y m d) = m /\
  getDate (create y m d) = d.
Proof.
  intros Hm Hd. unfold getFullYear, getMonth, getDate.
  rewrite Day_create. now apply civil_MakeDay.
Qed.

(** A date at midnight is rebuilt from its year, month and date. *)
Lemma MakeDay_getters dt :
  MakeDay (getFullYear dt) (getMonth dt) (getDate dt) = Day (time dt).
Proof.
  unfold getFullYear, getMonth, getDate. rewrite MakeDay_civil. lia.
Qed.

End JSDateFacts.

(** ** Facts about the outcome monad and the maps *)

Lemma mapM_Ok {A B : Type} (f : A -> result B) (g : A -> B) (xs : list A) :
  (forall x, In x xs -> f x = Ok (g x)) -> mapM f xs = Ok (map g xs).
Proof.
  induction xs as [|x xs IH]; intros H; cbn; [reflexivity|].
  rewrite (H x (or_introl eq_refl)). cbn.
  rewrite IH by (intros y Hy; apply H; now right). reflexivity.
Qed.

Module JsMapFacts.
Section WithKey.
Context {K V : Type} (eqb : K -> K -> bool).
Hypothesis eqb_spec : forall a b, reflect (a = b) (eqb a b).

Lemma get_set (m : @JsMap.t K V) k v k' :
  JsMap.get eqb (JsMap.set eqb m k v) k'
  = if eqb k k' then Some v else JsMap.get eqb m k'.
Proof.
  induction m as [|[k0 v0] m IH]; cbn.
  - reflexivity.
  - destruct (eqb_spec k0 k) as [->|Hk]; cbn.
    + destruct (eqb_spec k k'); reflexivity.
    + rewrite IH. destruct (eqb_spec k0 k') as [->|]; [|reflexivity].
      destruct (eqb_spec k k'); [congruence|reflexivity].
Qed.

Lemma get_fold_notin (kvs : list (K * V)) m k :
  ~ In k (map fst kvs) ->
  JsMap.get eqb
    (fold_left (fun m kv => JsMap.set eqb m (fst kv) (snd kv)) kvs m) k
  = JsMap.get eqb m k.
Proof.
  revert m. induction kvs as [|[k0 v0] kvs IH]; intros m H; cbn in *.
  - reflexivity.
  - rewrite IH by tauto. rewrite get_set.
    destruct (eqb_spec k0 k); [tauto|reflexivity].
Qed.

Lemma get_of_list (kvs : list (K * V)) k v :
  NoDup (map fst kvs) -> In (k, v) kvs ->
  JsMap.get eqb (JsMap.of_list eqb kvs) k = Some v.
Proof.
  unfold JsMap.of_list. generalize (@nil (K * V)) as m.
  induction kvs as [|[k0 v0] kvs IH]; intros m ND HIn; cbn in *.
  - contradiction.
  - inversion ND as [|? ? Hnotin ND']; subst.
    destruct HIn as [E|HIn].
    + inversion E; subst. rewrite get_fold_notin by assumption.
      rewrite get_set. destruct (eqb_spec k k); [reflexivity|congruence].
    + apply IH; assumption.
Qed.

Lemma get_In (m : @JsMap.t K V) k v :
  JsMap.get eqb m k = Some v -> In (k, v) m.
Proof.
  induction m as [|[k0 v0] m IH]; cbn; [discriminate|].
  destruct (eqb_spec k0 k) as [->|]; intros H.
  - inversion H; subst. now left.
  - right. now apply IH.
Qed.

Lemma In_get (m : @JsMap.t K V) k v :
  NoDup (JsMap.keys m) -> In (k, v) m -> JsMap.get eqb m k = Some v.
Proof.
  unfold JsMap.keys.
  induction m as [|[k0 v0] m IH]; cbn; intros ND HIn; [contradiction|].
  inversion ND as [|? ? Hnotin ND']; subst.
  destruct HIn as [E|HIn].
  - inversion E; subst. destruct (eqb_spec k k); [reflexivity|congruence].
  - destruct (eqb_spec k0 k) as [->|]; [|now apply IH].
    exfalso. apply Hnotin. apply in_map_iff. now exists (k, v).
Qed.

Lemma keys_set (m : @JsMap.t K V) k v :
  JsMap.keys (JsMap.set eqb m k v)
  = if JsMap.has eqb m k then JsMap.keys m else JsMap.keys m ++ [k].
Proof.
  unfold JsMap.keys, JsMap.has.
  induction m as [|[k0 v0] m IH]; cbn; [reflexivity|].
  destruct (eqb_spec k0 k) as [->|]; cbn; [reflexivity|].
  rewrite IH. destruct (JsMap.get eqb m k); reflexivity.
Qed.

Lemma has_keys (m : @JsMap.t K V) k :
  JsMap.has eqb m k = true <-> In k (JsMap.keys m).
Proof.
  unfold JsMap.keys, JsMap.has.
  induction m as [|[k0 v0] m IH]; cbn.
  - split; [discriminate|contradiction].
  - destruct (eqb_spec k0 k) as [->|Hne].
    + split; auto.
    + rewrite IH. split; [now right|]. intros [E|H]; [congruence|exact H].
Qed.

Lemma keys_set_nodup (m : @JsMap.t K V) k v :
  NoDup (JsMap.keys m) -> NoDup (JsMap.keys (JsMap.set eqb m k v)).
Proof.
  intros ND. rewrite keys_set.
  destruct (JsMap.has eqb m k) eqn:H; [exact ND|].
  apply NoDup_app; [exact ND|repeat constructor; intros []|].
  intros x Hx [<- | []]. apply has_keys in Hx. congruence.
Qed.

End WithKey.
End JsMapFacts.

(** ** GamesPlayed.vue: the day buckets and the running totals *)

Module GamesPlayedFacts.
Import JSDate JSDateFacts GamesPlayed.

Definition extentStep (acc : option (JSDate.t * JSDate.t)) (e : Entry) :=
  match Date e with
  | None => acc
  | Some value =>
    match acc with
    | None => Some (value, value)
    | Some (mn, mx) =>
      Some (if time value <? time mn then value else mn,
            if time mx <? time value then value else mx)
    end
  end.

Lemma extent_fold (l : list Entry) : forall mn mx,
  time mn <= time mx ->
  exists mn' mx',
    fold_left extentStep l (Some (mn, mx)) = Some (mn', mx') /\
    (mn' = mn \/ In (Some mn') (map Date l)) /\
    (mx' = mx \/ In (Some mx') (map Date l)) /\
    time mn' <= time mn /\ time mx <= time mx' /\
    Forall (fun e => forall dt, Date e = Some dt ->
                     time mn' <= time dt <= time mx') l.
Proof.
  induction l as [|e l IH]; intros mn mx Hle; cbn [fold_left].
  - exists mn, mx. repeat split; auto; lia.
  - unfold extentStep at 2. destruct (Date e) as [v|] eqn:Ev.
    + set (mn1 := if time v <? time mn then v else mn).
      set (mx1 := if time mx <? time v then v else mx).
      assert (H1 : time mn1 <= time v <= time mx1 /\
                   time mn1 <= time mn /\ time mx <= time mx1).
      { subst mn1 mx1.
        destruct (Z.ltb_spec (time v) (time mn));
          destruct (Z.ltb_spec (time mx) (time v)); lia. }
      destruct (IH mn1 mx1 ltac:(lia))
        as (mn' & mx' & Hf & Hmn & Hmx & L1 & L2 & HF).
      exists mn', mx'. split; [exact Hf|].
      cbn [map]. rewrite Ev.
      split.
      { destruct Hmn as [->|Hmn]; [|now right; right].
        subst mn1. destruct (time v <? time mn); [right; now left|now left]. }
      split.
      { destruct Hmx as [->|Hmx]; [|now right; right].
        subst mx1. destruct (time mx <? time v); [right; now left|now left]. }
      split; [lia|]. split; [lia|].
      constructor; [|exact HF].
      intros dt Hdt. rewrite Ev in Hdt. inversion Hdt; subst. lia.
    + destruct (IH mn mx Hle) as (mn' & mx' & Hf & Hmn & Hmx & L1 & L2 & HF).
      exists mn', mx'. split; [exact Hf|].
      cbn [map]. rewrite Ev.
      split; [destruct Hmn; [now left|now right; right]|].
      split; [destruct Hmx; [now left|now right; right]|].
      split; [lia|]. split; [lia|].
      constructor; [|exact HF]. intros dt Hdt. congruence.
Qed.

Lemma extent_spec (rawData : list Entry) :
  rawData <> [] -> Forall validEntry rawData ->
  exists mn mx,
    extent rawData = Some (mn, mx) /\
    In (Some mn) (map Date rawData) /\ In (Some mx) (map Date rawData) /\
    Forall (fun e => forall dt, Date e = Some dt ->
                     time mn <= time dt <= time mx) rawData.
Proof.
  intros Hne Hv. destruct rawData as [|e l]; [congruence|].
  inversion Hv as [|? ? (v & Ev & _) _]; subst.
  unfold extent. change (fold_left _ (e :: l) None)
    with (fold_left extentStep l (extentStep None e)).
  unfold extentStep at 2. rewrite Ev.
  destruct (extent_fold l v v ltac:(lia))
    as (mn' & mx' & Hf & Hmn & Hmx & L1 & L2 & HF).
  exists mn', mx'. split; [exact Hf|]. cbn [map]. rewrite Ev.
  split; [destruct Hmn as [->|]; [now left|now right]|].
  split; [destruct Hmx as [->|]; [now left|now right]|].
  constructor; [|exact HF].
  intros dt Hdt. rewrite Ev in Hdt. inversion Hdt; subst. lia.
Qed.

Lemma plusDays_0 d : plusDays d 0 = d.
Proof. destruct d as [t]. unfold plusDays. cbn. f_equal. lia. Qed.

Lemma datesLoop_spec (mx : JSDate.t) : forall n fuel dt,
  (n < fuel)%nat ->
  time mx < time dt + Z.of_nat n * msPerDay ->
  (forall i, (i < n)%nat -> time dt + Z.of_nat i * msPerDay <= time mx) ->
  datesLoop fuel dt mx = Ok (map (plusDays dt) (seq 0 n)).
Proof.
  induction n as [|n IH]; intros fuel dt Hf Hgt Hle;
    (destruct fuel as [|fuel]; [lia|]); cbn [datesLoop].
  - destruct (Z.leb_spec (time dt) (time mx)); [lia|reflexivity].
  - pose proof (Hle O ltac:(lia)) as H0.
    destruct (Z.leb_spec (time dt) (time mx)); [|lia].
    pose proof (setDate_next dt) as Hn.
    rewrite (IH fuel (setDate dt (getDate dt + 1))).
    + cbn [bind seq map]. rewrite plusDays_0. do 2 f_equal.
      rewrite <- seq_shift, map_map. apply map_ext. intros i.
      unfold plusDays. rewrite Hn. f_equal. lia.
    + lia.
    + rewrite Hn. lia.
    + intros i Hi. rewrite Hn. specialize (Hle (S i) ltac:(lia)). lia.
Qed.

Lemma countAt_spec t (rawData : list Entry) :
  Forall validEntry rawData -> countAt t rawData = Ok (countOn t rawData).
Proof.
  unfold countOn. induction 1 as [|e l (v & Ev & _) _ IH]; cbn.
  - reflexivity.
  - unfold dateTime. rewrite Ev, IH. cbn. unfold getTime.
    destruct (time v =? t); cbn [length]; f_equal; lia.
Qed.

Lemma combine_seq_nth {A} (ds : list A) : forall a i d,
  nth_error ds i = Some d -> In ((a + i)%nat, d) (combine (seq a (length ds)) ds).
Proof.
  induction ds as [|x ds IH]; intros a i d H.
  - destruct i; discriminate.
  - destruct i as [|i]; cbn in *.
    + inversion H; subst. left. f_equal. lia.
    + right. replace (a + S i)%nat with (S a + i)%nat by lia. now apply IH.
Qed.

Lemma combine_seq_snd {A} (ds : list A) a :
  map snd (combine (seq a (length ds)) ds) = ds.
Proof.
  revert a. induction ds as [|x ds IH]; intros a; cbn; [reflexivity|].
  now rewrite IH.
Qed.

Lemma dateToDay_get (ds : list JSDate.t) i d :
  NoDup (map time ds) -> nth_error ds i = Some d ->
  JsMap.get Z.eqb (dateToDay ds) (getTime d) = Some (Z.of_nat i + 1).
Proof.
  intros ND Hn. unfold dateToDay.
  apply (JsMapFacts.get_of_list Z.eqb Z.eqb_spec).
  - rewrite map_map. cbn [fst]. unfold getTime.
    rewrite <- (map_map snd time), combine_seq_snd. exact ND.
  - apply in_map_iff. exists (i, d). split; [reflexivity|].
    apply (combine_seq_nth ds 0 i d Hn).
Qed.

Definition Zsum (l : list Z) : Z := fold_right Z.add 0 l.

Lemma Zsum_map_add {A} (f g : A -> Z) (l : list A) :
  Zsum (map (fun i => f i + g i) l) = Zsum (map f l) + Zsum (map g l).
Proof.
  unfold Zsum. induction l as [|x l IH]; cbn [map fold_right]; lia.
Qed.

Lemma Zsum_indicator (j : nat) : forall n a,
  Zsum (map (fun i => if Nat.eqb j i then 1 else 0) (seq a n))
  = if (a <=? j)%nat && (j <? a + n)%nat then 1 else 0.
Proof.
  induction n as [|n IH]; intros a; cbn [seq map Zsum fold_right].
  - destruct (Nat.leb_spec a j); destruct (Nat.ltb_spec j (a + 0)); cbn;
      lia.
  - fold (Zsum (map (fun i => if Nat.eqb j i then 1 else 0) (seq (S a) n))).
    rewrite IH.
    destruct (Nat.eqb_spec j a); destruct (Nat.leb_spec a j);
      destruct (Nat.leb_spec (S a) j); destruct (Nat.ltb_spec j (S a + n));
      destruct (Nat.ltb_spec j (a + S n)); cbn; lia.
Qed.

Lemma countOn_cons t e l :
  countOn t (e :: l)
  = (match Date e with
     | Some dt => if time dt =? t then 1 else 0
     | None => 0
     end) + countOn t l.
Proof.
  unfold countOn. cbn [filter].
  destruct (Date e) as [dt|]; [|lia].
  destruct (time dt =? t); cbn [length]; lia.
Qed.

Lemma countOn_sum (rawData : list Entry) (mn : JSDate.t) (n : nat) :
  Forall (fun e => exists dt j, Date e = Some dt /\ (j < n)%nat /\
                   time dt = time mn + Z.of_nat j * msPerDay) rawData ->
  Zsum (map (fun i => countOn (time (plusDays mn i)) rawData) (seq 0 n))
  = Z.of_nat (length rawData).
Proof.
  induction 1 as [|e l (dt & j & Ed & Hj & Ht) _ IH].
  - change (Z.of_nat (length (@nil Entry))) with 0. unfold Zsum.
    induction (seq 0 n) as [|x xs IHx]; cbn [map fold_right];
      [reflexivity|]. rewrite IHx. reflexivity.
  - rewrite (map_ext _ (fun i => (if Nat.eqb j i then 1 else 0)
                                 + countOn (time (plusDays mn i)) l)).
    + rewrite Zsum_map_add, IH, Zsum_indicator.
      destruct (Nat.leb_spec 0 j); [|lia].
      destruct (Nat.ltb_spec j (0 + n)); [|lia]. cbn [andb length]. lia.
    + intros i. rewrite countOn_cons, Ed. f_equal.
      unfold plusDays. cbn [time]. rewrite Ht.
      destruct (Nat.eqb_spec j i) as [->|Hne].
      * now rewrite Z.eqb_refl.
      * destruct (Z.eqb_spec (time mn + Z.of_nat j * msPerDay)
                             (time mn + Z.of_nat i * msPerDay)) as [E|];
          [|reflexivity].
        unfold msPerDay in E. lia.
Qed.

Lemma aligned_time t : TimeWithinDay t = 0 -> t = Day t * msPerDay.
Proof. intros H. pose proof (time_decompose t). lia. Qed.

Lemma valid_in (rawData : list Entry) dt :
  Forall validEntry rawData -> In (Some dt) (map Date rawData) ->
  TimeWithinDay (time dt) = 0.
Proof.
  intros Hv HIn. apply in_map_iff in HIn. destruct HIn as (e & Ee & HIn).
  rewrite Forall_forall in Hv. destruct (Hv e HIn) as (dt' & Ed & Ha).
  congruence.
Qed.

End GamesPlayedFacts.

Module GamesPlayedSpec.
Import JSDate JSDateFacts GamesPlayed GamesPlayedFacts.

(** In a zone of constant offset (that of [JSDate]; [ConstantOffsetFacts]
    below carries the buckets to every constant offset), where every day
    has its local midnight: for a non-empty set of entries, each with a
    date at midnight, the builder finds the least and the greatest entry
    date, enumerates every day from the one to the other inclusive,
    numbers them 1, 2, ... in order, gives each the number of entries
    dated that day, and these counts add up to the number of entries; a
    single entry gives the single bucket of day index 1.  Where the zone
    skips a local midnight this fails, see [GamesPlayedZoneSpec] below. *)
Theorem day_buckets_cover_range (rawData : list Entry) :
  rawData <> [] -> Forall validEntry rawData ->
  exists minDate maxDate,
    In (Some minDate) (map Date rawData) /\
    In (Some maxDate) (map Date rawData) /\
    Forall (fun e => forall dt, Date e = Some dt ->
                     time minDate <= time dt <= time maxDate) rawData /\
    let n := daySpan minDate maxDate in
    (1 <= n)%nat /\
    plusDays minDate (n - 1) = maxDate /\
    (length rawData = 1%nat -> n = 1%nat) /\
    forall fuel, (n < fuel)%nat ->
      dates fuel rawData = Ok (map (plusDays minDate) (seq 0 n)) /\
      exists buckets,
        dailyCounts fuel rawData = Ok buckets /\
        buckets = map (fun i => mkDaily (Some (Z.of_nat i + 1))
                         (countOn (time (plusDays minDate i)) rawData))
                      (seq 0 n) /\
        sumCounts buckets = Z.of_nat (length rawData).
Proof.
  intros Hne Hv.
  destruct (extent_spec rawData Hne Hv) as (mn & mx & He & Imn & Imx & HB).
  exists mn, mx. split; [exact Imn|]. split; [exact Imx|].
  split; [exact HB|].
  pose proof (valid_in _ _ Hv Imn) as Amn.
  pose proof (valid_in _ _ Hv Imx) as Amx.
  pose proof (aligned_time _ Amn) as Tmn.
  pose proof (aligned_time _ Amx) as Tmx.
  assert (Hle : time mn <= time mx).
  { apply in_map_iff in Imn. destruct Imn as (e & Ee & HIn).
    rewrite Forall_forall in HB. apply (HB e HIn mn Ee). }
  assert (HD : Day (time mn) <= Day (time mx)).
  { unfold msPerDay in *. lia. }
  cbv zeta. unfold daySpan.
  set (a := Day (time mn)) in *. set (b := Day (time mx)) in *.
  set (n := Z.to_nat (b - a + 1)).
  assert (Hn : Z.of_nat n = b - a + 1) by (subst n; lia).
  split; [lia|].
  split.
  { unfold plusDays. destruct mx as [tx]. cbn [time] in *. f_equal.
    unfold msPerDay in *. lia. }
  split.
  { intros H1. destruct rawData as [|e [|e' l]]; try discriminate.
    cbn [map In] in Imn, Imx.
    destruct Imn as [Imn|[]]. destruct Imx as [Imx|[]].
    assert (mn = mx) by congruence. subst mx. subst n a b. lia. }
  intros fuel Hfuel.
  assert (Hdates : dates fuel rawData = Ok (map (plusDays mn) (seq 0 n))).
  { unfold dates. rewrite He. apply datesLoop_spec; [exact Hfuel| |].
    - unfold msPerDay in *. lia.
    - intros i Hi. unfold msPerDay in *. lia. }
  split; [exact Hdates|].
  assert (ND : NoDup (map time (map (plusDays mn) (seq 0 n)))).
  { rewrite map_map. clear. generalize 0%nat as s.
    induction n as [|k IH]; intros s; cbn [seq map]; constructor.
    - rewrite in_map_iff. intros (j & Ej & Hj). apply in_seq in Hj.
      unfold plusDays in Ej. cbn [time] in Ej. unfold msPerDay in Ej. lia.
    - apply IH. }
  eexists. split; [|split; [reflexivity|]].
  - unfold dailyCounts. rewrite Hdates. cbn [bind]. unfold dailyCountsOf.
    set (ds := map (plusDays mn) (seq 0 n)) in *.
    rewrite (mapM_Ok _ (fun d => mkDaily
               (JsMap.get Z.eqb (dateToDay ds) (getTime d))
               (countOn (getTime d) rawData))).
    + subst ds. rewrite map_map. f_equal. apply map_ext_in. intros i Hi.
      apply in_seq in Hi. f_equal.
      apply dateToDay_get; [exact ND|].
      rewrite nth_error_map, nth_error_seq.
      destruct (Nat.ltb_spec i n); [reflexivity|lia].
    + intros d Hd. rewrite countAt_spec by exact Hv. reflexivity.
  - unfold sumCounts. rewrite map_map. cbn [count].
    apply (countOn_sum rawData mn n).
    rewrite Forall_forall in *. intros e HIn.
    destruct (Hv e HIn) as (dt & Ed & Ha).
    pose proof (HB e HIn dt Ed) as Hb.
    pose proof (aligned_time _ Ha) as Tdt.
    exists dt, (Z.to_nat (Day (time dt) - a)). split; [exact Ed|].
    unfold msPerDay in *. split; lia.
Qed.

Lemma scenario_valid : Forall validEntry (normalize scenarioRows).
Proof.
  repeat constructor; eexists; (split; [reflexivity|]); reflexivity.
Qed.

Lemma day_buckets_cover_range_witness :
  normalize scenarioRows <> [] /\
  Forall validEntry (normalize scenarioRows) /\
  exists minDate maxDate,
    In (Some minDate) (map Date (normalize scenarioRows)) /\
    In (Some maxDate) (map Date (normalize scenarioRows)) /\
    plusDays minDate (daySpan minDate maxDate - 1) = maxDate.
Proof.
  assert (Hne : normalize scenarioRows <> []) by discriminate.
  split; [exact Hne|]. split; [exact scenario_valid|].
  destruct (day_buckets_cover_range _ Hne scenario_valid)
    as (mn & mx & Imn & Imx & _ & _ & Hlast & _).
  exists mn, mx. split; [exact Imn|]. split; [exact Imx|exact Hlast].
Defined.

Lemma cumulativeFrom_total (l : list DailyCount) : forall r,
  map total (cumulativeFrom r l)
  = map (fun i => r + sumCounts (firstn (S i) l)) (seq 0 (length l)).
Proof.
  induction l as [|d l IH]; intros r; cbn [cumulativeFrom map length seq].
  - reflexivity.
  - cbn [total]. f_equal.
    + unfold sumCounts. cbn. lia.
    + rewrite IH, <- seq_shift, map_map. apply map_ext. intros i.
      unfold sumCounts. cbn [firstn map fold_right]. lia.
Qed.

Lemma cumulativeFrom_day (l : list DailyCount) : forall r,
  map cday (cumulativeFrom r l) = map day l.
Proof.
  induction l as [|d l IH]; intros r; cbn; [reflexivity|].
  now rewrite IH.
Qed.

Lemma cumulativeFrom_sorted (l : list DailyCount) : forall r,
  Forall (fun b => 0 <= count b) l ->
  Forall (fun x => r <= x) (map total (cumulativeFrom r l)) /\
  StronglySorted Z.le (map total (cumulativeFrom r l)).
Proof.
  induction l as [|d l IH]; intros r H; cbn [cumulativeFrom map total].
  - split; constructor.
  - inversion H as [|? ? Hd Hl]; subst.
    destruct (IH (r + count d) Hl) as [Hb Hs].
    split.
    + constructor; [lia|]. eapply Forall_impl; [|exact Hb].
      cbn. intros; lia.
    + constructor; assumption.
Qed.

(** C2. The cumulative aggregator emits one bucket per day bucket, with the
    same day index, whose total is the sum of the counts up to and including
    that bucket; with counts that are not negative the totals never
    decrease, and the last total is the sum of all counts. *)
Theorem cumulative_prefix_sums (l : list DailyCount) :
  length (cumulative l) = length l /\
  map cday (cumulative l) = map day l /\
  map total (cumulative l)
    = map (fun i => sumCounts (firstn (S i) l)) (seq 0 (length l)) /\
  (Forall (fun b => 0 <= count b) l ->
   StronglySorted Z.le (map total (cumulative l))) /\
  last (map total (cumulative l)) 0 = sumCounts l.
Proof.
  assert (HT : map total (cumulative l)
    = map (fun i => sumCounts (firstn (S i) l)) (seq 0 (length l))).
  { unfold cumulative. rewrite cumulativeFrom_total. reflexivity. }
  split.
  { unfold cumulative.
    rewrite <- (length_map cday (cumulativeFrom 0 l)), cumulativeFrom_day.
    apply length_map. }
  split; [apply cumulativeFrom_day|].
  split; [exact HT|].
  split; [intros H; apply (cumulativeFrom_sorted l 0 H)|].
  rewrite HT. destruct l as [|d l]; [reflexivity|].
  cbn [length]. rewrite seq_S, map_app. cbn [map]. rewrite last_last.
  cbn [Nat.add].
  now rewrite firstn_all2 by (cbn [length]; lia).
Qed.

Lemma cumulative_prefix_sums_witness :
  Forall (fun b => 0 <= count b)
    [mkDaily (Some 1) 2; mkDaily (Some 2) 0; mkDaily (Some 3) 1] /\
  StronglySorted Z.le
    (map total (cumulative
       [mkDaily (Some 1) 2; mkDaily (Some 2) 0; mkDaily (Some 3) 1])).
Proof.
  assert (H : Forall (fun b => 0 <= count b)
    [mkDaily (Some 1) 2; mkDaily (Some 2) 0; mkDaily (Some 3) 1]).
  { repeat constructor; cbn; lia. }
  split; [exact H|].
  exact (proj1 (proj2 (proj2 (proj2 (cumulative_prefix_sums _)))) H).
Defined.

Example scenario_cumulative :
  map total (cumulative
    [mkDaily (Some 1) 2; mkDaily (Some 2) 0; mkDaily (Some 3) 1])
  = [2; 2; 3].
Proof. reflexivity. Qed.

End GamesPlayedSpec.

(** ** The zone of constant offset is the model of [JSDate] *)

Module ZoneFacts.
Import JSDate.

Lemma LocalTime_utc t : JSDateZone.LocalTime JSDateZone.utc t = t.
Proof.
  unfold JSDateZone.LocalTime, JSDateZone.offsetAt. cbn [JSDateZone.switch
    JSDateZone.before JSDateZone.after JSDateZone.utc].
  destruct (t <? 0); lia.
Qed.

Lemma UTC_utc t : JSDateZone.UTC JSDateZone.utc t = t.
Proof.
  unfold JSDateZone.UTC, JSDateZone.offsetOfLocal. cbn [JSDateZone.switch
    JSDateZone.before JSDateZone.after JSDateZone.utc].
  destruct (t <? 0 + Z.max 0 0); lia.
Qed.

Lemma create_utc y m d : JSDateZone.create JSDateZone.utc y m d = create y m d.
Proof. unfold JSDateZone.create, create. rewrite UTC_utc. reflexivity. Qed.

Lemma getDate_utc dt : JSDateZone.getDate JSDateZone.utc dt = getDate dt.
Proof.
  unfold JSDateZone.getDate, getDate. rewrite LocalTime_utc. reflexivity.
Qed.

Lemma setDate_utc dt d : JSDateZone.setDate JSDateZone.utc dt d = setDate dt d.
Proof.
  unfold JSDateZone.setDate, setDate, getFullYear, getMonth.
  cbv zeta. rewrite UTC_utc, LocalTime_utc. reflexivity.
Qed.

Lemma setFullYear_utc dt y :
  JSDateZone.setFullYear JSDateZone.utc dt y = setFullYear dt y.
Proof.
  unfold JSDateZone.setFullYear, setFullYear, getMonth, getDate.
  cbv zeta. rewrite UTC_utc, LocalTime_utc. reflexivity.
Qed.

Lemma parseDate_fields (str : string) :
  D3TimeParse.parseDate str
  = match D3TimeParseZone.parseFields str with
    | Some (y, m, d) => Some (D3TimeParse.localDate y m d)
    | None => None
    end.
Proof.
  unfold D3TimeParse.parseDate, D3TimeParseZone.parseFields.
  destruct (D3TimeParse.parseNumber 2 _) as [[mo s1]|]; [|reflexivity].
  destruct (D3TimeParse.parseLiteral _ s1) as [s2|]; [|reflexivity].
  destruct (D3TimeParse.parseNumber 2 s2) as [[d s3]|]; [|reflexivity].
  destruct (D3TimeParse.parseLiteral _ s3) as [s4|]; [|reflexivity].
  destruct (D3TimeParse.parseNumber 4 s4) as [[y [|c r]]|]; reflexivity.
Qed.

Lemma localDate_utc y m d :
  D3TimeParseZone.localDate JSDateZone.utc y m d = D3TimeParse.localDate y m d.
Proof.
  unfold D3TimeParseZone.localDate, D3TimeParse.localDate.
  rewrite !create_utc, setFullYear_utc. reflexivity.
Qed.

Lemma parseDate_utc (str : string) :
  D3TimeParseZone.parseDate JSDateZone.utc str = D3TimeParse.parseDate str.
Proof.
  rewrite parseDate_fields. unfold D3TimeParseZone.parseDate.
  destruct (D3TimeParseZone.parseFields str) as [[[y m] d]|]; [|reflexivity].
  rewrite localDate_utc. reflexivity.
Qed.

Lemma normalize_utc (rows : list RawRow) :
  GamesPlayedZone.normalize JSDateZone.utc rows = normalize rows.
Proof.
  unfold GamesPlayedZone.normalize, normalize. apply map_ext. intros r.
  rewrite parseDate_utc. reflexivity.
Qed.

Lemma datesLoop_utc (fuel : nat) : forall dt mx,
  GamesPlayedZone.datesLoop JSDateZone.utc fuel dt mx
  = GamesPlayed.datesLoop fuel dt mx.
Proof.
  induction fuel as [|fuel IH]; intros dt mx; [reflexivity|].
  cbn [GamesPlayedZone.datesLoop GamesPlayed.datesLoop].
  rewrite setDate_utc, getDate_utc, IH. reflexivity.
Qed.

(** In the zone of constant offset the builder is that of [GamesPlayed]. *)
Lemma dailyCounts_utc (fuel : nat) (rawData : list Entry) :
  GamesPlayedZone.dailyCounts JSDateZone.utc fuel rawData
  = GamesPlayed.dailyCounts fuel rawData.
Proof.
  unfold GamesPlayedZone.dailyCounts, GamesPlayed.dailyCounts,
    GamesPlayedZone.dates, GamesPlayed.dates.
  destruct (GamesPlayed.extent rawData) as [[mn mx]|]; [|reflexivity].
  rewrite datesLoop_utc. reflexivity.
Qed.

End ZoneFacts.

(** ** Zones of constant offset *)

Module ConstantOffsetFacts.
Import JSDate.

(** The same local date and time, in the zone [c] milliseconds ahead of
    Greenwich. *)
Definition shift (c : Z) (dt : t) : t := mk (time dt - c).

Definition shiftEntry (c : Z) (e : Entry) : Entry :=
  mkEntry (option_map (shift c) (Date e)) (Person e) (Game e).

Section Constant.
Variables c s : Z.
Local Abbreviation z := (JSDateZone.mkZone c c s).

Lemma LocalTime_constant t : JSDateZone.LocalTime z t = t + c.
Proof.
  unfold JSDateZone.LocalTime, JSDateZone.offsetAt.
  cbn [JSDateZone.switch JSDateZone.before JSDateZone.after].
  destruct (t <? s); reflexivity.
Qed.

Lemma UTC_constant t : JSDateZone.UTC z t = t - c.
Proof.
  unfold JSDateZone.UTC, JSDateZone.offsetOfLocal.
  cbn [JSDateZone.switch JSDateZone.before JSDateZone.after].
  destruct (t <? s + Z.max c c); reflexivity.
Qed.

Lemma LocalTime_shift dt : JSDateZone.LocalTime z (time (shift c dt)) = time dt.
Proof. rewrite LocalTime_constant. unfold shift. cbn [time]. lia. Qed.

Lemma create_constant y m d :
  JSDateZone.create z y m d = shift c (create y m d).
Proof.
  unfold JSDateZone.create, create, shift. rewrite UTC_constant.
  reflexivity.
Qed.

Lemma getDate_constant dt : JSDateZone.getDate z (shift c dt) = getDate dt.
Proof. unfold JSDateZone.getDate. rewrite LocalTime_shift. reflexivity. Qed.

Lemma setDate_constant dt d :
  JSDateZone.setDate z (shift c dt) d = shift c (setDate dt d).
Proof.
  unfold JSDateZone.setDate. cbv zeta. rewrite UTC_constant, LocalTime_shift.
  unfold shift, setDate, getFullYear, getMonth. cbn [time]. reflexivity.
Qed.

Lemma setFullYear_constant dt y :
  JSDateZone.setFullYear z (shift c dt) y = shift c (setFullYear dt y).
Proof.
  unfold JSDateZone.setFullYear. cbv zeta.
  rewrite UTC_constant, LocalTime_shift.
  unfold shift, setFullYear, getMonth, getDate. cbn [time]. reflexivity.
Qed.

Lemma localDate_constant y m d :
  D3TimeParseZone.localDate z y m d = shift c (D3TimeParse.localDate y m d).
Proof.
  unfold D3TimeParseZone.localDate, D3TimeParse.localDate.
  rewrite !create_constant, setFullYear_constant.
  destruct ((0 <=? y) && (y <? 100)); reflexivity.
Qed.

Lemma parseDate_constant (str : string) :
  D3TimeParseZone.parseDate z str
  = option_map (shift c) (D3TimeParse.parseDate str).
Proof.
  rewrite ZoneFacts.parseDate_fields. unfold D3TimeParseZone.parseDate.
  destruct (D3TimeParseZone.parseFields str) as [[[y m] d]|]; [|reflexivity].
  rewrite localDate_constant. reflexivity.
Qed.

Lemma normalize_constant (rows : list RawRow) :
  GamesPlayedZone.normalize z rows = map (shiftEntry c) (normalize rows).
Proof.
  unfold GamesPlayedZone.normalize, normalize. rewrite map_map.
  apply map_ext. intros r. rewrite parseDate_constant. reflexivity.
Qed.

Definition shiftPair (p : t * t) : t * t := (shift c (fst p), shift c (snd p)).

Lemma extent_constant (l : list Entry) :
  GamesPlayed.extent (map (shiftEntry c) l)
  = option_map shiftPair (GamesPlayed.extent l).
Proof.
  unfold GamesPlayed.extent.
  change (@None (t * t)) with (option_map shiftPair None) at 1.
  generalize (@None (t * t)) as acc.
  induction l as [|e l IH]; intros acc; [reflexivity|].
  cbn [map fold_left]. rewrite <- IH. f_equal.
  unfold shiftEntry at 1. cbn [Date].
  destruct (Date e) as [v|]; [|reflexivity].
  destruct acc as [[mn mx]|]; [|reflexivity].
  cbn [option_map shiftPair fst snd]. unfold shift. cbn [time].
  replace (time v - c <? time mn - c) with (time v <? time mn)
    by (destruct (Z.ltb_spec (time v) (time mn)),
          (Z.ltb_spec (time v - c) (time mn - c)); try reflexivity; lia).
  replace (time mx - c <? time v - c) with (time mx <? time v)
    by (destruct (Z.ltb_spec (time mx) (time v)),
          (Z.ltb_spec (time mx - c) (time v - c)); try reflexivity; lia).
  destruct (time v <? time mn), (time mx <? time v); reflexivity.
Qed.

Definition shiftAll (r : result (list t)) : result (list t) :=
  ds <- r ;; Ok (map (shift c) ds).

Lemma datesLoop_constant (fuel : nat) : forall dt mx,
  GamesPlayedZone.datesLoop z fuel (shift c dt) (shift c mx)
  = shiftAll (GamesPlayed.datesLoop fuel dt mx).
Proof.
  induction fuel as [|fuel IH]; intros dt mx; [reflexivity|].
  cbn [GamesPlayedZone.datesLoop GamesPlayed.datesLoop].
  rewrite setDate_constant, getDate_constant, IH.
  replace (time (shift c dt) <=? time (shift c mx))
    with (time dt <=? time mx)
    by (unfold shift; cbn [time];
        destruct (Z.leb_spec (time dt) (time mx)),
          (Z.leb_spec (time dt - c) (time mx - c)); try reflexivity; lia).
  destruct (time dt <=? time mx); [|reflexivity].
  unfold shiftAll.
  destruct (GamesPlayed.datesLoop fuel _ mx); reflexivity.
Qed.

Lemma countAt_constant (k : Z) (l : list Entry) :
  GamesPlayed.countAt (k - c) (map (shiftEntry c) l) = GamesPlayed.countAt k l.
Proof.
  induction l as [|e l IH]; [reflexivity|].
  cbn [map GamesPlayed.countAt]. rewrite IH.
  unfold dateTime, shiftEntry. cbn [Date].
  destruct (Date e) as [v|]; [|reflexivity].
  cbn [option_map bind]. unfold getTime, shift. cbn [time].
  replace (time v - c =? k - c) with (time v =? k)
    by (destruct (Z.eqb_spec (time v) k),
          (Z.eqb_spec (time v - c) (k - c)); try reflexivity; lia).
  reflexivity.
Qed.

Definition shiftKeys (m : @JsMap.t Z Z) : @JsMap.t Z Z :=
  map (fun kv => (fst kv - c, snd kv)) m.

Lemma get_shiftKeys (m : @JsMap.t Z Z) (k : Z) :
  JsMap.get Z.eqb (shiftKeys m) (k - c) = JsMap.get Z.eqb m k.
Proof.
  induction m as [|[k' v] m IH]; [reflexivity|].
  cbn [shiftKeys map JsMap.get fst snd].
  replace (k' - c =? k - c) with (k' =? k)
    by (destruct (Z.eqb_spec k' k), (Z.eqb_spec (k' - c) (k - c));
        try reflexivity; lia).
  destruct (k' =? k); [reflexivity|]. exact IH.
Qed.

Lemma set_shiftKeys (m : @JsMap.t Z Z) (k v : Z) :
  JsMap.set Z.eqb (shiftKeys m) (k - c) v = shiftKeys (JsMap.set Z.eqb m k v).
Proof.
  induction m as [|[k' v'] m IH]; [reflexivity|].
  cbn [shiftKeys map JsMap.set fst snd].
  replace (k' - c =? k - c) with (k' =? k)
    by (destruct (Z.eqb_spec k' k), (Z.eqb_spec (k' - c) (k - c));
        try reflexivity; lia).
  destruct (k' =? k); cbn [map fst snd]; [reflexivity|].
  f_equal. exact IH.
Qed.

Lemma dateToDay_constant (ds : list t) :
  GamesPlayed.dateToDay (map (shift c) ds)
  = shiftKeys (GamesPlayed.dateToDay ds).
Proof.
  unfold GamesPlayed.dateToDay, JsMap.of_list.
  rewrite length_map.
  change (@nil (Z * Z)) with (shiftKeys []) at 1.
  generalize (@nil (Z * Z)) as m. generalize (seq 0 (length ds)) as ix.
  induction ds as [|d ds IH]; intros ix m.
  - destruct ix; reflexivity.
  - destruct ix as [|i ix]; [reflexivity|].
    cbn [map combine fold_left fst snd].
    change (getTime (shift c d)) with (getTime d - c).
    rewrite set_shiftKeys. apply IH.
Qed.

Lemma dailyCountsOf_constant (ds : list t) (l : list Entry) :
  GamesPlayed.dailyCountsOf (map (shift c) ds) (map (shiftEntry c) l)
  = GamesPlayed.dailyCountsOf ds l.
Proof.
  unfold GamesPlayed.dailyCountsOf. cbv zeta.
  rewrite dateToDay_constant.
  generalize (GamesPlayed.dateToDay ds) as index. intros index.
  induction ds as [|d ds IH]; [reflexivity|].
  cbn [map mapM]. rewrite IH.
  change (getTime (shift c d)) with (getTime d - c).
  rewrite countAt_constant, get_shiftKeys. reflexivity.
Qed.

(** In a zone whose offset never changes the builder gives the buckets
    of [GamesPlayed], whatever the offset. *)
Lemma dailyCounts_constant (fuel : nat) (rows : list RawRow) :
  GamesPlayedZone.dailyCounts z fuel (GamesPlayedZone.normalize z rows)
  = GamesPlayed.dailyCounts fuel (normalize rows).
Proof.
  unfold GamesPlayedZone.dailyCounts, GamesPlayed.dailyCounts,
    GamesPlayedZone.dates, GamesPlayed.dates.
  rewrite normalize_constant, extent_constant.
  destruct (GamesPlayed.extent (normalize rows)) as [[mn mx]|].
  - cbn [option_map shiftPair fst snd]. rewrite datesLoop_constant.
    unfold shiftAll.
    destruct (GamesPlayed.datesLoop fuel mn mx) as [ds| |]; try reflexivity.
    cbn [bind]. apply dailyCountsOf_constant.
  - cbn [option_map bind]. reflexivity.
Qed.

(** Hence the buckets cover the range there: for a non-empty batch of
    rows whose dates all parse ([validEntry] on the rows as read at
    offset zero), one bucket for each day from the minimum to the maximum
    date, numbered from 1, with counts that sum to the number of
    entries. *)
Lemma constant_offset_covers_range (rows : list RawRow) :
  normalize rows <> [] -> Forall validEntry (normalize rows) ->
  exists minDate maxDate,
    In (Some minDate) (map Date (normalize rows)) /\
    In (Some maxDate) (map Date (normalize rows)) /\
    forall fuel, (daySpan minDate maxDate < fuel)%nat ->
      exists buckets,
        GamesPlayedZone.dailyCounts z fuel (GamesPlayedZone.normalize z rows)
        = Ok buckets /\
        map GamesPlayed.day buckets
        = map (fun i => Some (Z.of_nat i + 1))
              (seq 0 (daySpan minDate maxDate)) /\
        sumCounts buckets = Z.of_nat (length rows).
Proof.
  intros Hne Hv.
  destruct (GamesPlayedSpec.day_buckets_cover_range _ Hne Hv)
    as (mn & mx & Imn & Imx & _ & Hrest).
  cbv zeta in Hrest. destruct Hrest as (_ & _ & _ & Hfuel).
  exists mn, mx. split; [exact Imn|]. split; [exact Imx|].
  intros fuel Hf. destruct (Hfuel fuel Hf) as (_ & buckets & Hb & Eb & Hs).
  exists buckets. rewrite dailyCounts_constant. split; [exact Hb|].
  split.
  - rewrite Eb, map_map. reflexivity.
  - rewrite Hs. unfold normalize. rewrite length_map. reflexivity.
Qed.

End Constant.
End ConstantOffsetFacts.

Module GamesPlayedZoneSpec.
Import JSDateZone GamesPlayed.

(** Four rows, one for each day from 8 to 11 March 2025. *)
Definition marchRows : list RawRow :=
  [ mkRow "3/8/2025" "A" "Chess"; mkRow "3/9/2025" "A" "Chess";
    mkRow "3/10/2025" "A" "Chess"; mkRow "3/11/2025" "A" "Chess" ]%string.

(** C1. The builder loses days and entries where the zone skips a local
    midnight.  In America/Havana the four rows of 8 to 11 March 2025 parse
    to four entries of those four days, that of 9 March at 1:00 because
    0:00 does not exist; [setDate] then keeps 1:00 on the following days,
    so the loop date of 10 March equals no entry and that of 11 March
    lies after the maximum: with any fuel above 3 the builder returns
    three buckets with counts 1, 1 and 0, which sum to 2, for a range of
    four days and four entries.  In a zone of constant offset the same
    rows give four buckets of one entry each. *)
Lemma lost_midnight_loses_buckets :
  length (GamesPlayedZone.normalize havana marchRows) = 4%nat /\
  map (fun e => option_map (fun dt => (getFullYear havana dt,
                                        getMonth havana dt,
                                        getDate havana dt,
                                        getHours havana dt)) (Date e))
      (GamesPlayedZone.normalize havana marchRows)
  = [ Some (2025, 2, 8, 0); Some (2025, 2, 9, 1);
      Some (2025, 2, 10, 0); Some (2025, 2, 11, 0) ] /\
  (forall fuel, (3 < fuel)%nat ->
     GamesPlayedZone.dailyCounts havana fuel
       (GamesPlayedZone.normalize havana marchRows)
     = Ok [mkDaily (Some 1) 1; mkDaily (Some 2) 1; mkDaily (Some 3) 0]) /\
  sumCounts [mkDaily (Some 1) 1; mkDaily (Some 2) 1; mkDaily (Some 3) 0]
  = 2 /\
  (forall fuel, (4 < fuel)%nat ->
     GamesPlayedZone.dailyCounts utc fuel
       (GamesPlayedZone.normalize utc marchRows)
     = Ok [mkDaily (Some 1) 1; mkDaily (Some 2) 1;
           mkDaily (Some 3) 1; mkDaily (Some 4) 1]).
Proof.
  split; [reflexivity|]. split; [vm_compute; reflexivity|].
  split; [|split; [reflexivity|]].
  - intros fuel Hf.
    destruct fuel as [|[|[|[|fuel]]]]; try lia.
    vm_compute. reflexivity.
  - intros fuel Hf.
    destruct fuel as [|[|[|[|[|fuel]]]]]; try lia.
    vm_compute. reflexivity.
Qed.

End GamesPlayedZoneSpec.

(** ** The row conversion *)

Module NormalizerFacts.
Import JSDate JSDateFacts D3TimeParse GamesPlayed GamesPlayedFacts.

Lemma create_midnight y m d : TimeWithinDay (time (create y m d)) = 0.
Proof.
  unfold create, TimeWithinDay, msPerDay. cbn [time]. apply Z.mod_mul. lia.
Qed.

Lemma localDate_midnight y m d : TimeWithinDay (time (localDate y m d)) = 0.
Proof.
  unfold localDate. destruct ((0 <=? y) && (y <? 100)).
  - unfold setFullYear. cbn [time]. rewrite create_midnight.
    unfold TimeWithinDay, msPerDay. rewrite Z.add_0_r. apply Z.mod_mul. lia.
  - apply create_midnight.
Qed.

(** The parser returns dates at midnight. *)
Lemma parseDate_midnight (str : string) (dt : JSDate.t) :
  parseDate str = Some dt -> TimeWithinDay (time dt) = 0.
Proof.
  unfold parseDate.
  destruct (parseNumber 2 _) as [[mo s1]|]; [|discriminate].
  destruct (parseLiteral _ s1) as [s2|]; [|discriminate].
  destruct (parseNumber 2 s2) as [[d s3]|]; [|discriminate].
  destruct (parseLiteral _ s3) as [s4|]; [|discriminate].
  destruct (parseNumber 4 s4) as [[y [|c r]]|]; try discriminate.
  intros H. inversion H; subst. apply localDate_midnight.
Qed.

(** Rows whose dates all parse give well-typed entries. *)
Lemma normalize_valid (rows : list RawRow) :
  Forall (fun r => parseDate (rowDate r) <> None) rows ->
  Forall validEntry (normalize rows).
Proof.
  unfold normalize. induction 1 as [|r l Hr _ IH]; cbn [map]; constructor.
  - destruct (parseDate (rowDate r)) as [dt|] eqn:E; [|congruence].
    exists dt. split; [reflexivity|]. eapply parseDate_midnight. exact E.
  - exact IH.
Qed.

(** *** What a null date does downstream *)

Definition nullDate (e : Entry) : Prop := Date e = None.

Lemma countAt_null t (rawData : list Entry) :
  Exists nullDate rawData -> countAt t rawData = TypeError.
Proof.
  induction 1 as [e l He|e l _ IH]; cbn [countAt]; unfold dateTime.
  - unfold nullDate in He. rewrite He. reflexivity.
  - destruct (Date e); [|reflexivity]. cbn [bind]. rewrite IH. reflexivity.
Qed.

Lemma extent_some (rawData : list Entry) :
  Exists hasDate rawData ->
  exists mn mx, extent rawData = Some (mn, mx) /\ time mn <= time mx.
Proof.
  unfold extent. fold extentStep.
  induction 1 as [e l He|e l _ IH]; cbn [fold_left].
  - unfold extentStep at 2. unfold hasDate in He.
    destruct (Date e) as [v|]; [|congruence].
    destruct (extent_fold l v v ltac:(lia))
      as (mn & mx & Hf & _ & _ & H1 & H2 & _).
    exists mn, mx. split; [exact Hf|lia].
  - unfold extentStep at 2. destruct (Date e) as [v|]; [|exact IH].
    destruct (extent_fold l v v ltac:(lia))
      as (mn & mx & Hf & _ & _ & H1 & H2 & _).
    exists mn, mx. split; [exact Hf|lia].
Qed.

(** The day buckets of a batch with a date that did not parse and one that
    did: once the date loop has fuel enough, the count of the first day
    throws. *)
Lemma dailyCounts_null (rawData : list Entry) :
  Exists nullDate rawData -> Exists hasDate rawData ->
  exists fuel0, forall fuel, (fuel0 <= fuel)%nat ->
    dailyCounts fuel rawData = TypeError.
Proof.
  intros Hnull Hdated.
  destruct (extent_some rawData Hdated) as (mn & mx & He & Hle).
  set (n := Z.to_nat ((time mx - time mn) / msPerDay + 1)).
  assert (Hq : 0 <= (time mx - time mn) / msPerDay)
    by (apply Z.div_pos; [lia|reflexivity]).
  exists (S n). intros fuel Hfuel. unfold dailyCounts, dates. rewrite He.
  rewrite (datesLoop_spec mx n fuel mn).
  - cbn [bind]. unfold dailyCountsOf.
    replace n with (S (Nat.pred n)) by (subst n; lia).
    cbn [seq map mapM]. rewrite countAt_null by exact Hnull. reflexivity.
  - lia.
  - subst n. unfold msPerDay in *.
    pose proof (Z.mod_pos_bound (time mx - time mn) 86400000 ltac:(lia)).
    pose proof (Z.div_mod (time mx - time mn) 86400000 ltac:(lia)). lia.
  - intros i Hi. subst n. unfold msPerDay in *.
    pose proof (Z.mod_pos_bound (time mx - time mn) 86400000 ltac:(lia)).
    pose proof (Z.div_mod (time mx - time mn) 86400000 ltac:(lia)). nia.
Qed.

End NormalizerFacts.

Module NormalizerSpec.
Import GamesPlayed.

Definition mixedRows : list RawRow :=
  [ mkRow "tomorrow" "A" "Chess"; mkRow "1/3/2025" "B" "Go" ]%string.

(** C3. A malformed row is not dropped and fails the batch.  The date
    'tomorrow' parses to [null]; the row conversion keeps the row, with
    the [null] stored as its date behind the non-null assertion, so the
    batch of two rows gives two entries; and on that batch the day
    buckets, the calendar and the leaderboard each throw a [TypeError]
    where they read the date.  Had the row been dropped, the one row left
    would have given one bucket of one entry. *)
Lemma malformed_row_fails_the_batch :
  D3TimeParse.parseDate "tomorrow" = None /\
  In (mkEntry None "A" "Chess") (normalize mixedRows) /\
  length (normalize mixedRows) = 2%nat /\
  (forall fuel, (1 < fuel)%nat ->
     dailyCounts fuel (normalize mixedRows) = TypeError) /\
  GamesCalendar.drawCalendar (normalize mixedRows) = TypeError /\
  Leaderboard.onMounted (normalize mixedRows) = TypeError /\
  dailyCounts 2 (normalize [mkRow "1/3/2025" "B" "Go"])
  = Ok [mkDaily (Some 1) 1].
Proof.
  split; [reflexivity|]. split; [left; reflexivity|].
  split; [reflexivity|]. split.
  - intros fuel Hf. destruct fuel as [|[|fuel]]; try lia.
    vm_compute. reflexivity.
  - split; [reflexivity|]. split; [reflexivity|].
    vm_compute. reflexivity.
Qed.

End NormalizerSpec.

(** ** The animated chart without data *)

Module GamesPlayedAnimatedSpec.
Import GamesPlayed GamesPlayedAnimated.

(** C9. When the loaded row set is empty the animated chart takes, whatever
    the fuel of the date loop (which is not run), thirty day buckets numbered
    1 to 30 with count 0, a cumulative series of thirty totals 0 on the same
    days, and 10 as the upper end of both vertical domains. *)
Theorem empty_rows_fallback (fuel : nat) (rawData : list Entry) :
  length rawData = 0%nat ->
  exists dc cu,
    series fuel rawData = Ok (dc, cu) /\
    map day dc = map (fun i => Some (Z.of_nat i + 1)) (seq 0 30) /\
    map count dc = repeat 0 30 /\
    map cday cu = map day dc /\
    map total cu = repeat 0 30 /\
    yBarDomain rawData dc = (0, Some 10) /\
    yLineDomain rawData cu = (0, Some 10).
Proof.
  intros H. apply length_zero_iff_nil in H. subst rawData.
  exists fallbackDaily, (fallbackCumulative fallbackDaily).
  repeat split; reflexivity.
Qed.

Lemma empty_rows_fallback_witness :
  length (loadRawData None) = 0%nat /\
  exists dc cu,
    series 0 (loadRawData None) = Ok (dc, cu) /\
    length dc = 30%nat /\ length cu = 30%nat.
Proof.
  assert (H : length (loadRawData None) = 0%nat) by reflexivity.
  split; [exact H|].
  destruct (empty_rows_fallback 0 (loadRawData None) H)
    as (dc & cu & H1 & H2 & _ & H3 & _).
  exists dc, cu. split; [exact H1|].
  assert (Hdc : length dc = 30%nat).
  { rewrite <- (length_map day), H2, length_map. apply length_seq. }
  split; [exact Hdc|].
  rewrite <- (length_map cday), H3, length_map. exact Hdc.
Defined.

End GamesPlayedAnimatedSpec.

(** ** Facts about [d3.max] and [d3.rollup] *)

Module D3ArrayFacts.

Lemma max_fold (xs : list Z) : forall m0,
  exists m, fold_left (fun acc x =>
               match acc with
               | None => Some x
               | Some m => Some (if m <? x then x else m)
               end) xs (Some m0) = Some m /\
            (m = m0 \/ In m xs) /\ m0 <= m /\ Forall (fun x => x <= m) xs.
Proof.
  induction xs as [|x xs IH]; intros m0; cbn [fold_left].
  - exists m0. repeat split; auto; lia.
  - destruct (IH (if m0 <? x then x else m0)) as (m & Hf & Hin & Hle & HF).
    exists m. split; [exact Hf|].
    destruct (Z.ltb_spec m0 x).
    + split; [destruct Hin as [->|]; [right; now left|right; now right]|].
      split; [lia|]. constructor; [lia|exact HF].
    + split; [destruct Hin as [->|]; [now left|right; now right]|].
      split; [lia|]. constructor; [lia|exact HF].
Qed.

Lemma max_spec (xs : list Z) :
  xs <> [] ->
  exists m, D3Array.max xs = Some m /\ In m xs /\ Forall (fun x => x <= m) xs.
Proof.
  destruct xs as [|x xs]; [congruence|]. intros _.
  unfold D3Array.max. cbn [fold_left].
  destruct (max_fold xs x) as (m & Hf & Hin & Hle & HF).
  exists m. split; [exact Hf|]. split.
  - destruct Hin as [->|]; [now left|now right].
  - constructor; [lia|exact HF].
Qed.

Section RollupFacts.
Context {A K : Type} (eqb : K -> K -> bool).
Hypothesis eqb_spec : forall a b, reflect (a = b) (eqb a b).
Variable key : A -> K.
Variable keyof : A -> result K.

Definition groupOf (k : K) (values : list A) : list A :=
  filter (fun v => eqb (key v) k) values.

Lemma groupLoop_spec (values : list A) :
  (forall v, In v values -> keyof v = Ok (key v)) ->
  forall groups, NoDup (JsMap.keys groups) ->
  exists G,
    D3Array.groupLoop eqb keyof values groups = Ok G /\
    NoDup (JsMap.keys G) /\
    forall k, JsMap.get eqb G k
              = match JsMap.get eqb groups k with
                | Some g => Some (g ++ groupOf k values)
                | None => match groupOf k values with
                          | [] => None
                          | f => Some f
                          end
                end.
Proof.
  induction values as [|v vs IH]; intros Hk groups ND; cbn [D3Array.groupLoop].
  - exists groups. split; [reflexivity|]. split; [exact ND|].
    intros k. cbn. destruct (JsMap.get eqb groups k); [|reflexivity].
    now rewrite app_nil_r.
  - rewrite (Hk v (or_introl eq_refl)). cbn [bind].
    set (groups' := match JsMap.get eqb groups (key v) with
                    | Some group => JsMap.set eqb groups (key v) (group ++ [v])
                    | None => JsMap.set eqb groups (key v) [v]
                    end).
    assert (ND' : NoDup (JsMap.keys groups')).
    { subst groups'. destruct (JsMap.get eqb groups (key v));
        now apply JsMapFacts.keys_set_nodup. }
    destruct (IH (fun x Hx => Hk x (or_intror Hx)) groups' ND')
      as (G & HG & NDG & Hget).
    exists G. split; [exact HG|]. split; [exact NDG|].
    intros k. rewrite Hget. unfold groupOf. cbn [filter].
    assert (Hg' : JsMap.get eqb groups' k
                  = if eqb (key v) k
                    then match JsMap.get eqb groups (key v) with
                         | Some g => Some (g ++ [v])
                         | None => Some [v]
                         end
                    else JsMap.get eqb groups k).
    { subst groups'. destruct (JsMap.get eqb groups (key v));
        now rewrite JsMapFacts.get_set. }
    rewrite Hg'. destruct (eqb_spec (key v) k) as [Ek|Hne].
    + rewrite <- Ek. destruct (JsMap.get eqb groups (key v)); cbn.
      * now rewrite <- app_assoc.
      * reflexivity.
    + reflexivity.
Qed.

End RollupFacts.

(** The per-time-value counts computed by the calendar. *)
Lemma rollup_counts (entries : list Entry) :
  Forall hasDate entries ->
  exists counts,
    D3Array.rollup Z.eqb (fun v => Z.of_nat (length v)) dateTime entries
      = Ok counts /\
    NoDup (JsMap.keys counts) /\
    forall t, JsMap.get Z.eqb counts t
              = if 0 <? countOn t entries then Some (countOn t entries)
                else None.
Proof.
  intros Hd.
  set (key := fun e : Entry =>
                match Date e with Some dt => JSDate.time dt | None => 0 end).
  assert (Hk : forall v, In v entries -> dateTime v = Ok (key v)).
  { rewrite Forall_forall in Hd. intros v Hv. specialize (Hd v Hv).
    unfold dateTime, key, hasDate in *.
    destruct (Date v); [reflexivity|congruence]. }
  destruct (groupLoop_spec Z.eqb Z.eqb_spec key dateTime entries Hk []
              (NoDup_nil _)) as (G & HG & ND & Hget).
  unfold D3Array.rollup. rewrite HG. cbn [bind]. eexists.
  split; [reflexivity|]. split.
  - unfold JsMap.keys in *. rewrite map_map. cbn [fst]. exact ND.
  - intros t.
    assert (Hmap : forall (m : @JsMap.t Z (list Entry)),
      JsMap.get Z.eqb
        (map (fun kv => (fst kv, Z.of_nat (length (snd kv)))) m) t
      = option_map (fun g => Z.of_nat (length g)) (JsMap.get Z.eqb m t)).
    { induction m as [|[k g] m IHm]; cbn; [reflexivity|].
      destruct (k =? t); [reflexivity|exact IHm]. }
    rewrite Hmap, Hget. cbn [JsMap.get].
    assert (Hc : countOn t entries
                 = Z.of_nat (length (groupOf Z.eqb key t entries))).
    { unfold countOn, groupOf. f_equal. f_equal.
      apply filter_ext_in. intros e He.
      rewrite Forall_forall in Hd. specialize (Hd e He).
      unfold key, hasDate in *. destruct (Date e); congruence. }
    rewrite Hc. destruct (groupOf Z.eqb key t entries) as [|x g]; cbn.
    + reflexivity.
    + destruct (Z.ltb_spec 0 (Z.pos (Pos.of_succ_nat (length g))));
        [reflexivity|lia].
Qed.

End D3ArrayFacts.

(** ** GamesCalendar.vue: the grid and its counts *)

Module GamesCalendarFacts.
Import JSDate JSDateFacts GamesCalendar.

Lemma In_daysUpTo n d : In d (daysUpTo n) <-> 1 <= d <= n.
Proof.
  unfold daysUpTo. rewrite in_map_iff. split.
  - intros (i & <- & Hi). apply in_seq in Hi. lia.
  - intros H. exists (Z.to_nat d). split; [lia|]. apply in_seq. lia.
Qed.


Lemma countOn_nonneg t entries : 0 <= countOn t entries.
Proof. unfold countOn. lia. Qed.

Lemma orElse_get_count (counts : @JsMap.t Z Z) t c :
  0 <= c ->
  JsMap.get Z.eqb counts t = (if 0 <? c then Some c else None) ->
  orElse (JsMap.get Z.eqb counts t) 0 = c.
Proof.
  intros Hc ->. unfold orElse. destruct (Z.ltb_spec 0 c); [|lia].
  destruct (Z.eqb_spec c 0); lia.
Qed.

Lemma cellOf_place y m sd counts day :
  0 <= sd -> 1 <= day ->
  let c := cellOf y m sd counts day in
  cellDay c = day /\
  row c = (sd + day - 1) / 7 /\
  col c = (sd + day - 1) mod 7 /\
  row c * 7 + col c = sd + day - 1.
Proof.
  intros Hs Hd. cbn. replace (sd + (day - 1)) with (sd + day - 1) by lia.
  rewrite Z.rem_mod_nonneg by lia.
  repeat split. pose proof (Z.div_mod (sd + day - 1) 7). lia.
Qed.

(** The layout computed from a non-empty list of dated entries. *)
Lemma drawCalendar_layout (e0 : Entry) (rest : list Entry) :
  Forall hasDate (e0 :: rest) ->
  exists first counts L,
    Date e0 = Some first /\
    (forall t, JsMap.get Z.eqb counts t
               = if 0 <? countOn t (e0 :: rest)
                 then Some (countOn t (e0 :: rest)) else None) /\
    NoDup (JsMap.keys counts) /\
    drawCalendar (e0 :: rest) = Ok (Some L) /\
    year L = getFullYear first /\
    month L = getMonth first /\
    daysInMonth L = getDate (create (year L) (month L + 1) 0) /\
    startDay L = getDay (create (year L) (month L) 1) /\
    rows L = ceilDiv (startDay L + daysInMonth L) 7 /\
    maxCount L = orElse (D3Array.max (JsMap.values counts)) 1 /\
    cells L = map (cellOf (year L) (month L) (startDay L) counts)
                  (daysUpTo (daysInMonth L)).
Proof.
  intros Hd. inversion Hd as [|? ? H0 _]; subst.
  destruct (Date e0) as [first|] eqn:E0; [|now unfold hasDate in H0].
  destruct (D3ArrayFacts.rollup_counts _ Hd) as (counts & HR & ND & Hget).
  exists first, counts. eexists.
  split; [reflexivity|]. split; [exact Hget|]. split; [exact ND|].
  split.
  { unfold drawCalendar. rewrite HR. cbn [bind]. rewrite E0. reflexivity. }
  cbn [year month daysInMonth startDay rows maxCount cells].
  repeat split; reflexivity.
Qed.

(** A null date makes the grouping, hence the whole drawing, throw. *)
Lemma drawCalendar_null (entries : list Entry) :
  Exists (fun e => Date e = None) entries ->
  drawCalendar entries = TypeError.
Proof.
  intros Hnull.
  assert (HG : forall groups,
            D3Array.groupLoop Z.eqb dateTime entries groups = TypeError).
  { induction Hnull as [e l He|e l _ IH]; intros groups;
      cbn [D3Array.groupLoop]; unfold dateTime.
    - rewrite He. reflexivity.
    - destruct (Date e); [|reflexivity]. cbn [bind]. apply IH. }
  destruct entries as [|e0 rest]; [inversion Hnull|].
  unfold drawCalendar, D3Array.rollup. rewrite HG. reflexivity.
Qed.

End GamesCalendarFacts.

Module GamesCalendarSpec.
Import JSDate JSDateFacts GamesCalendar GamesCalendarFacts.

Definition unsortedRows : list RawRow :=
  [ mkRow "2/1/2025" "A" "Chess"; mkRow "1/1/2025" "A" "Go" ]%string.

(** C4, as stated, fails: with a February row before a January row the grid
    shows February 2025, while the entry of least date is in January. *)
Lemma displayed_month_not_earliest :
  exists L earliest,
    drawCalendar (normalize unsortedRows) = Ok (Some L) /\
    In (Some earliest) (map Date (normalize unsortedRows)) /\
    Forall (fun e => forall dt, Date e = Some dt -> time earliest <= time dt)
           (normalize unsortedRows) /\
    (getFullYear earliest, getMonth earliest) = (2025, 0) /\
    (year L, month L) = (2025, 1).
Proof.
  eexists. exists (mk 1735689600000).
  split; [reflexivity|]. split; [right; now left|].
  split; [|split; reflexivity].
  repeat constructor; intros dt H; inversion H; subst; cbn; lia.
Qed.

(** C4, amended. For every non-empty set of dated entries the displayed
    month is the month (and year) of the first entry in sequence order; the
    length of the month, the weekday of its first day and the cells are
    computed from this year and month.  It is the month of the earliest
    entry whenever the first entry is not later than it. *)
Theorem displayed_month_is_first_entry (entries : list Entry) :
  entries <> [] -> Forall hasDate entries ->
  exists first L,
    hd_error (map Date entries) = Some (Some first) /\
    drawCalendar entries = Ok (Some L) /\
    year L = getFullYear first /\
    month L = getMonth first /\
    daysInMonth L = getDate (create (year L) (month L + 1) 0) /\
    startDay L = getDay (create (year L) (month L) 1) /\
    map cellDay (cells L) = daysUpTo (daysInMonth L) /\
    forall earliest,
      In (Some earliest) (map Date entries) ->
      Forall (fun e => forall dt, Date e = Some dt ->
                       time earliest <= time dt) entries ->
      time first <= time earliest ->
      year L = getFullYear earliest /\ month L = getMonth earliest.
Proof.
  intros Hne Hd. destruct entries as [|e0 rest]; [congruence|].
  destruct (drawCalendar_layout e0 rest Hd)
    as (first & counts & L & E0 & _ & _ & HL & Hy & Hm & Hdim & Hsd & _ & _
        & Hcells).
  exists first, L. split; [cbn [map hd_error]; rewrite E0; reflexivity|].
  split; [exact HL|].
  split; [exact Hy|]. split; [exact Hm|]. split; [exact Hdim|].
  split; [exact Hsd|]. split.
  { rewrite Hcells, map_map. cbn [cellOf cellDay]. apply map_id. }
  intros earliest HIn Hmin Hle.
  inversion Hmin as [|? ? H0 _]; subst. specialize (H0 first E0).
  assert (E : time first = time earliest) by lia.
  rewrite Hy, Hm. unfold getFullYear, getMonth. rewrite E.
  split; reflexivity.
Qed.

Lemma displayed_month_is_first_entry_witness :
  normalize unsortedRows <> [] /\
  Forall hasDate (normalize unsortedRows) /\
  exists first L,
    hd_error (map Date (normalize unsortedRows)) = Some (Some first) /\
    drawCalendar (normalize unsortedRows) = Ok (Some L) /\
    year L = getFullYear first /\ month L = getMonth first.
Proof.
  assert (Hne : normalize unsortedRows <> []) by discriminate.
  assert (Hd : Forall hasDate (normalize unsortedRows))
    by (repeat constructor; discriminate).
  split; [exact Hne|]. split; [exact Hd|].
  destruct (displayed_month_is_first_entry _ Hne Hd)
    as (first & L & H1 & H2 & H3 & H4 & _).
  exists first, L.
  split; [exact H1|]. split; [exact H2|]. split; [exact H3|exact H4].
Defined.



(** The count of a cell is the number of entries whose time value is that
    of the [Date] built for the cell. *)
Lemma cell_counts_by_time (entries : list Entry) :
  entries <> [] -> Forall hasDate entries ->
  exists L,
    drawCalendar entries = Ok (Some L) /\
    Forall (fun c => cnt c = countOn
                       (getTime (create (year L) (month L) (cellDay c)))
                       entries) (cells L) /\
    (forall e dt, In e entries -> Date e = Some dt ->
                  countOn (time dt) entries <= maxCount L) /\
    (exists e dt, In e entries /\ Date e = Some dt /\
                  countOn (time dt) entries = maxCount L).
Proof.
  intros Hne Hd. destruct entries as [|e0 rest]; [congruence|].
  destruct (drawCalendar_layout e0 rest Hd)
    as (first & counts & L & E0 & Hget & ND & HL & _ & _ & _ & _ & _ & Hmax
        & Hcells).
  exists L. split; [exact HL|]. split.
  { rewrite Hcells. apply Forall_forall. intros c Hc.
    apply in_map_iff in Hc. destruct Hc as (day & <- & _).
    cbn [cellOf cnt cellDay].
    apply orElse_get_count; [apply countOn_nonneg|apply Hget]. }
  set (entries := e0 :: rest) in *.
  assert (Hpos : forall e dt, In e entries -> Date e = Some dt ->
                 0 < countOn (time dt) entries).
  { intros e dt HIn Ed. unfold countOn.
    assert (In e (filter (fun e1 => match Date e1 with
                                    | Some dt1 => time dt1 =? time dt
                                    | None => false
                                    end) entries)).
    { apply filter_In. split; [exact HIn|]. rewrite Ed. apply Z.eqb_refl. }
    destruct (filter _ entries); [contradiction|cbn [length]; lia]. }
  assert (Hvals : forall e dt, In e entries -> Date e = Some dt ->
                  In (countOn (time dt) entries) (JsMap.values counts)).
  { intros e dt HIn Ed. unfold JsMap.values.
    apply in_map_iff. exists (time dt, countOn (time dt) entries).
    split; [reflexivity|].
    apply (JsMapFacts.get_In Z.eqb Z.eqb_spec). rewrite Hget.
    pose proof (Hpos e dt HIn Ed).
    destruct (Z.ltb_spec 0 (countOn (time dt) entries)); [reflexivity|lia]. }
  assert (Hv0 : JsMap.values counts <> []).
  { intros E. apply (in_nil (a := countOn (time first) entries)).
    rewrite <- E. apply (Hvals e0 first); [now left|exact E0]. }
  destruct (D3ArrayFacts.max_spec _ Hv0) as (m & Hm & Hin & Hall).
  assert (Hkey : exists e dt, In e entries /\ Date e = Some dt /\
                              countOn (time dt) entries = m).
  { unfold JsMap.values in Hin. apply in_map_iff in Hin.
    destruct Hin as ([t v] & Ev & HIn). cbn [snd] in Ev. subst v.
    apply (JsMapFacts.In_get Z.eqb Z.eqb_spec _ _ _ ND) in HIn.
    rewrite Hget in HIn.
    destruct (Z.ltb_spec 0 (countOn t entries)) as [Hp|]; [|discriminate].
    inversion HIn as [Em]. rewrite Em.
    unfold countOn in Hp.
    destruct (filter (fun e1 => match Date e1 with
                                | Some dt1 => time dt1 =? t
                                | None => false
                                end) entries) as [|e l] eqn:Ef;
      [cbn [length] in Hp; lia|].
    assert (He : In e (filter (fun e1 => match Date e1 with
                                | Some dt1 => time dt1 =? t
                                | None => false
                                end) entries)) by (rewrite Ef; now left).
    apply filter_In in He. destruct He as [HIne Ht].
    destruct (Date e) as [dt|] eqn:Ed; [|discriminate].
    apply Z.eqb_eq in Ht. exists e, dt.
    split; [exact HIne|]. split; [exact Ed|]. rewrite Ht. exact Em. }
  assert (Hmm : maxCount L = m).
  { rewrite Hmax, Hm. unfold orElse.
    destruct Hkey as (e & dt & HIn & Ed & Ec).
    pose proof (Hpos e dt HIn Ed).
    destruct (Z.eqb_spec m 0); [lia|reflexivity]. }
  rewrite Hmm. split; [|exact Hkey].
  intros e dt HIn Ed. rewrite Forall_forall in Hall.
  apply Hall. apply (Hvals e dt HIn Ed).
Qed.

(** A date at midnight is the [Date] built from a year, a month and a day
    of that month exactly when it shows this year, month and day, the year
    being read as the constructor reads it. *)
Lemma time_eq_create dt y m d :
  TimeWithinDay (time dt) = 0 ->
  0 <= m <= 11 ->
  1 <= d <= monthLength (InLeapYear (MakeFullYear y)) m ->
  (time dt = time (create y m d) <->
   getFullYear dt = MakeFullYear y /\ getMonth dt = m /\ getDate dt = d).
Proof.
  intros Ha Hm Hd.
  destruct (civil_create y m d Hm Hd) as (Cy & Cm & Cd).
  split.
  - intros E.
    assert (Edt : dt = create y m d).
    { destruct dt as [t0]. unfold create in *. cbn [time] in E.
      rewrite E. reflexivity. }
    rewrite Edt. split; [exact Cy|]. split; [exact Cm|exact Cd].
  - intros (Ey & Em & Edd).
    pose proof (MakeDay_getters dt) as Hg. rewrite Ey, Em, Edd in Hg.
    pose proof (GamesPlayedFacts.aligned_time _ Ha) as Ht.
    rewrite Ht, <- Hg. unfold create. cbn [time]. reflexivity.
Qed.

(** For entries at midnight, the time value of [new Date(y, m, d)] selects
    the entries of that calendar date. *)
Lemma countOn_create (entries : list Entry) y m d :
  Forall validEntry entries ->
  0 <= m <= 11 ->
  1 <= d <= monthLength (InLeapYear (MakeFullYear y)) m ->
  countOn (getTime (create y m d)) entries
  = countOnDate (MakeFullYear y) m d entries.
Proof.
  intros Hv Hm Hd. unfold countOn, countOnDate. do 2 f_equal.
  apply filter_ext_in. intros e He.
  rewrite Forall_forall in Hv. destruct (Hv e He) as (dt & Ed & Ha).
  rewrite Ed. unfold getTime.
  pose proof (time_eq_create dt y m d Ha Hm Hd) as [H1 H2].
  destruct (Z.eqb_spec (time dt) (time (create y m d))) as [E|Hne].
  - destruct (H1 E) as (Ey & Em & Edd). rewrite Ey, Em, Edd.
    rewrite !Z.eqb_refl. reflexivity.
  - destruct (Z.eqb_spec (getFullYear dt) (MakeFullYear y)) as [Ey|];
      [|reflexivity].
    destruct (Z.eqb_spec (getMonth dt) m) as [Em|]; [|reflexivity].
    destruct (Z.eqb_spec (getDate dt) d) as [Edd|]; [|reflexivity].
    exfalso. apply Hne. apply H2. split; [exact Ey|]. split; [exact Em|exact Edd].
Qed.

(** The counts of the cells in terms of calendar dates: a cell counts the
    entries of its day in the month and year that [new Date(year, month,
    day)] denotes. *)
Lemma cell_counts_by_date (entries : list Entry) :
  entries <> [] -> Forall validEntry entries ->
  exists L,
    drawCalendar entries = Ok (Some L) /\
    Forall (fun c => cnt c = countOnDate (MakeFullYear (year L)) (month L)
                                         (cellDay c) entries) (cells L).
Proof.
  intros Hne Hv.
  assert (Hd : Forall hasDate entries).
  { eapply Forall_impl; [|exact Hv]. intros e (dt & Ed & _).
    unfold hasDate. congruence. }
  destruct (cell_counts_by_time entries Hne Hd) as (L & HL & Hc & _).
  destruct entries as [|e0 rest]; [congruence|].
  destruct (drawCalendar_layout e0 rest Hd)
    as (first & counts & L' & _ & _ & _ & HL' & _ & Hm & Hdim & _ & _ & _
        & Hcells).
  assert (L' = L) by congruence. subst L'.
  exists L. split; [exact HL|].
  assert (Hmr : 0 <= month L <= 11) by (rewrite Hm; apply MonthFromDay_range).
  rewrite getDate_next_month_0 in Hdim by exact Hmr.
  rewrite Forall_forall in *. intros c HIn. rewrite (Hc c HIn).
  apply countOn_create; [apply Forall_forall; exact Hv|exact Hmr|].
  rewrite <- Hdim. apply In_daysUpTo.
  rewrite Hcells in HIn. apply in_map_iff in HIn.
  destruct HIn as (day & <- & Hday). exact Hday.
Qed.

Definition twoDigitYearRows : list RawRow :=
  [ mkRow "1/5/0025" "A" "Chess" ]%string.

(** C10 at an entry of the year 25: the displayed year is 25 and the month
    January, the grid has a cell for day 5, the entry is dated 5 January of
    the year 25, and the cell counts no entry. *)
Lemma two_digit_year_cell_count :
  Forall validEntry (normalize twoDigitYearRows) /\
  exists L c,
    drawCalendar (normalize twoDigitYearRows) = Ok (Some L) /\
    (year L, month L) = (25, 0) /\
    In c (cells L) /\ cellDay c = 5 /\
    countOnDate (year L) (month L) (cellDay c) (normalize twoDigitYearRows)
      = 1 /\
    cnt c = 0.
Proof.
  split.
  - repeat constructor. eexists. split; [reflexivity|].
    vm_compute. reflexivity.
  - eexists. exists (mkCell 5 1 1 0).
    split; [vm_compute; reflexivity|].
    split; [reflexivity|]. split; [vm_compute; tauto|].
    split; [reflexivity|]. split; vm_compute; reflexivity.
Qed.

End GamesCalendarSpec.

(** ** The leaderboard: days played *)

Module JsSetFacts.
Section WithElt.
Context {A : Type} (eqb : A -> A -> bool).
Hypothesis eqb_spec : forall a b, reflect (a = b) (eqb a b).

Lemma has_In (s : @JsSet.t A) x : JsSet.has eqb s x = true <-> In x s.
Proof.
  unfold JsSet.has. rewrite existsb_exists. split.
  - intros (y & Hy & E). destruct (eqb_spec x y); [now subst|discriminate].
  - intros H. exists x. split; [exact H|].
    destruct (eqb_spec x x); [reflexivity|congruence].
Qed.

Lemma In_add (s : @JsSet.t A) x y :
  In y (JsSet.add eqb s x) <-> In y s \/ y = x.
Proof.
  unfold JsSet.add. destruct (JsSet.has eqb s x) eqn:H.
  - apply has_In in H. split; [now left|]. intros [Hy | ->]; assumption.
  - rewrite in_app_iff. cbn. intuition congruence.
Qed.

Lemma NoDup_add (s : @JsSet.t A) x : NoDup s -> NoDup (JsSet.add eqb s x).
Proof.
  intros ND. unfold JsSet.add. destruct (JsSet.has eqb s x) eqn:H;
    [exact ND|].
  apply NoDup_app; [exact ND|repeat constructor; intros []|].
  intros a Ha [<- | []]. apply has_In in Ha. congruence.
Qed.

Lemma addAll_spec (xs : list A) : forall s,
  NoDup s ->
  NoDup (fold_left (JsSet.add eqb) xs s) /\
  (forall y, In y (fold_left (JsSet.add eqb) xs s) <-> In y s \/ In y xs) /\
  exists tail, fold_left (JsSet.add eqb) xs s = s ++ tail.
Proof.
  induction xs as [|x xs IH]; intros s ND; cbn [fold_left].
  - split; [exact ND|]. split; [intros y; cbn; tauto|].
    exists []. now rewrite app_nil_r.
  - destruct (IH (JsSet.add eqb s x) (NoDup_add s x ND))
      as (ND' & HIn & tail & Ht).
    split; [exact ND'|]. split.
    + intros y. rewrite HIn, In_add. cbn. intuition congruence.
    + rewrite Ht. unfold JsSet.add. destruct (JsSet.has eqb s x).
      * now exists tail.
      * exists (x :: tail). now rewrite <- app_assoc.
Qed.

Lemma of_list_spec (xs : list A) :
  NoDup (JsSet.of_list eqb xs) /\
  forall y, In y (JsSet.of_list eqb xs) <-> In y xs.
Proof.
  destruct (addAll_spec xs [] (NoDup_nil _)) as (ND & HIn & _).
  split; [exact ND|]. intros y. unfold JsSet.of_list. rewrite HIn.
  cbn. tauto.
Qed.

Lemma addAll_nodup (xs : list A) : forall s,
  NoDup (s ++ xs) -> fold_left (JsSet.add eqb) xs s = s ++ xs.
Proof.
  induction xs as [|x xs IH]; intros s ND; cbn [fold_left].
  - now rewrite app_nil_r.
  - assert (Hx : JsSet.has eqb s x = false).
    { destruct (JsSet.has eqb s x) eqn:H; [|reflexivity].
      apply has_In in H. apply NoDup_remove_2 in ND.
      exfalso. apply ND. apply in_or_app. now left. }
    unfold JsSet.add. rewrite Hx. rewrite IH.
    + now rewrite <- app_assoc.
    + now rewrite <- app_assoc.
Qed.

Lemma of_list_nodup (xs : list A) :
  NoDup xs -> JsSet.of_list eqb xs = xs.
Proof. intros ND. apply (addAll_nodup xs [] ND). Qed.

(** First-insertion order: an element not seen before comes right after
    the elements seen before it. *)
Lemma of_list_first_seen (pre post : list A) x :
  ~ In x pre ->
  exists tail,
    JsSet.of_list eqb (pre ++ x :: post)
    = JsSet.of_list eqb pre ++ x :: tail.
Proof.
  intros Hx. unfold JsSet.of_list. rewrite fold_left_app. cbn [fold_left].
  destruct (of_list_spec pre) as (ND & HIn).
  fold (JsSet.of_list eqb pre).
  assert (Hadd : JsSet.add eqb (JsSet.of_list eqb pre) x
                 = JsSet.of_list eqb pre ++ [x]).
  { unfold JsSet.add. destruct (JsSet.has eqb (JsSet.of_list eqb pre) x)
      eqn:H; [|reflexivity].
    apply has_In in H. apply HIn in H. contradiction. }
  rewrite Hadd.
  destruct (addAll_spec post (JsSet.of_list eqb pre ++ [x]))
    as (_ & _ & tail & Ht).
  { rewrite <- Hadd. now apply NoDup_add. }
  exists tail. rewrite Ht, <- app_assoc. reflexivity.
Qed.

End WithElt.
End JsSetFacts.

Module LeaderboardFacts.
Import JSDate JSDateFacts Leaderboard.

Lemma dateStringEqb_spec (a b : DateString) :
  reflect (a = b) (dateStringEqb a b).
Proof.
  destruct a as [[[w1 m1] d1] y1], b as [[[w2 m2] d2] y2].
  unfold dateStringEqb.
  destruct (Z.eqb_spec w1 w2); [|constructor; congruence].
  destruct (Z.eqb_spec m1 m2); [|constructor; congruence].
  destruct (Z.eqb_spec d1 d2); [|constructor; congruence].
  destruct (Z.eqb_spec y1 y2); constructor; congruence.
Qed.

(** The day number that a date string denotes. *)
Definition dayOfString (s : DateString) : Z :=
  let '(_, m, d, y) := s in MakeDay y m d.

Lemma dayOfString_toDateString dt :
  dayOfString (toDateString dt) = Day (time dt).
Proof. unfold dayOfString, toDateString. apply MakeDay_getters. Qed.

Lemma toDateString_Day d1 d2 :
  Day (time d1) = Day (time d2) -> toDateString d1 = toDateString d2.
Proof.
  intros E. unfold toDateString, getDay, getMonth, getDate, getFullYear.
  rewrite E. reflexivity.
Qed.

(** The date strings of the dated entries of [p], in order. *)
Definition keysOf (p : string) (entries : list Entry) : list DateString :=
  flat_map (fun e =>
              if String.eqb (Person e) p
              then match Date e with
                   | Some dt => [toDateString dt]
                   | None => []
                   end
              else []) entries.

Lemma daysOf_keysOf p entries :
  daysOf p entries = map dayOfString (keysOf p entries).
Proof.
  unfold daysOf, keysOf. induction entries as [|e l IH]; [reflexivity|].
  cbn [flat_map]. rewrite map_app, IH. f_equal.
  destruct (String.eqb (Person e) p); [|reflexivity].
  destruct (Date e); [|reflexivity].
  cbn [map]. now rewrite dayOfString_toDateString.
Qed.

Lemma keysOf_images p entries k :
  In k (keysOf p entries) -> exists dt, k = toDateString dt.
Proof.
  unfold keysOf. rewrite in_flat_map. intros (e & _ & H).
  destruct (String.eqb (Person e) p); [|contradiction].
  destruct (Date e) as [dt|]; [|contradiction].
  destruct H as [<- | []]. now exists dt.
Qed.

(** The size of the set of date strings is the number of distinct days. *)
Lemma size_distinct p entries :
  JsSet.size (fold_left (JsSet.add dateStringEqb) (keysOf p entries) [])
  = distinctDays p entries.
Proof.
  unfold JsSet.size, distinctDays. f_equal.
  destruct (JsSetFacts.addAll_spec dateStringEqb dateStringEqb_spec
              (keysOf p entries) [] (NoDup_nil _)) as (ND & HIn & _).
  set (S := fold_left (JsSet.add dateStringEqb) (keysOf p entries) []) in *.
  rewrite <- (length_map dayOfString S).
  apply Permutation_length, NoDup_Permutation.
  - apply NoDup_map_NoDup_ForallPairs; [|exact ND].
    intros a b Ha Hb E.
    apply HIn in Ha. apply HIn in Hb.
    destruct Ha as [[]|Ha]. destruct Hb as [[]|Hb].
    destruct (keysOf_images _ _ _ Ha) as [da Ea].
    destruct (keysOf_images _ _ _ Hb) as [db Eb]. subst a b.
    rewrite !dayOfString_toDateString in E. now apply toDateString_Day.
  - apply NoDup_nodup.
  - intros x. rewrite nodup_In, daysOf_keysOf, !in_map_iff.
    split; intros (k & Ek & Hk); exists k; (split; [exact Ek|]);
      apply HIn in Hk || apply HIn; cbn in *; tauto.
Qed.

Lemma keysOf_cons p e l :
  keysOf p (e :: l)
  = (if String.eqb (Person e) p
     then match Date e with Some dt => [toDateString dt] | None => [] end
     else []) ++ keysOf p l.
Proof. reflexivity. Qed.

(** The map of date-string sets after the [reduce]. *)
Lemma reduceDays_spec (entries : list Entry) :
  Forall hasDate entries ->
  forall m, exists M,
    reduceDays entries m = Ok M /\
    forall p, JsMap.get String.eqb M p
      = match JsMap.get String.eqb m p with
        | Some days =>
            Some (fold_left (JsSet.add dateStringEqb) (keysOf p entries) days)
        | None =>
            if existsb (fun e => String.eqb (Person e) p) entries
            then Some (fold_left (JsSet.add dateStringEqb)
                                 (keysOf p entries) [])
            else None
        end.
Proof.
  induction 1 as [|e l He _ IH]; intros m; cbn [reduceDays].
  - exists m. split; [reflexivity|]. intros p. cbn.
    destruct (JsMap.get String.eqb m p); reflexivity.
  - unfold daysStep. destruct (Date e) as [d|] eqn:Ed;
      [|now unfold hasDate in He].
    set (k := Person e).
    set (map1 := if JsMap.has String.eqb m k then m
                 else JsMap.set String.eqb m k []).
    assert (H1 : forall p, JsMap.get String.eqb map1 p
                 = if String.eqb k p
                   then match JsMap.get String.eqb m k with
                        | Some days => Some days
                        | None => Some []
                        end
                   else JsMap.get String.eqb m p).
    { intros p. subst map1. unfold JsMap.has.
      destruct (JsMap.get String.eqb m k) as [days|] eqn:Ek.
      - destruct (String.eqb_spec k p) as [<-|]; [exact Ek|reflexivity].
      - rewrite (JsMapFacts.get_set String.eqb String.eqb_spec).
        reflexivity. }
    rewrite (H1 k), String.eqb_refl.
    set (s0 := match JsMap.get String.eqb m k with
               | Some days => days
               | None => []
               end).
    assert (E0 : match JsMap.get String.eqb m k with
                 | Some days => Some days
                 | None => Some []
                 end = Some s0).
    { subst s0. destruct (JsMap.get String.eqb m k); reflexivity. }
    rewrite E0. cbn [bind].
    destruct (IH (JsMap.set String.eqb map1 k
                    (JsSet.add dateStringEqb s0 (toDateString d))))
      as (M & HM & Hget).
    exists M. split; [exact HM|]. intros p. rewrite Hget.
    rewrite (JsMapFacts.get_set String.eqb String.eqb_spec), H1.
    rewrite keysOf_cons. cbn [existsb]. fold k. rewrite Ed.
    destruct (String.eqb_spec k p) as [Ekp|Hne].
    + rewrite <- Ekp. cbn [orb app fold_left]. subst s0.
      destruct (JsMap.get String.eqb m k); reflexivity.
    + cbn [orb app]. reflexivity.
Qed.

Lemma players_spec (entries : list Entry) :
  NoDup (players entries) /\
  forall p, In p (players entries) <-> In p (map Person entries).
Proof. apply (JsSetFacts.of_list_spec String.eqb String.eqb_spec). Qed.

Lemma daysPlayed_spec (entries : list Entry) :
  Forall hasDate entries ->
  daysPlayed entries
  = Ok (map (fun p => mkBar p (distinctDays p entries)) (players entries)).
Proof.
  intros Hd. unfold daysPlayed, daysSet.
  destruct (reduceDays_spec entries Hd []) as (M & HM & Hget).
  rewrite HM. cbn [bind]. apply mapM_Ok. intros p Hp.
  rewrite Hget. cbn [JsMap.get].
  apply players_spec in Hp. apply in_map_iff in Hp.
  destruct Hp as (e & Ee & HIn).
  assert (Hex : existsb (fun e => String.eqb (Person e) p) entries = true).
  { apply existsb_exists. exists e. split; [exact HIn|].
    rewrite Ee. apply String.eqb_refl. }
  rewrite Hex, size_distinct. reflexivity.
Qed.

(** A null date makes the [reduce], hence the whole ranking, throw. *)
Lemma onMounted_null (entries : list Entry) :
  Exists (fun e => Date e = None) entries ->
  onMounted entries = TypeError.
Proof.
  intros Hnull.
  assert (HR : forall m, reduceDays entries m = TypeError).
  { induction Hnull as [e l He|e l _ IH]; intros m; cbn [reduceDays].
    - unfold daysStep. rewrite He. reflexivity.
    - destruct (daysStep m e) as [m'| |] eqn:E; cbn [bind];
        [apply IH|reflexivity|].
      unfold daysStep in E. destruct (Date e); [|discriminate].
      destruct (JsMap.get String.eqb _ (Person e)); discriminate. }
  destruct entries as [|e0 rest]; [inversion Hnull|].
  unfold onMounted, daysPlayed, daysSet. cbn [length Nat.eqb].
  rewrite HR. reflexivity.
Qed.

(** *** The stable sort by descending value *)

Lemma insert_perm (x : Bar) (l : list Bar) :
  Permutation (insert byValueDesc x l) (x :: l).
Proof.
  induction l as [|y l IH]; cbn [insert]; [reflexivity|].
  destruct (byValueDesc x y <=? 0); [reflexivity|].
  rewrite IH. apply perm_swap.
Qed.

Lemma sort_perm (l : list Bar) : Permutation (sort byValueDesc l) l.
Proof.
  induction l as [|x l IH]; cbn [sort fold_right]; [reflexivity|].
  fold (sort byValueDesc l). rewrite insert_perm. now constructor.
Qed.

Lemma insert_sorted (x : Bar) (l : list Bar) :
  StronglySorted (fun a b => value b <= value a) l ->
  StronglySorted (fun a b => value b <= value a) (insert byValueDesc x l).
Proof.
  induction 1 as [|y l Hs IH Hy]; cbn [insert].
  - repeat constructor.
  - unfold byValueDesc at 1. destruct (Z.leb_spec (value y - value x) 0).
    + constructor; [now constructor|].
      constructor; [lia|]. eapply Forall_impl; [|exact Hy].
      cbn. intros; lia.
    + constructor; [exact IH|].
      apply (Permutation_Forall (Permutation_sym (insert_perm x l))).
      constructor; [lia|exact Hy].
Qed.

Lemma sort_sorted (l : list Bar) :
  StronglySorted (fun a b => value b <= value a) (sort byValueDesc l).
Proof.
  induction l as [|x l IH]; cbn [sort fold_right]; [constructor|].
  apply insert_sorted. exact IH.
Qed.

(** Stability: among the bars of one value the order is unchanged. *)
Lemma insert_filter (v : Z) (x : Bar) (l : list Bar) :
  filter (fun b => value b =? v) (insert byValueDesc x l)
  = filter (fun b => value b =? v) (x :: l).
Proof.
  induction l as [|y l IH]; cbn [insert]; [reflexivity|].
  unfold byValueDesc at 1. destruct (Z.leb_spec (value y - value x) 0).
  - reflexivity.
  - cbn [filter] in *. rewrite IH.
    destruct (Z.eqb_spec (value x) v); [|reflexivity].
    destruct (Z.eqb_spec (value y) v); [lia|reflexivity].
Qed.

Lemma sort_stable (v : Z) (l : list Bar) :
  filter (fun b => value b =? v) (sort byValueDesc l)
  = filter (fun b => value b =? v) l.
Proof.
  induction l as [|x l IH]; cbn [sort fold_right]; [reflexivity|].
  fold (sort byValueDesc l). rewrite insert_filter. cbn [filter].
  now rewrite IH.
Qed.

End LeaderboardFacts.

Module LeaderboardSpec.
Import JSDate Leaderboard LeaderboardFacts.

(** C8. For every non-empty set of dated entries the days-played list has
    one bar per participant, whose value is the number of distinct calendar
    days on which the participant has an entry; it is sorted by descending
    value, and among bars of equal value the participants keep the order in
    which they were first seen in the entries. *)
Theorem days_played_ranking (entries : list Entry) :
  entries <> [] -> Forall hasDate entries ->
  exists total ranked,
    onMounted entries = Ok (Some (total, ranked)) /\
    (* one bar per participant, valued by distinct days *)
    Permutation ranked
      (map (fun p => mkBar p (distinctDays p entries)) (players entries)) /\
    NoDup (map player ranked) /\
    (forall p, In p (map player ranked) <-> In p (map Person entries)) /\
    Forall (fun b => value b = distinctDays (player b) entries) ranked /\
    (* descending by value *)
    StronglySorted (fun a b => value b <= value a) ranked /\
    (* ties in first-seen order *)
    (forall v, map player (filter (fun b => value b =? v) ranked)
               = filter (fun p => distinctDays p entries =? v)
                        (players entries)) /\
    (forall pre e post,
        entries = pre ++ e :: post ->
        ~ In (Person e) (map Person pre) ->
        exists tail, players entries = players pre ++ Person e :: tail).
Proof.
  intros Hne Hd.
  set (bars := map (fun p => mkBar p (distinctDays p entries))
                   (players entries)).
  exists (sort byValueDesc (totals entries)), (sort byValueDesc bars).
  destruct (players_spec entries) as (NDp & HInp).
  assert (Hperm : Permutation (sort byValueDesc bars) bars)
    by apply sort_perm.
  assert (Hplayers : map player bars = players entries).
  { subst bars. rewrite map_map. cbn [player]. apply map_id. }
  split.
  { unfold onMounted. destruct entries as [|e l]; [congruence|].
    cbn [length Nat.eqb]. rewrite daysPlayed_spec by exact Hd.
    reflexivity. }
  split; [exact Hperm|].
  split.
  { apply (Permutation_NoDup (l := map player bars)).
    - apply Permutation_map, Permutation_sym, Hperm.
    - rewrite Hplayers. exact NDp. }
  split.
  { intros p. rewrite <- HInp, <- Hplayers. split; apply Permutation_in.
    - apply Permutation_map, Hperm.
    - apply Permutation_map, Permutation_sym, Hperm. }
  split.
  { apply (Permutation_Forall (Permutation_sym Hperm)).
    subst bars. apply Forall_forall. intros b Hb.
    apply in_map_iff in Hb. destruct Hb as (p & <- & _). reflexivity. }
  split; [apply sort_sorted|].
  split.
  { intros v. rewrite sort_stable. subst bars.
    clear. induction (players entries) as [|p l IH]; [reflexivity|].
    cbn [map filter value]. destruct (distinctDays p entries =? v);
      cbn [map player]; now rewrite IH. }
  intros pre e post -> Hnew. unfold players. rewrite map_app. cbn [map].
  apply (JsSetFacts.of_list_first_seen String.eqb String.eqb_spec).
  exact Hnew.
Qed.

Definition tieRows : list RawRow :=
  [ mkRow "1/1/2025" "B" "Chess"; mkRow "1/1/2025" "A" "Chess";
    mkRow "1/2/2025" "C" "Go"; mkRow "1/3/2025" "C" "Go";
    mkRow "1/1/2025" "B" "Go" ]%string.

Lemma days_played_ranking_witness :
  normalize tieRows <> [] /\
  Forall hasDate (normalize tieRows) /\
  exists total ranked,
    onMounted (normalize tieRows) = Ok (Some (total, ranked)) /\
    StronglySorted (fun a b => value b <= value a) ranked.
Proof.
  assert (Hne : normalize tieRows <> []) by discriminate.
  assert (Hd : Forall hasDate (normalize tieRows))
    by (repeat constructor; discriminate).
  split; [exact Hne|]. split; [exact Hd|].
  destruct (days_played_ranking _ Hne Hd)
    as (total & ranked & H1 & _ & _ & _ & _ & H2 & _).
  exists total, ranked. split; [exact H1|exact H2].
Defined.

Example tie_ranking :
  onMounted (normalize tieRows)
  = Ok (Some ([mkBar "B" 2; mkBar "C" 2; mkBar "A" 1],
              [mkBar "C" 2; mkBar "B" 1; mkBar "A" 1]))%string.
Proof. vm_compute. reflexivity. Qed.

End LeaderboardSpec.

(** ** GamesBreakdown.vue: the angles of the pie *)

Module GamesBreakdownFacts.
Import GamesBreakdown.

Lemma tau_pos : (0 < tau)%R.
Proof. unfold tau. pose proof PI_RGT_0. lra. Qed.

Lemma total_fold (data : list Datum) : forall acc,
  fold_left (fun acc d => acc + value d) data acc
  = acc + fold_right Z.add 0 (map value data).
Proof.
  induction data as [|d l IH]; intros acc; cbn [fold_left map fold_right].
  - lia.
  - rewrite IH. lia.
Qed.

Lemma total_prefix (data : list Datum) :
  total data = prefixValue (length data) data.
Proof.
  unfold total, prefixValue. rewrite total_fold, firstn_all. lia.
Qed.

Lemma positiveSum_fold (data : list Datum) :
  Forall (fun d => 0 < value d) data ->
  forall acc,
    fold_left (fun sum d => if 0 <? value d then sum + value d else sum)
              data acc
    = fold_left (fun acc d => acc + value d) data acc.
Proof.
  induction 1 as [|d l Hd _ IH]; intros acc; cbn [fold_left].
  - reflexivity.
  - destruct (Z.ltb_spec 0 (value d)); [|lia]. apply IH.
Qed.

Lemma positiveSum_total (data : list Datum) :
  Forall (fun d => 0 < value d) data -> positiveSum data = total data.
Proof. intros H. apply (positiveSum_fold data H 0). Qed.

Lemma total_positive (data : list Datum) :
  data <> [] -> Forall (fun d => 0 < value d) data -> 0 < total data.
Proof.
  intros Hne H. unfold total. rewrite total_fold.
  destruct data as [|d l]; [congruence|].
  inversion H as [|? ? Hd Hl]; subst. cbn [map fold_right].
  assert (0 <= fold_right Z.add 0 (map value l)).
  { clear -Hl. induction Hl; cbn [map fold_right]; lia. }
  lia.
Qed.

(** With the default angles the pad is null and the factor is a full turn
    over the sum of the values. *)
Lemma pie_eq (data : list Datum) :
  data <> [] -> Forall (fun d => 0 < value d) data ->
  pie data = arcsLoop (tau / IZR (total data)) 0 0 0 0 data.
Proof.
  intros Hne Hpos. unfold pie.
  pose proof tau_pos as Ht.
  assert (Hda : Rmin tau (Rmax (- tau) (tau - 0)) = tau).
  { rewrite Rmax_right by lra. rewrite Rmin_left by lra. reflexivity. }
  rewrite Hda.
  assert (Hn : (0 < INR (length data))%R).
  { apply lt_0_INR. destruct data; [congruence|cbn [length]; lia]. }
  assert (Hp : Rmin (Rabs tau / INR (length data)) 0 = 0%R).
  { apply Rmin_right. rewrite Rabs_right by lra.
    apply Rlt_le, Rdiv_lt_0_compat; assumption. }
  rewrite Hp. destruct (Rlt_dec tau 0) as [Hlt|_]; [lra|].
  rewrite positiveSum_total by exact Hpos.
  pose proof (total_positive data Hne Hpos) as Hpos'.
  destruct (Z.eqb_spec (total data) 0) as [E|_]; [lia|].
  replace (0 * 1)%R with 0%R by ring.
  replace (tau - INR (length data) * 0)%R with tau by ring.
  reflexivity.
Qed.

Lemma prefixValue_S d l j :
  prefixValue (S j) (d :: l) = value d + prefixValue j l.
Proof. reflexivity. Qed.

Lemma arcsLoop_spec (k : R) (data : list Datum) :
  Forall (fun d => 0 < value d) data ->
  forall a0 i,
    let arcs := arcsLoop k 0 0 a0 i data in
    map GamesBreakdown.data arcs = data /\
    map index arcs = seq i (length data) /\
    map startAngle arcs
      = map (fun j => (a0 + k * IZR (prefixValue j data))%R)
            (seq 0 (length data)) /\
    map endAngle arcs
      = map (fun j => (a0 + k * IZR (prefixValue (S j) data))%R)
            (seq 0 (length data)).
Proof.
  induction 1 as [|d l Hd _ IH]; intros a0 i; cbn zeta.
  - repeat split; reflexivity.
  - cbn [arcsLoop map length seq].
    destruct (Z.ltb_spec 0 (value d)); [|lia].
    destruct (IH (a0 + IZR (value d) * k + 0)%R (S i))
      as (H1 & H2 & H3 & H4).
    cbn [GamesBreakdown.data index startAngle endAngle].
    rewrite H1, H2, H3, H4.
    split; [reflexivity|]. split; [reflexivity|]. split.
    + f_equal.
      * unfold prefixValue. cbn. ring.
      * rewrite <- seq_shift, map_map. apply map_ext. intros j.
        rewrite prefixValue_S, plus_IZR. ring.
    + f_equal.
      * unfold prefixValue. cbn [firstn map fold_right].
        rewrite Z.add_0_r. ring.
      * rewrite <- seq_shift, map_map. apply map_ext. intros j.
        rewrite (prefixValue_S d l (S j)), plus_IZR. ring.
Qed.

Lemma arcsLoop_contiguous (k pa p : R) (data : list Datum) :
  forall a0 i j a b,
    nth_error (arcsLoop k pa p a0 i data) j = Some a ->
    nth_error (arcsLoop k pa p a0 i data) (S j) = Some b ->
    startAngle b = endAngle a.
Proof.
  induction data as [|d l IH]; intros a0 i j a b Ha Hb.
  - destruct j; discriminate.
  - cbn [arcsLoop] in *. destruct j as [|j].
    + cbn [nth_error] in *. inversion Ha; subst. cbn [endAngle].
      destruct l as [|d' l']; [discriminate|].
      cbn [arcsLoop] in Hb. inversion Hb; subst. reflexivity.
    + cbn [nth_error] in Ha, Hb. eapply IH; eassumption.
Qed.

Lemma arcsLoop_span (k : R) (data : list Datum) :
  Forall (fun d => 0 < value d) data ->
  forall a0 i,
    map (fun a => (endAngle a - startAngle a)%R) (arcsLoop k 0 0 a0 i data)
    = map (fun d => (IZR (value d) * k)%R) data.
Proof.
  induction 1 as [|d l Hd _ IH]; intros a0 i; [reflexivity|].
  cbn [arcsLoop map startAngle endAngle].
  destruct (Z.ltb_spec 0 (value d)); [|lia].
  rewrite IH. f_equal. ring.
Qed.

(** The counts per game of a non-empty array: at least one, all positive. *)
Lemma aggregate_positive (dataArray : list RawRow) :
  dataArray <> [] ->
  exists data,
    aggregate dataArray = Ok data /\
    data <> [] /\ Forall (fun d => 0 < value d) data.
Proof.
  intros Hne. unfold aggregate, D3Array.rollup.
  destruct (D3ArrayFacts.groupLoop_spec String.eqb String.eqb_spec rowGame
              (fun d => Ok (rowGame d)) dataArray (fun v _ => eq_refl) []
              (NoDup_nil _)) as (G & HG & ND & Hget).
  rewrite HG. cbn [bind]. eexists. split; [reflexivity|]. split.
  - destruct dataArray as [|d l]; [congruence|].
    specialize (Hget (rowGame d)). cbn [JsMap.get] in Hget.
    unfold D3ArrayFacts.groupOf in Hget. cbn [filter] in Hget.
    rewrite String.eqb_refl in Hget.
    apply (JsMapFacts.get_In String.eqb String.eqb_spec) in Hget.
    destruct G as [|kv G']; [contradiction|]. discriminate.
  - rewrite !Forall_map. apply Forall_forall. intros [k g] HIn.
    cbn [fst snd value].
    apply (JsMapFacts.In_get String.eqb String.eqb_spec _ _ _ ND) in HIn.
    rewrite Hget in HIn. cbn [JsMap.get] in HIn.
    destruct (D3ArrayFacts.groupOf String.eqb rowGame k dataArray)
      as [|x f]; [discriminate|].
    inversion HIn; subst. cbn [length]. lia.
Qed.

(** What [drawChart] lays out for a non-empty array. *)
Lemma drawChart_pie (dataArray : list RawRow) :
  dataArray <> [] ->
  exists data,
    drawChart dataArray = Ok (Some (pie data)) /\
    data <> [] /\ Forall (fun d => 0 < value d) data.
Proof.
  intros Hne.
  destruct (aggregate_positive dataArray Hne) as (data & Ha & Hd & Hp).
  exists data. split; [|split; assumption].
  unfold drawChart. destruct dataArray as [|d l]; [congruence|].
  cbn [length Nat.eqb]. rewrite Ha. reflexivity.
Qed.

Lemma Rsum_scale (k : R) (xs : list Z) :
  Rsum (map (fun x => (IZR x * k)%R) xs)
  = (k * IZR (fold_right Z.add 0%Z xs))%R.
Proof.
  unfold Rsum. induction xs as [|x xs IH]; cbn [map fold_right].
  - ring.
  - rewrite IH, plus_IZR. ring.
Qed.

End GamesBreakdownFacts.

Module GamesBreakdownSpec.
Import GamesBreakdown GamesBreakdownFacts.

(** C5. For a non-empty list of counts with positive values the pie layout
    returns one arc per element, in input order; the first arc starts at
    angle 0, each arc starts where the previous one ends, its span is
    value / total of a full turn, and the spans add up to 2 PI.  On
    [{Chess, 2}, {Go, 1}] the arcs are [0, 4 PI / 3] and [4 PI / 3, 2 PI]. *)
Theorem pie_spans_in_input_order (data : list Datum) :
  data <> [] -> Forall (fun d => 0 < value d) data ->
  let arcs := pie data in
  map GamesBreakdown.data arcs = data /\
  map index arcs = seq 0 (length data) /\
  option_map startAngle (hd_error arcs) = Some 0%R /\
  (forall j a b, nth_error arcs j = Some a -> nth_error arcs (S j) = Some b ->
                 startAngle b = endAngle a) /\
  map (fun a => (endAngle a - startAngle a)%R) arcs
    = map (fun d => (IZR (value d) / IZR (total data) * (2 * PI))%R) data /\
  Rsum (map (fun a => (endAngle a - startAngle a)%R) arcs) = (2 * PI)%R /\
  pie [mkDatum "Chess" 2; mkDatum "Go" 1]
    = [mkArc (mkDatum "Chess" 2) 0 2 0 (4 * PI / 3) 0;
       mkArc (mkDatum "Go" 1) 1 1 (4 * PI / 3) (2 * PI) 0].
Proof.
  intros Hne Hpos. cbn zeta.
  pose proof (total_positive data Hne Hpos) as Htot.
  assert (Htot' : IZR (total data) <> 0%R) by (apply not_0_IZR; lia).
  rewrite (pie_eq data Hne Hpos).
  set (k := (tau / IZR (total data))%R).
  destruct (arcsLoop_spec k data Hpos 0%R 0%nat) as (H1 & H2 & H3 & H4).
  split; [exact H1|]. split; [exact H2|].
  split.
  { destruct data as [|d l]; [congruence|]. cbn [arcsLoop hd_error].
    reflexivity. }
  split; [apply arcsLoop_contiguous|].
  pose proof (arcsLoop_span k data Hpos 0%R 0%nat) as Hspan.
  split.
  { rewrite Hspan. apply map_ext. intros d. subst k. unfold tau.
    field. exact Htot'. }
  split.
  { rewrite Hspan, <- (map_map value (fun x => (IZR x * k)%R)), Rsum_scale.
    rewrite <- (firstn_all data) at 1. fold (prefixValue (length data) data).
    rewrite <- total_prefix. subst k. unfold tau. field. exact Htot'. }
  rewrite pie_eq; [|discriminate|repeat constructor; cbn; lia].
  change (total [mkDatum "Chess" 2; mkDatum "Go" 1]) with 3.
  cbn [arcsLoop value Z.ltb Z.compare]. unfold tau.
  f_equal; [f_equal; field|]. f_equal. f_equal; field.
Qed.

Lemma pie_spans_in_input_order_witness :
  [mkDatum "Chess" 2; mkDatum "Go" 1] <> [] /\
  Forall (fun d => 0 < value d) [mkDatum "Chess" 2; mkDatum "Go" 1] /\
  Rsum (map (fun a => (endAngle a - startAngle a)%R)
            (pie [mkDatum "Chess" 2; mkDatum "Go" 1])) = (2 * PI)%R.
Proof.
  assert (Hne : [mkDatum "Chess" 2; mkDatum "Go" 1] <> []) by discriminate.
  assert (Hpos : Forall (fun d => 0 < value d)
                        [mkDatum "Chess" 2; mkDatum "Go" 1]).
  { repeat constructor. }
  split; [exact Hne|]. split; [exact Hpos|].
  exact (proj1 (proj2 (proj2 (proj2 (proj2 (proj2
           (pie_spans_in_input_order _ Hne Hpos))))))).
Defined.

(** Both slices of the example reach the 1% threshold of the labels. *)
Example scenario_data_ready :
  data_ready 3 [mkArc (mkDatum "Chess" 2) 0 2 0 (4 * PI / 3) 0;
                mkArc (mkDatum "Go" 1) 1 1 (4 * PI / 3) (2 * PI) 0]
  = [mkArc (mkDatum "Chess" 2) 0 2 0 (4 * PI / 3) 0;
     mkArc (mkDatum "Go" 1) 1 1 (4 * PI / 3) (2 * PI) 0].
Proof.
  unfold data_ready. cbn [filter data value].
  destruct (Rle_dec (1 / 100) (2 / 3)) as [_|H]; [|exfalso; apply H; lra].
  destruct (Rle_dec (1 / 100) (1 / 3)) as [_|H]; [|exfalso; apply H; lra].
  reflexivity.
Qed.

End GamesBreakdownSpec.

(** ** The hover resolver *)

Module D3BandFacts.
Import D3Band.

Lemma Qltb_spec (a b : Q) : reflect (a < b)%Q (Qltb a b).
Proof.
  unfold Qltb. destruct (a ?= b)%Q eqn:E; constructor; rewrite Qlt_alt;
    congruence.
Qed.

Lemma keyEqb_spec (a b : option Z) : reflect (a = b) (keyEqb a b).
Proof.
  destruct a as [x|], b as [y|]; cbn; try (constructor; congruence).
  destruct (Z.eqb_spec x y); constructor; congruence.
Qed.

Section Bisect.
Variable f : nat -> Q.
Variable n : nat.
Variable x : Q.
Hypothesis mono : forall i j, (i < j)%nat -> (j < n)%nat -> (f i < f j)%Q.

Let a : list (option Q) := map (fun j => Some (f j)) (seq 0 n).

Lemma at_in (j : nat) : (j < n)%nat -> at_ a j = Some (f j).
Proof.
  intros H. unfold at_, a. rewrite nth_error_map, nth_error_seq.
  destruct (Nat.ltb_spec j n); [reflexivity|lia].
Qed.

Lemma mono_le i j : (i <= j)%nat -> (j < n)%nat -> (f i <= f j)%Q.
Proof.
  intros Hij Hj. destruct (Nat.eq_dec i j) as [->|Hne].
  - apply Qle_refl.
  - apply Qlt_le_weak, mono; lia.
Qed.

Lemma leftLoop_spec (H : nat) : forall fuel lo hi,
  (lo < hi)%nat -> (hi <= H)%nat -> (H <= n)%nat -> (hi - lo <= fuel)%nat ->
  (forall j, (j < lo)%nat -> (f j < x)%Q) ->
  (forall j, (hi <= j)%nat -> (j < H)%nat -> ~ (f j < x)%Q) ->
  let r := leftLoop fuel a x lo hi in
  (lo <= r <= hi)%nat /\
  (forall j, (j < r)%nat -> (f j < x)%Q) /\
  (forall j, (r <= j)%nat -> (j < H)%nat -> ~ (f j < x)%Q).
Proof.
  induction fuel as [|fuel IH]; intros lo hi Hlt HhH HHn Hfuel Hlo Hhi;
    [lia|].
  cbn [leftLoop]. set (mid := Nat.div2 (lo + hi)).
  assert (Hmid : (lo <= mid < hi)%nat).
  { subst mid. rewrite Nat.div2_div.
    pose proof (Nat.div_mod_eq (lo + hi) 2).
    pose proof (Nat.mod_upper_bound (lo + hi) 2). lia. }
  rewrite at_in by lia. cbn [below].
  destruct (Qltb_spec (f mid) x) as [Hb|Hb].
  - assert (Hlo' : forall j, (j < S mid)%nat -> (f j < x)%Q).
    { intros j Hj. apply Qle_lt_trans with (f mid); [|exact Hb].
      apply mono_le; lia. }
    destruct (Nat.ltb_spec (S mid) hi) as [Hc|Hc].
    + destruct (IH (S mid) hi Hc HhH HHn ltac:(lia) Hlo' Hhi)
        as (R1 & R2 & R3).
      split; [lia|]. split; assumption.
    + split; [lia|]. split; [exact Hlo'|].
      intros j Hj. apply Hhi. lia.
  - assert (Hhi' : forall j, (mid <= j)%nat -> (j < H)%nat ->
                             ~ (f j < x)%Q).
    { intros j Hj HjH Hc. apply Hb.
      apply Qle_lt_trans with (f j); [|exact Hc]. apply mono_le; lia. }
    destruct (Nat.ltb_spec lo mid) as [Hc|Hc].
    + destruct (IH lo mid Hc ltac:(lia) HHn ltac:(lia) Hlo Hhi')
        as (R1 & R2 & R3).
      split; [lia|]. split; assumption.
    + split; [lia|]. split; [exact Hlo|].
      intros j Hj. apply Hhi'. lia.
Qed.

Lemma left_spec (hi : nat) :
  (hi <= n)%nat ->
  let r := left a x 0 hi in
  (r <= hi)%nat /\
  (forall j, (j < r)%nat -> (f j < x)%Q) /\
  (forall j, (r <= j)%nat -> (j < hi)%nat -> ~ (f j < x)%Q).
Proof.
  intros Hn. unfold left. destruct (Nat.ltb_spec 0 hi) as [Hc|Hc].
  - destruct (leftLoop_spec hi (hi - 0) 0 hi Hc (Nat.le_refl _) Hn
                (Nat.le_refl _)) as (R1 & R2 & R3).
    + intros j Hj. lia.
    + intros j Hj1 Hj2. lia.
    + split; [lia|]. split; assumption.
  - split; [lia|]. split; intros j Hj; lia.
Qed.

(** On a band center the search returns its index. *)
Lemma center_exact (t : nat) :
  (t < n)%nat -> (x == f t)%Q -> center a x = t.
Proof.
  intros Ht Hx. unfold center.
  assert (Hlen : length a = n) by (unfold a; now rewrite length_map, length_seq).
  rewrite Hlen.
  destruct (left_spec (n - 1) ltac:(lia)) as (R1 & R2 & R3).
  set (i := left a x 0 (n - 1)) in *.
  assert (Hi : i = t).
  { destruct (Nat.lt_trichotomy i t) as [Hlt|[E|Hgt]]; [|exact E|].
    - exfalso. apply (R3 i (Nat.le_refl _) ltac:(lia)).
      rewrite Hx. apply mono; lia.
    - exfalso. specialize (R2 t Hgt). rewrite Hx in R2.
      exact (Qlt_irrefl _ R2). }
  rewrite Hi. destruct (Nat.ltb_spec 0 t) as [Hp|Hp]; [|reflexivity].
  cbn [andb]. unfold closerToLower. rewrite !at_in by lia.
  destruct (Qltb_spec (- (f t - x)) (f (t - 1)%nat - x)) as [Hc|Hc];
    [|reflexivity].
  exfalso. pose proof (mono (t - 1)%nat t ltac:(lia) Ht) as Hm.
  rewrite Hx in Hc. lra.
Qed.

(** Halfway between two adjacent centers the search returns the higher
    index. *)
Lemma center_tie (t : nat) :
  (S t < n)%nat -> (2 * x == f t + f (S t))%Q -> center a x = S t.
Proof.
  intros Ht Hx. unfold center.
  assert (Hlen : length a = n) by (unfold a; now rewrite length_map, length_seq).
  rewrite Hlen.
  pose proof (mono t (S t) ltac:(lia) Ht) as Hm.
  assert (Hx1 : (f t < x)%Q) by lra.
  assert (Hx2 : (x < f (S t))%Q) by lra.
  destruct (left_spec (n - 1) ltac:(lia)) as (R1 & R2 & R3).
  set (i := left a x 0 (n - 1)) in *.
  assert (Hi : i = S t).
  { destruct (Nat.lt_trichotomy i (S t)) as [Hlt|[E|Hgt]]; [|exact E|].
    - exfalso. apply (R3 i (Nat.le_refl _) ltac:(lia)).
      apply Qle_lt_trans with (f t); [|exact Hx1]. apply mono_le; lia.
    - exfalso. specialize (R2 (S t) Hgt). lra. }
  rewrite Hi. cbn [Nat.ltb Nat.leb andb]. unfold closerToLower.
  replace (S t - 1)%nat with t by lia. rewrite !at_in by lia.
  destruct (Qltb_spec (- (f (S t) - x)) (f t - x)) as [Hc|Hc];
    [|reflexivity].
  exfalso. lra.
Qed.

End Bisect.

Lemma indexOf_nth (keys : list (option Z)) : forall i d,
  NoDup keys -> nth_error keys i = Some d -> indexOf d keys = Some i.
Proof.
  induction keys as [|k keys IH]; intros i d ND H.
  - destruct i; discriminate.
  - inversion ND as [|? ? Hk ND']; subst. cbn [indexOf].
    destruct i as [|i]; cbn [nth_error] in H.
    + inversion H; subst. destruct (keyEqb_spec d d); [reflexivity|congruence].
    + destruct (keyEqb_spec k d) as [->|_].
      * exfalso. apply Hk. eapply nth_error_In. exact H.
      * now rewrite (IH i d ND' H).
Qed.

(** The step, the start and the centers of the bands of [n] days on the
    range [[0, width]] with padding 1/10. *)
Definition bandStep (width : Q) (n : nat) : Q :=
  ((width - 0)
   / Qmax 1 (inject_Z (Z.of_nat n) - Qmin 1 (1 # 10) + (1 # 10) * 2))%Q.

Definition bandStart (width : Q) (n : nat) : Q :=
  (0 + (width - 0
        - bandStep width n * (inject_Z (Z.of_nat n) - Qmin 1 (1 # 10)))
       * (1 # 2))%Q.

Definition bandCenter (width : Q) (n j : nat) : Q :=
  (bandStart width n + bandStep width n * inject_Z (Z.of_nat j)
   + bandStep width n * (1 - Qmin 1 (1 # 10)) / 2)%Q.

Lemma bandStep_pos (width : Q) (n : nat) :
  (0 < width)%Q -> (0 < bandStep width n)%Q.
Proof.
  intros Hw. unfold bandStep.
  set (D := Qmax 1 _).
  assert (HD : (1 <= D)%Q) by apply Q.le_max_l.
  apply Qlt_shift_div_l; lra.
Qed.

Lemma bandCenter_mono (width : Q) (n i j : nat) :
  (0 < width)%Q -> (i < j)%nat ->
  (bandCenter width n i < bandCenter width n j)%Q.
Proof.
  intros Hw Hij. unfold bandCenter.
  pose proof (bandStep_pos width n Hw) as Hs.
  assert (H : (bandStep width n * inject_Z (Z.of_nat i)
               < bandStep width n * inject_Z (Z.of_nat j))%Q).
  { apply Qmult_lt_l; [exact Hs|]. rewrite <- Zlt_Qlt. lia. }
  lra.
Qed.

End D3BandFacts.

Module HoverSpec.
Import D3Band D3BandFacts GamesPlayed.

(** The centers computed by the handler are those of the bands, in order. *)
Lemma xCenters_eq (width : Q) (dc : list DailyCount) :
  (0 < width)%Q -> NoDup (map day dc) ->
  xCenters width dc
  = map (fun j => Some (bandCenter width (length dc) j))
        (seq 0 (length dc)).
Proof.
  intros Hw ND. unfold xCenters, scaleBand.
  rewrite (JsSetFacts.of_list_nodup keyEqb keyEqb_spec _ ND).
  rewrite length_map.
  destruct (Qltb_spec width 0) as [Hc|_]; [lra|].
  cbn [domain values bandwidth].
  apply nth_error_ext. intros i.
  rewrite !nth_error_map, nth_error_seq.
  destruct (Nat.ltb_spec i (length dc)) as [Hi|Hi].
  - destruct (nth_error dc i) as [d|] eqn:Ed;
      [|apply nth_error_None in Ed; lia].
    cbn [option_map]. unfold position. cbn [domain values].
    rewrite (indexOf_nth (map day dc) i (day d) ND)
      by (rewrite nth_error_map, Ed; reflexivity).
    rewrite nth_error_map, nth_error_seq.
    destruct (Nat.ltb_spec i (length dc)); [|lia].
    reflexivity.
  - assert (E : nth_error dc i = None) by (apply nth_error_None; lia).
    rewrite E. reflexivity.
Qed.

Definition scenarioBuckets : list DailyCount :=
  [mkDaily (Some 1) 2; mkDaily (Some 2) 0; mkDaily (Some 3) 1].

Definition fourBuckets : list DailyCount :=
  [mkDaily (Some 1) 1; mkDaily (Some 2) 1;
   mkDaily (Some 3) 1; mkDaily (Some 4) 1].

Definition twoBuckets : list DailyCount :=
  [mkDaily (Some 1) 1; mkDaily (Some 2) 1].

(** C6, as stated, fails on a tie.  With four buckets on the width 680 of
    GamesPlayed.vue the centers computed in binary64 for the indexes 1
    and 2 are, as exact numbers, at the same distance from the pointer
    offset 340, and the resolver returns 2, the higher index. *)
Lemma hover_tie_goes_higher :
  exists c1 c2 q1 q2 qx,
    nth_error (GamesPlayedFloat.xCenters GamesPlayedFloat.width fourBuckets) 1
      = Some c1 /\
    nth_error (GamesPlayedFloat.xCenters GamesPlayedFloat.width fourBuckets) 2
      = Some c2 /\
    exactQ c1 = Some q1 /\ exactQ c2 = Some q2 /\
    exactQ (D3BandFloat.ofZ 340) = Some qx /\ (qx == 340)%Q /\
    (q1 < qx)%Q /\ (qx < q2)%Q /\ (qx - q1 == q2 - qx)%Q /\
    GamesPlayedFloat.hoverIndex GamesPlayedFloat.width fourBuckets
      (D3BandFloat.ofZ 340) = 2%nat /\
    GamesPlayedFloat.hoverIndex GamesPlayedFloat.width fourBuckets
      (D3BandFloat.ofZ 340) <> 1%nat.
Proof.
  eexists. eexists. eexists. eexists. eexists.
  split; [vm_compute; reflexivity|]. split; [vm_compute; reflexivity|].
  split; [vm_compute; reflexivity|]. split; [vm_compute; reflexivity|].
  split; [vm_compute; reflexivity|]. split; [vm_compute; reflexivity|].
  split; [vm_compute; reflexivity|]. split; [vm_compute; reflexivity|].
  split; [vm_compute; reflexivity|].
  split; [vm_compute; reflexivity|]. vm_compute. discriminate.
Qed.

(** Where two centers are at the same distance only before rounding, the
    rounding decides: with two buckets the offset 340 is the middle of the
    chart, the center of index 0 as computed is the nearer by less than
    10^-12, and the resolver returns 0. *)
Lemma hover_rounding_decides :
  exists c0 c1 q0 q1,
    GamesPlayedFloat.xCenters GamesPlayedFloat.width twoBuckets = [c0; c1] /\
    exactQ c0 = Some q0 /\ exactQ c1 = Some q1 /\
    (340 - q0 < q1 - 340)%Q /\
    (q1 - 340 - (340 - q0) < 1 # 1000000000000)%Q /\
    GamesPlayedFloat.hoverIndex GamesPlayedFloat.width twoBuckets
      (D3BandFloat.ofZ 340) = 0%nat.
Proof.
  eexists. eexists. eexists. eexists.
  split; [vm_compute; reflexivity|]. split; [vm_compute; reflexivity|].
  split; [vm_compute; reflexivity|].
  split; [vm_compute; reflexivity|]. split; vm_compute; reflexivity.
Qed.

(** C6, amended. For day buckets with distinct days, as the builder gives
    them, and a positive width, every bucket has a band center; a pointer
    offset equal to the center of a band resolves to the index of that
    band, and an offset at equal distance from two adjacent centers
    resolves to one of the two indexes (the statement is on exact
    positions; which of the two the program returns depends on the
    rounding of the computed centers, see [fourBuckets] and [twoBuckets]
    above). *)
Theorem hover_resolves_nearest (width : Q) (dc : list DailyCount) :
  (0 < width)%Q -> NoDup (map day dc) ->
  (forall i, (i < length dc)%nat ->
     exists c, nth_error (xCenters width dc) i = Some (Some c)) /\
  (forall i c mx,
     nth_error (xCenters width dc) i = Some (Some c) ->
     (mx == c)%Q ->
     hoverIndex width dc mx = i) /\
  (forall i c1 c2 mx,
     nth_error (xCenters width dc) i = Some (Some c1) ->
     nth_error (xCenters width dc) (S i) = Some (Some c2) ->
     (mx - c1 == c2 - mx)%Q ->
     hoverIndex width dc mx = i \/ hoverIndex width dc mx = S i).
Proof.
  intros Hw ND. unfold hoverIndex.
  rewrite (xCenters_eq width dc Hw ND).
  set (n := length dc). set (f := bandCenter width n).
  assert (mono : forall i j, (i < j)%nat -> (j < n)%nat -> (f i < f j)%Q).
  { intros i j Hij _. apply bandCenter_mono; assumption. }
  assert (Hnth : forall i c,
            nth_error (map (fun j => Some (f j)) (seq 0 n)) i = Some (Some c)
            -> (i < n)%nat /\ c = f i).
  { intros i c H. rewrite nth_error_map, nth_error_seq in H.
    destruct (Nat.ltb_spec i n); [|discriminate].
    cbn in H. inversion H. split; [assumption|reflexivity]. }
  split.
  { intros i Hi. exists (f i). rewrite nth_error_map, nth_error_seq.
    destruct (Nat.ltb_spec i n); [reflexivity|lia]. }
  split.
  - intros i c mx Hc Hmx. destruct (Hnth i c Hc) as [Hi ->].
    apply (center_exact f n mx mono i Hi Hmx).
  - intros i c1 c2 mx H1 H2 Hmx.
    destruct (Hnth i c1 H1) as [Hi ->].
    destruct (Hnth (S i) c2 H2) as [Hi' ->].
    right. apply (center_tie f n mx mono i Hi'). lra.
Qed.

Lemma hover_resolves_nearest_witness :
  (0 < width)%Q /\ NoDup (map day scenarioBuckets) /\
  forall c mx,
    nth_error (xCenters width scenarioBuckets) 2 = Some (Some c) ->
    (mx == c)%Q ->
    hoverIndex width scenarioBuckets mx = 2%nat.
Proof.
  assert (Hw : (0 < width)%Q) by reflexivity.
  assert (ND : NoDup (map day scenarioBuckets)).
  { repeat constructor; cbn; intuition discriminate. }
  split; [exact Hw|]. split; [exact ND|].
  exact (proj1 (proj2 (hover_resolves_nearest width scenarioBuckets Hw ND))
           2%nat).
Defined.

End HoverSpec.

(** ** GamesCalendar.vue: more on the layout *)

(** Number of entries dated in month [m] (0-based) of year [y]. *)
Definition countInMonth (y m : Z) (entries : list Entry) : Z :=
  Z.of_nat (length (filter
    (fun e => match Date e with
              | Some dt => (JSDate.getFullYear dt =? y)
                           && (JSDate.getMonth dt =? m)
              | None => false
              end) entries)).

Module GamesCalendarMoreFacts.
Import JSDate JSDateFacts GamesCalendar GamesCalendarFacts.

Lemma DateFromDay_le_monthLength d :
  DateFromDay d <= monthLength (InLeapYear (YearFromDay d)) (MonthFromDay d).
Proof.
  unfold DateFromDay, monthLength, MonthFromDay.
  pose proof (DayWithinYear_range d).
  pose proof (InLeapYear_range (YearFromDay d)).
  split_ltb;
    repeat match goal with
    | |- context [Z.pos ?p + 1] =>
        let v := eval compute in (Z.pos p + 1) in
        change (Z.pos p + 1) with v
    | |- context [0 + 1] => change (0 + 1) with 1
    end;
    cbv [DaysBeforeMonth Z.eqb Pos.eqb]; lia.
Qed.

Lemma Zsum_zero {A} (l : list A) :
  GamesPlayedFacts.Zsum (map (fun _ => 0) l) = 0.
Proof.
  unfold GamesPlayedFacts.Zsum.
  induction l as [|x l IH]; cbn [map fold_right]; lia.
Qed.

Lemma sum_days_indicator (n d : Z) :
  GamesPlayedFacts.Zsum
    (map (fun day => if d =? day then 1 else 0) (daysUpTo n))
  = if (1 <=? d) && (d <=? n) then 1 else 0.
Proof.
  unfold daysUpTo. rewrite map_map.
  destruct (Z.leb_spec 1 d) as [Hd|Hd]; cbn [andb].
  - rewrite (map_ext _ (fun i => if Nat.eqb (Z.to_nat d) i then 1 else 0)).
    + rewrite GamesPlayedFacts.Zsum_indicator.
      destruct (Nat.leb_spec 1 (Z.to_nat d)); [|lia]. cbn [andb].
      destruct (Nat.ltb_spec (Z.to_nat d) (1 + Z.to_nat n));
        destruct (Z.leb_spec d n); lia.
    + intros i. destruct (Z.eqb_spec d (Z.of_nat i));
        destruct (Nat.eqb_spec (Z.to_nat d) i); lia.
  - rewrite (map_ext_in _ (fun _ => 0)); [apply Zsum_zero|].
    intros i Hi. apply in_seq in Hi.
    destruct (Z.eqb_spec d (Z.of_nat i)); lia.
Qed.

Lemma countOnDate_cons y m d e l :
  countOnDate y m d (e :: l)
  = (match Date e with
     | Some dt => if (getFullYear dt =? y) && (getMonth dt =? m)
                  then (if getDate dt =? d then 1 else 0) else 0
     | None => 0
     end) + countOnDate y m d l.
Proof.
  unfold countOnDate. cbn [filter].
  destruct (Date e) as [dt|]; [|lia].
  destruct ((getFullYear dt =? y) && (getMonth dt =? m)); cbn [andb];
    [|lia].
  destruct (getDate dt =? d); cbn [length]; lia.
Qed.

(** The entries of a month are those of its days. *)
Lemma countOnDate_sum (y m : Z) (entries : list Entry) :
  GamesPlayedFacts.Zsum
    (map (fun day => countOnDate y m day entries)
         (daysUpTo (monthLength (InLeapYear y) m)))
  = countInMonth y m entries.
Proof.
  induction entries as [|e l IH].
  - apply Zsum_zero.
  - rewrite (map_ext _ (fun day =>
        (match Date e with
         | Some dt => if (getFullYear dt =? y) && (getMonth dt =? m)
                      then (if getDate dt =? day then 1 else 0) else 0
         | None => 0
         end) + countOnDate y m day l))
      by (intros day; apply countOnDate_cons).
    rewrite GamesPlayedFacts.Zsum_map_add, IH.
    unfold countInMonth. cbn [filter].
    destruct (Date e) as [dt|]; [|rewrite Zsum_zero; lia].
    destruct (Z.eqb_spec (getFullYear dt) y) as [Ey|];
      [|cbn [andb]; rewrite Zsum_zero; lia].
    destruct (Z.eqb_spec (getMonth dt) m) as [Em|];
      [|cbn [andb]; rewrite Zsum_zero; lia].
    cbn [andb length]. rewrite sum_days_indicator.
    pose proof (DateFromDay_range (Day (time dt))) as R1.
    pose proof (DateFromDay_le_monthLength (Day (time dt))) as R2.
    unfold getFullYear, getMonth, getDate in *. rewrite Ey, Em in R2.
    destruct (Z.leb_spec 1 (DateFromDay (Day (time dt)))); [|lia].
    destruct (Z.leb_spec (DateFromDay (Day (time dt)))
                (monthLength (InLeapYear y) m)); [|lia].
    cbn [andb]. lia.
Qed.

End GamesCalendarMoreFacts.

Module GamesCalendarExtra.
Import JSDate JSDateFacts GamesCalendar GamesCalendarFacts.
Import GamesCalendarMoreFacts.

(** X1. The "day 0 of the next month" idiom gives the displayed month its
    calendar length: 31 days, 30 for April, June, September and November,
    and for February 29 in a leap year and 28 otherwise; the grid has
    exactly one cell per day. *)
Theorem days_in_month_is_calendar_length (entries : list Entry) :
  entries <> [] -> Forall hasDate entries ->
  exists L,
    drawCalendar entries = Ok (Some L) /\
    0 <= month L <= 11 /\
    (let y := MakeFullYear (year L) in
     let leapYear := (y mod 4 =? 0)
                     && (negb (y mod 100 =? 0) || (y mod 400 =? 0)) in
     daysInMonth L
     = if month L =? 1 then (if leapYear then 29 else 28)
       else if (month L =? 3) || (month L =? 5) || (month L =? 8)
               || (month L =? 10) then 30
       else 31) /\
    Z.of_nat (length (cells L)) = daysInMonth L.
Proof.
  intros Hne Hd. destruct entries as [|e0 rest]; [congruence|].
  destruct (drawCalendar_layout e0 rest Hd)
    as (first & counts & L & _ & _ & _ & HL & _ & Hm & Hdim & _ & _ & _
        & Hcells).
  exists L. split; [exact HL|].
  assert (Hmr : 0 <= month L <= 11) by (rewrite Hm; apply MonthFromDay_range).
  split; [exact Hmr|].
  rewrite getDate_next_month_0 in Hdim by exact Hmr.
  split.
  - cbv zeta. rewrite Hdim. clear -Hmr.
    set (y := MakeFullYear (year L)).
    unfold monthLength, InLeapYear, DaysInYear, DaysBeforeMonth.
    destruct (Z.eqb_spec (y mod 4) 0); destruct (Z.eqb_spec (y mod 100) 0);
      destruct (Z.eqb_spec (y mod 400) 0); cbn [negb andb orb];
      prune_ifs; reflexivity.
  - rewrite Hcells, length_map. unfold daysUpTo.
    rewrite length_map, length_seq.
    pose proof (monthLength_range (InLeapYear (MakeFullYear (year L)))
                  (month L) (InLeapYear_range _) Hmr). lia.
Qed.

Lemma days_in_month_is_calendar_length_witness :
  normalize scenarioRows <> [] /\
  Forall hasDate (normalize scenarioRows) /\
  exists L, drawCalendar (normalize scenarioRows) = Ok (Some L) /\
            Z.of_nat (length (cells L)) = daysInMonth L.
Proof.
  assert (Hne : normalize scenarioRows <> []) by discriminate.
  assert (Hd : Forall hasDate (normalize scenarioRows))
    by (repeat constructor; discriminate).
  split; [exact Hne|]. split; [exact Hd|].
  destruct (days_in_month_is_calendar_length _ Hne Hd)
    as (L & H1 & _ & _ & H2).
  exists L. split; [exact H1|exact H2].
Defined.

(** X2. The grid has exactly the rows it needs: between 4 and 6, every
    cell lies in a row 0..rows-1 and a column 0..6, and the cell of the
    last day of the month lies in the last row. *)
Theorem calendar_rows_are_tight (entries : list Entry) :
  entries <> [] -> Forall hasDate entries ->
  exists L,
    drawCalendar entries = Ok (Some L) /\
    4 <= rows L <= 6 /\
    Forall (fun c => 0 <= row c < rows L /\ 0 <= col c <= 6) (cells L) /\
    exists c, In c (cells L) /\ cellDay c = daysInMonth L /\
              row c = rows L - 1.
Proof.
  intros Hne Hd. destruct entries as [|e0 rest]; [congruence|].
  destruct (drawCalendar_layout e0 rest Hd)
    as (first & counts & L & _ & _ & _ & HL & _ & Hm & Hdim & Hsd & Hrows & _
        & Hcells).
  exists L. split; [exact HL|].
  assert (Hs : 0 <= startDay L <= 6) by (rewrite Hsd; apply WeekDay_range).
  assert (Hmr : 0 <= month L <= 11) by (rewrite Hm; apply MonthFromDay_range).
  assert (Hdr : 28 <= daysInMonth L <= 31).
  { rewrite Hdim, getDate_next_month_0 by exact Hmr.
    apply monthLength_range; [apply InLeapYear_range|exact Hmr]. }
  clear Hdim Hsd Hm.
  assert (Hr : rows L = (startDay L + daysInMonth L + 6) / 7).
  { rewrite Hrows. unfold ceilDiv. Z.div_mod_to_equations. lia. }
  split; [rewrite Hr; Z.div_mod_to_equations; lia|].
  split.
  - rewrite Hcells. apply Forall_forall. intros c Hc.
    apply in_map_iff in Hc. destruct Hc as (day & <- & Hday).
    apply In_daysUpTo in Hday.
    destruct (cellOf_place (year L) (month L) (startDay L) counts day)
      as (_ & H2 & H3 & _); [lia|lia|].
    rewrite H2, H3, Hr. Z.div_mod_to_equations. lia.
  - exists (cellOf (year L) (month L) (startDay L) counts (daysInMonth L)).
    split.
    { rewrite Hcells. apply in_map. apply In_daysUpTo. lia. }
    destruct (cellOf_place (year L) (month L) (startDay L) counts
                (daysInMonth L)) as (H1 & H2 & _); [lia|lia|].
    split; [exact H1|]. rewrite H2, Hr. Z.div_mod_to_equations. lia.
Qed.

Lemma calendar_rows_are_tight_witness :
  normalize scenarioRows <> [] /\
  Forall hasDate (normalize scenarioRows) /\
  exists L, drawCalendar (normalize scenarioRows) = Ok (Some L) /\
            4 <= rows L <= 6.
Proof.
  assert (Hne : normalize scenarioRows <> []) by discriminate.
  assert (Hd : Forall hasDate (normalize scenarioRows))
    by (repeat constructor; discriminate).
  split; [exact Hne|]. split; [exact Hd|].
  destruct (calendar_rows_are_tight _ Hne Hd) as (L & H1 & H2 & _).
  exists L. split; [exact H1|exact H2].
Defined.

Lemma countOn_positive_entry t (entries : list Entry) :
  0 < countOn t entries ->
  exists e dt, In e entries /\ Date e = Some dt /\ time dt = t.
Proof.
  unfold countOn. intros Hp.
  destruct (filter (fun e => match Date e with
                             | Some dt => time dt =? t
                             | None => false
                             end) entries) as [|e l] eqn:Ef;
    [cbn [length] in Hp; lia|].
  assert (He : In e (filter (fun e => match Date e with
                             | Some dt => time dt =? t
                             | None => false
                             end) entries)) by (rewrite Ef; now left).
  apply filter_In in He. destruct He as [HIn Ht].
  destruct (Date e) as [dt|] eqn:Ed; [|discriminate].
  exists e, dt. split; [exact HIn|]. split; [exact Ed|].
  apply Z.eqb_eq. exact Ht.
Qed.

(** X3. The upper end of the colour domain is the size of the largest
    group of entries sharing a date, taken over all entries (also those
    outside the displayed month); it is at least 1, and every cell count
    lies between 0 and it. *)
Theorem cell_counts_within_color_domain (entries : list Entry) :
  entries <> [] -> Forall hasDate entries ->
  exists L,
    drawCalendar entries = Ok (Some L) /\
    1 <= maxCount L /\
    (exists e dt, In e entries /\ Date e = Some dt /\
                  maxCount L = countOn (time dt) entries) /\
    (forall t, countOn t entries <= maxCount L) /\
    Forall (fun c => 0 <= cnt c <= maxCount L) (cells L).
Proof.
  intros Hne Hd.
  destruct (GamesCalendarSpec.cell_counts_by_time entries Hne Hd)
    as (L & HL & Hc & Hle & (e & dt & HIn & Ed & Emax)).
  exists L. split; [exact HL|].
  assert (Hpos : 0 < countOn (time dt) entries).
  { unfold countOn.
    assert (In e (filter (fun e1 => match Date e1 with
                                    | Some dt1 => time dt1 =? time dt
                                    | None => false
                                    end) entries)).
    { apply filter_In. split; [exact HIn|]. rewrite Ed. apply Z.eqb_refl. }
    destruct (filter _ entries); [contradiction|cbn [length]; lia]. }
  split; [lia|].
  split; [exists e, dt; split; [exact HIn|]; split; [exact Ed|];
          symmetry; exact Emax|].
  assert (Hall : forall t, countOn t entries <= maxCount L).
  { intros t. destruct (Z.ltb_spec 0 (countOn t entries)) as [Hp|Hp];
      [|lia].
    destruct (countOn_positive_entry t entries Hp)
      as (e' & dt' & HIn' & Ed' & <-).
    apply (Hle e' dt' HIn' Ed'). }
  split; [exact Hall|].
  eapply Forall_impl; [|exact Hc]. intros c Ec. cbn beta in Ec.
  rewrite Ec. split; [apply countOn_nonneg|apply Hall].
Qed.

Lemma cell_counts_within_color_domain_witness :
  normalize scenarioRows <> [] /\
  Forall hasDate (normalize scenarioRows) /\
  exists L, drawCalendar (normalize scenarioRows) = Ok (Some L) /\
            Forall (fun c => 0 <= cnt c <= maxCount L) (cells L).
Proof.
  assert (Hne : normalize scenarioRows <> []) by discriminate.
  assert (Hd : Forall hasDate (normalize scenarioRows))
    by (repeat constructor; discriminate).
  split; [exact Hne|]. split; [exact Hd|].
  destruct (cell_counts_within_color_domain _ Hne Hd)
    as (L & H1 & _ & _ & _ & H2).
  exists L. split; [exact H1|exact H2].
Defined.

(** X4. For entries at midnight, a cell counts the entries dated on its
    day of the displayed month, the year being read as [new Date(year,
    month, day)] reads it (a year 0..99 as 1900 + year); the cell counts
    add up to the number of entries dated in that month, so an entry of
    another month is counted in no cell. *)
Theorem cell_counts_partition_month (entries : list Entry) :
  entries <> [] -> Forall validEntry entries ->
  exists L,
    drawCalendar entries = Ok (Some L) /\
    (~ 0 <= year L <= 99 -> MakeFullYear (year L) = year L) /\
    Forall (fun c => cnt c = countOnDate (MakeFullYear (year L)) (month L)
                                         (cellDay c) entries) (cells L) /\
    fold_right Z.add 0 (map cnt (cells L))
    = countInMonth (MakeFullYear (year L)) (month L) entries.
Proof.
  intros Hne Hv.
  destruct (GamesCalendarSpec.cell_counts_by_date entries Hne Hv) as (L & HL & Hc).
  exists L. split; [exact HL|].
  split.
  { intros Hy. unfold MakeFullYear.
    destruct (Z.leb_spec 0 (year L)); destruct (Z.leb_spec (year L) 99);
      cbn [andb]; lia. }
  split; [exact Hc|].
  assert (Hd : Forall hasDate entries).
  { eapply Forall_impl; [|exact Hv]. intros e (dt & Ed & _).
    unfold hasDate. congruence. }
  destruct entries as [|e0 rest]; [congruence|].
  destruct (drawCalendar_layout e0 rest Hd)
    as (first & counts & L' & _ & _ & _ & HL' & _ & Hm & Hdim & _ & _ & _
        & Hcells).
  assert (L' = L) by congruence. subst L'.
  assert (Hmr : 0 <= month L <= 11) by (rewrite Hm; apply MonthFromDay_range).
  rewrite getDate_next_month_0 in Hdim by exact Hmr.
  rewrite <- (countOnDate_sum (MakeFullYear (year L)) (month L)), <- Hdim.
  unfold GamesPlayedFacts.Zsum. f_equal.
  rewrite Hcells in Hc |- *. rewrite map_map.
  apply map_ext_in. intros day Hday.
  rewrite Forall_forall in Hc.
  apply (Hc (cellOf (year L) (month L) (startDay L) counts day)).
  apply in_map. exact Hday.
Qed.

Lemma cell_counts_partition_month_witness :
  normalize scenarioRows <> [] /\
  Forall validEntry (normalize scenarioRows) /\
  exists L,
    drawCalendar (normalize scenarioRows) = Ok (Some L) /\
    fold_right Z.add 0 (map cnt (cells L))
    = countInMonth (MakeFullYear (year L)) (month L)
                   (normalize scenarioRows).
Proof.
  assert (Hne : normalize scenarioRows <> []) by discriminate.
  assert (Hv : Forall validEntry (normalize scenarioRows)).
  { apply NormalizerFacts.normalize_valid.
    repeat constructor; discriminate. }
  split; [exact Hne|]. split; [exact Hv|].
  destruct (cell_counts_partition_month _ Hne Hv) as (L & H1 & _ & _ & H2).
  exists L. split; [exact H1|exact H2].
Defined.

(** X5. [drawCalendar] throws exactly when one of the entries it is given
    has a null date; otherwise it shows the placeholder for no entry and a
    layout for one or more. *)
Theorem drawCalendar_throws_iff_null_date (entries : list Entry) :
  (drawCalendar entries = TypeError
   <-> Exists (fun e => Date e = None) entries) /\
  (drawCalendar entries = Ok None <-> entries = []) /\
  ((exists L, drawCalendar entries = Ok (Some L))
   <-> entries <> [] /\ Forall hasDate entries).
Proof.
  assert (Hcases : Exists (fun e => Date e = None) entries
                   \/ Forall hasDate entries).
  { induction entries as [|e l IH]; [right; constructor|].
    destruct (Date e) as [dt|] eqn:Ed.
    - destruct IH as [IH|IH]; [left; now apply Exists_cons_tl|].
      right. constructor; [unfold hasDate; congruence|exact IH].
    - left. now apply Exists_cons_hd. }
  assert (Hexcl : Exists (fun e => Date e = None) entries ->
                  Forall hasDate entries -> False).
  { intros He Hf. rewrite Exists_exists in He. destruct He as (e & HIn & En).
    rewrite Forall_forall in Hf. exact (Hf e HIn En). }
  destruct Hcases as [Hnull|Hd].
  - pose proof (drawCalendar_null entries Hnull) as HT.
    split; [split; [intros _; exact Hnull|intros _; exact HT]|].
    split.
    + split; [rewrite HT; discriminate|].
      intros ->. inversion Hnull.
    + split; [intros (L & HL); rewrite HT in HL; discriminate|].
      intros (_ & Hf). exfalso. exact (Hexcl Hnull Hf).
  - destruct entries as [|e0 rest].
    + split; [split; [discriminate|intros H; inversion H]|].
      split; [split; reflexivity|].
      split; [intros (L & HL); discriminate|intros (H & _); congruence].
    + destruct (drawCalendar_layout e0 rest Hd)
        as (first & counts & L & _ & _ & _ & HL & _).
      split.
      { split; [rewrite HL; discriminate|].
        intros He. exfalso. exact (Hexcl He Hd). }
      split; [split; [rewrite HL; discriminate|discriminate]|].
      split; [intros _; split; [discriminate|exact Hd]|].
      intros _. exists L. exact HL.
Qed.

End GamesCalendarExtra.

(** ** Further facts about the day buckets *)

Module GamesPlayedMoreFacts.
Import JSDate GamesPlayed GamesPlayedFacts NormalizerFacts.

Lemma extent_all_null (rawData : list Entry) :
  Forall nullDate rawData -> extent rawData = None.
Proof.
  unfold extent. induction 1 as [|e l He _ IH]; [reflexivity|].
  cbn [fold_left]. unfold nullDate in He. rewrite He. exact IH.
Qed.

Lemma dated_or_null (rawData : list Entry) :
  Forall hasDate rawData \/ Exists nullDate rawData.
Proof.
  induction rawData as [|e l IH]; [left; constructor|].
  destruct (Date e) as [dt|] eqn:E.
  - destruct IH as [IH|IH].
    + left. constructor; [unfold hasDate; congruence|exact IH].
    + right. apply Exists_cons_tl. exact IH.
  - right. apply Exists_cons_hd. exact E.
Qed.

Lemma dailyCountsOf_null (ds : list JSDate.t) (rawData : list Entry) :
  Exists nullDate rawData -> ds <> [] ->
  dailyCountsOf ds rawData = TypeError.
Proof.
  intros Hn Hds. destruct ds as [|d ds]; [congruence|].
  unfold dailyCountsOf. cbn [mapM]. rewrite countAt_null by exact Hn.
  reflexivity.
Qed.

Lemma sumCounts_cons d l : sumCounts (d :: l) = count d + sumCounts l.
Proof. reflexivity. Qed.

Lemma sumCounts_nonneg (l : list DailyCount) :
  Forall (fun b => 0 <= count b) l -> 0 <= sumCounts l.
Proof.
  induction 1 as [|d l Hd _ IH]; [unfold sumCounts; cbn; lia|].
  rewrite sumCounts_cons. lia.
Qed.

Lemma sumCounts_firstn (l : list DailyCount) :
  Forall (fun b => 0 <= count b) l ->
  forall k, 0 <= sumCounts (firstn k l) <= sumCounts l.
Proof.
  induction 1 as [|d l Hd Hl IH]; intros k.
  - rewrite firstn_nil. unfold sumCounts. cbn. lia.
  - destruct k as [|k]; cbn [firstn].
    + pose proof (sumCounts_nonneg l Hl). rewrite sumCounts_cons.
      unfold sumCounts at 1 2. cbn [map fold_right]. lia.
    + rewrite !sumCounts_cons. specialize (IH k). lia.
Qed.

Lemma count_le_sumCounts (l : list DailyCount) :
  Forall (fun b => 0 <= count b) l ->
  Forall (fun b => count b <= sumCounts l) l.
Proof.
  induction 1 as [|d l Hd Hl IH]; constructor.
  - rewrite sumCounts_cons. pose proof (sumCounts_nonneg l Hl). lia.
  - eapply Forall_impl; [|exact IH]. cbn beta. intros b Hb.
    rewrite sumCounts_cons. lia.
Qed.

End GamesPlayedMoreFacts.

Module GamesPlayedExtra.
Import JSDate GamesPlayed GamesPlayedFacts NormalizerFacts.
Import GamesPlayedMoreFacts GamesPlayedBars.

(** X6. How the day-bucket builder of GamesPlayed.vue ends when dates are
    missing.  If no row has a date, the extent is undefined, the date loop
    does not run and the builder returns no bucket, whatever the fuel.  If
    some row has a date and some row has none, the builder throws a
    [TypeError] as soon as the date loop has fuel enough.  And whenever the
    builder returns at least one bucket, every row has a date. *)
Theorem builder_outcome_by_missing_dates (rawData : list Entry) :
  (Forall nullDate rawData ->
   forall fuel, dailyCounts fuel rawData = Ok []) /\
  (Exists nullDate rawData -> Exists hasDate rawData ->
   exists fuel0, forall fuel, (fuel0 <= fuel)%nat ->
     dailyCounts fuel rawData = TypeError) /\
  (forall fuel buckets,
     dailyCounts fuel rawData = Ok buckets -> buckets <> [] ->
     Forall hasDate rawData).
Proof.
  split; [|split].
  - intros Hn fuel. unfold dailyCounts, dates.
    rewrite (extent_all_null rawData Hn). reflexivity.
  - exact (dailyCounts_null rawData).
  - intros fuel buckets HOk Hne.
    destruct (dated_or_null rawData) as [H|Hn]; [exact H|exfalso].
    unfold dailyCounts in HOk.
    destruct (dates fuel rawData) as [ds| |]; cbn [bind] in HOk;
      try discriminate.
    destruct ds as [|d ds].
    + unfold dailyCountsOf in HOk. cbn [mapM] in HOk.
      inversion HOk; subst. congruence.
    + rewrite (dailyCountsOf_null (d :: ds) rawData Hn) in HOk
        by discriminate.
      discriminate.
Qed.

Lemma builder_outcome_by_missing_dates_witness :
  Forall nullDate (normalize [mkRow "tomorrow" "A" "Chess"]) /\
  dailyCounts 0 (normalize [mkRow "tomorrow" "A" "Chess"]) = Ok [].
Proof.
  assert (H : Forall nullDate (normalize [mkRow "tomorrow" "A" "Chess"])).
  { constructor; [reflexivity|constructor]. }
  split; [exact H|].
  exact (proj1 (builder_outcome_by_missing_dates _) H 0%nat).
Defined.

(** X7. The two domain maxima of GamesPlayed.vue.  For a non-empty list of
    buckets with non-negative counts, [d3.max] of the running totals is the
    sum of all counts, and [d3.max] of the counts is a count of some bucket
    that bounds every count and is at most that sum. *)
Theorem domain_maxima (dc : list DailyCount) :
  dc <> [] -> Forall (fun b => 0 <= count b) dc ->
  yLineMax (cumulative dc) = Some (sumCounts dc) /\
  exists m,
    yBarMax dc = Some m /\
    (exists b, In b dc /\ count b = m) /\
    Forall (fun b => count b <= m) dc /\
    0 <= m <= sumCounts dc.
Proof.
  intros Hne Hpos. split.
  - unfold yLineMax, cumulative.
    destruct (D3ArrayFacts.max_spec (map total (cumulativeFrom 0 dc)))
      as (m & Hm & Hin & Hall).
    { destruct dc; [congruence|discriminate]. }
    rewrite Hm. f_equal.
    rewrite GamesPlayedSpec.cumulativeFrom_total in Hin, Hall.
    apply in_map_iff in Hin. destruct Hin as (i & Hi & _).
    pose proof (sumCounts_firstn dc Hpos (S i)) as Hle.
    rewrite Forall_forall in Hall.
    assert (Hlast : sumCounts dc <= m).
    { apply Hall. apply in_map_iff. exists (Nat.pred (length dc)).
      split.
      - replace (S (Nat.pred (length dc))) with (length dc)
          by (destruct dc; [congruence|cbn [length]; lia]).
        rewrite firstn_all. lia.
      - apply in_seq. destruct dc; [congruence|cbn [length]; lia]. }
    lia.
  - unfold yBarMax.
    destruct (D3ArrayFacts.max_spec (map count dc)) as (m & Hm & Hin & Hall).
    { destruct dc; [congruence|discriminate]. }
    exists m. split; [exact Hm|].
    apply in_map_iff in Hin. destruct Hin as (b & Hb & Hin).
    split; [exists b; split; [exact Hin|exact Hb]|].
    split; [rewrite Forall_map in Hall; exact Hall|].
    pose proof (count_le_sumCounts dc Hpos) as Hc.
    rewrite Forall_forall in Hc, Hpos.
    specialize (Hc b Hin). specialize (Hpos b Hin). cbn beta in *. lia.
Qed.

Lemma domain_maxima_witness :
  yLineMax (cumulative HoverSpec.scenarioBuckets) = Some 3.
Proof.
  refine (proj1 (domain_maxima HoverSpec.scenarioBuckets _ _)).
  - discriminate.
  - repeat constructor; cbn; lia.
Defined.

End GamesPlayedExtra.

(** ** Further facts about [bisector().center] *)

Module D3BandMoreFacts.
Import D3Band D3BandFacts.

Section Nearest.
Variable f : nat -> Q.
Variable n : nat.
Variable x : Q.
Hypothesis mono : forall i j, (i < j)%nat -> (j < n)%nat -> (f i < f j)%Q.
Hypothesis nonempty : (0 < n)%nat.

Local Abbreviation a := (map (fun j => Some (f j)) (seq 0 n)).

Lemma length_a : length a = n.
Proof. rewrite length_map, length_seq. reflexivity. Qed.

(** [center] returns an index of the array, and no element is nearer to
    [x] than the one at that index. *)
Lemma center_nearest :
  (center a x < n)%nat /\
  forall j, (j < n)%nat -> (Qabs (f (center a x) - x) <= Qabs (f j - x))%Q.
Proof.
  unfold center. rewrite length_a.
  destruct (left_spec f n x mono (n - 1) ltac:(lia)) as (Hr & Hlo & Hhi).
  set (i := left a x 0 (n - 1)) in *.
  assert (Hin : (i < n)%nat) by lia.
  assert (far : forall j c : Q,
            (c - x <= Qabs (j - x))%Q -> (x - c <= Qabs (j - x))%Q ->
            (Qabs (c - x) <= Qabs (j - x))%Q).
  { intros j c H1 H2. apply Qabs_Qle_condition. split; lra. }
  assert (up : forall u : Q, (u - x <= Qabs (u - x))%Q)
    by (intros u; apply Qle_Qabs).
  assert (dn : forall u : Q, (x - u <= Qabs (u - x))%Q).
  { intros u. rewrite <- Qabs_opp.
    setoid_replace (- (u - x))%Q with (x - u)%Q by ring. apply Qle_Qabs. }
  destruct (Nat.ltb_spec 0 i) as [Hpos|Hz]; cbn [andb].
  - unfold closerToLower.
    rewrite (at_in f n (i - 1)) by lia. rewrite (at_in f n i) by lia.
    assert (Hprev : (f (i - 1)%nat < x)%Q) by (apply Hlo; lia).
    destruct (Qltb_spec (- (f i - x)) (f (i - 1)%nat - x)) as [Hc|Hc].
    + split; [lia|]. intros j Hj.
      destruct (Nat.lt_ge_cases j i) as [Hji|Hji].
      * pose proof (mono_le f n mono j (i - 1) ltac:(lia) ltac:(lia)).
        apply far; [|]; pose proof (dn (f j)); lra.
      * pose proof (mono_le f n mono i j ltac:(lia) ltac:(lia)).
        apply far; [|]; pose proof (up (f j)); lra.
    + split; [lia|]. intros j Hj.
      destruct (Nat.lt_ge_cases j i) as [Hji|Hji].
      * pose proof (mono_le f n mono j (i - 1) ltac:(lia) ltac:(lia)).
        pose proof (mono_le f n mono (i - 1) i ltac:(lia) ltac:(lia)).
        apply far; [|]; pose proof (dn (f j)); lra.
      * pose proof (mono_le f n mono i j ltac:(lia) ltac:(lia)).
        destruct (Qlt_le_dec (f i) x) as [Hlt|Hge].
        -- assert (i = (n - 1)%nat).
           { destruct (Nat.eq_dec i (n - 1)) as [E|E]; [exact E|].
             exfalso. apply (Hhi i); [lia|lia|exact Hlt]. }
           assert (j = i) by lia. subst j. apply Qle_refl.
        -- apply far; [|]; pose proof (up (f j)); lra.
  - assert (i = 0%nat) by lia.
    split; [lia|]. intros j Hj.
    pose proof (mono_le f n mono i j ltac:(lia) ltac:(lia)).
    destruct (Qlt_le_dec (f i) x) as [Hlt|Hge].
    + assert (i = (n - 1)%nat).
      { destruct (Nat.eq_dec i (n - 1)) as [E|E]; [exact E|].
        exfalso. apply (Hhi i); [lia|lia|exact Hlt]. }
      assert (j = i) by lia. subst j. apply Qle_refl.
    + apply far; [|]; pose proof (up (f j)); lra.
Qed.

End Nearest.

End D3BandMoreFacts.

Module BandLayoutFacts.
Import D3Band D3BandFacts GamesPlayed GamesPlayedBars.

Lemma bandStep_total (width : Q) (n : nat) :
  (0 < n)%nat ->
  (bandStep width n * inject_Z (Z.of_nat n) + bandStep width n * (1 # 10)
   == width)%Q.
Proof.
  intros Hn. unfold bandStep.
  change (Qmin 1 (1 # 10)) with (1 # 10)%Q.
  set (N := inject_Z (Z.of_nat n)).
  assert (HN : (1 <= N)%Q).
  { subst N. change 1%Q with (inject_Z 1). rewrite <- Zle_Qle. lia. }
  assert (HD : (Qmax 1 (N - (1 # 10) + (1 # 10) * 2)
                == N - (1 # 10) + (1 # 10) * 2)%Q)
    by (apply Q.max_r; lra).
  rewrite HD. field. lra.
Qed.

Lemma bandStart_eq (width : Q) (n : nat) :
  (0 < n)%nat -> (bandStart width n == bandStep width n * (1 # 10))%Q.
Proof.
  intros Hn. pose proof (bandStep_total width n Hn) as H.
  unfold bandStart. change (Qmin 1 (1 # 10)) with (1 # 10)%Q.
  set (s := bandStep width n) in *.
  set (N := inject_Z (Z.of_nat n)) in *.
  setoid_replace (0 + (width - 0 - s * (N - (1 # 10))) * (1 # 2))%Q
    with ((width - (s * N + s * (1 # 10))) * (1 # 2) + s * (1 # 10))%Q
    by ring.
  rewrite H. ring.
Qed.

Lemma step_succ (s : Q) (j : nat) :
  (s * inject_Z (Z.of_nat (S j)) == s * inject_Z (Z.of_nat j) + s)%Q.
Proof.
  rewrite Nat2Z.inj_succ. unfold Z.succ. rewrite inject_Z_plus. ring.
Qed.

Lemma step_mono (s : Q) (i j : nat) :
  (0 < s)%Q -> (i <= j)%nat ->
  (s * inject_Z (Z.of_nat i) <= s * inject_Z (Z.of_nat j))%Q.
Proof.
  intros Hs Hij. apply Qmult_le_l; [exact Hs|]. rewrite <- Zle_Qle. lia.
Qed.

(** The left and right edges of the bars are those of the bands. *)
Lemma barSpans_eq (width : Q) (dc : list DailyCount) :
  (0 < width)%Q -> NoDup (map day dc) ->
  barSpans width dc
  = map (fun j =>
           Some ((bandStart width (length dc)
                  + bandStep width (length dc) * inject_Z (Z.of_nat j))%Q,
                 (bandStart width (length dc)
                  + bandStep width (length dc) * inject_Z (Z.of_nat j)
                  + bandStep width (length dc) * (1 - Qmin 1 (1 # 10)))%Q))
        (seq 0 (length dc)).
Proof.
  intros Hw ND. unfold barSpans, scaleBand.
  rewrite (JsSetFacts.of_list_nodup keyEqb keyEqb_spec _ ND).
  rewrite length_map.
  destruct (Qltb_spec width 0) as [Hc|_]; [lra|].
  cbn [domain values bandwidth].
  apply nth_error_ext. intros i.
  rewrite !nth_error_map, nth_error_seq.
  destruct (Nat.ltb_spec i (length dc)) as [Hi|Hi].
  - destruct (nth_error dc i) as [d|] eqn:Ed;
      [|apply nth_error_None in Ed; lia].
    cbn [option_map]. unfold position. cbn [domain values].
    rewrite (indexOf_nth (map day dc) i (day d) ND)
      by (rewrite nth_error_map, Ed; reflexivity).
    rewrite nth_error_map, nth_error_seq.
    destruct (Nat.ltb_spec i (length dc)); [|lia].
    reflexivity.
  - assert (E : nth_error dc i = None) by (apply nth_error_None; lia).
    rewrite E. reflexivity.
Qed.

End BandLayoutFacts.

Module GamesPlayedChartExtra.
Import D3Band D3BandFacts GamesPlayed GamesPlayedBars GamesPlayedHover.
Import BandLayoutFacts.

(** X8. The bars of GamesPlayed.vue (and of its animated variant, which
    draws them with the same code).  For a positive chart width and
    buckets with distinct day numbers, every bucket gets a bar; each bar
    lies strictly inside [[0, width]] and is centered on the point the
    hover handler uses for it; bars have one common width; a bar ends
    strictly before the next one starts; and the margin left of the first
    bar equals the margin right of the last one. *)
Theorem bars_tile_the_axis (width : Q) (dc : list DailyCount) :
  (0 < width)%Q -> NoDup (map day dc) ->
  (forall j, (j < length dc)%nat ->
     exists lo hi, nth_error (barSpans width dc) j = Some (Some (lo, hi))) /\
  (forall j lo hi,
     nth_error (barSpans width dc) j = Some (Some (lo, hi)) ->
     (0 < lo)%Q /\ (lo < hi)%Q /\ (hi < width)%Q /\
     exists c, nth_error (xCenters width dc) j = Some (Some c) /\
               (2 * c == lo + hi)%Q) /\
  (forall i j lo1 hi1 lo2 hi2,
     nth_error (barSpans width dc) i = Some (Some (lo1, hi1)) ->
     nth_error (barSpans width dc) j = Some (Some (lo2, hi2)) ->
     (hi1 - lo1 == hi2 - lo2)%Q /\ ((i < j)%nat -> (hi1 < lo2)%Q)) /\
  (forall lo hi,
     nth_error (barSpans width dc) 0 = Some (Some (lo, hi)) ->
     forall lo' hi',
       nth_error (barSpans width dc) (length dc - 1) = Some (Some (lo', hi')) ->
       (lo - 0 == width - hi')%Q).
Proof.
  intros Hw ND.
  rewrite (barSpans_eq width dc Hw ND).
  rewrite (HoverSpec.xCenters_eq width dc Hw ND).
  set (n := length dc).
  change (Qmin 1 (1 # 10)) with (1 # 10)%Q.
  pose proof (bandStep_pos width n Hw) as Hs.
  assert (nth : forall j lo hi,
    nth_error
      (map (fun j =>
         Some ((bandStart width n + bandStep width n * inject_Z (Z.of_nat j))%Q,
               (bandStart width n + bandStep width n * inject_Z (Z.of_nat j)
                + bandStep width n * (1 - (1 # 10)))%Q)) (seq 0 n)) j
    = Some (Some (lo, hi)) ->
    (j < n)%nat /\
    lo = (bandStart width n + bandStep width n * inject_Z (Z.of_nat j))%Q /\
    hi = (bandStart width n + bandStep width n * inject_Z (Z.of_nat j)
          + bandStep width n * (1 - (1 # 10)))%Q).
  { intros j lo hi H. rewrite nth_error_map, nth_error_seq in H.
    destruct (Nat.ltb_spec j n) as [Hj|Hj]; [|discriminate].
    cbn [option_map Nat.add] in H. inversion H. auto. }
  split; [|split; [|split]].
  - intros j Hj. rewrite nth_error_map, nth_error_seq.
    destruct (Nat.ltb_spec j n); [|lia]. cbn [option_map]. eauto.
  - intros j lo hi H. destruct (nth j lo hi H) as (Hj & -> & ->).
    pose proof (bandStart_eq width n ltac:(lia)) as Hst.
    pose proof (bandStep_total width n ltac:(lia)) as Htot.
    pose proof (step_mono (bandStep width n) 0 j Hs ltac:(lia)) as H0.
    pose proof (step_mono (bandStep width n) (S j) n Hs ltac:(lia)) as H1.
    rewrite step_succ in H1.
    change (inject_Z (Z.of_nat 0)) with 0%Q in H0.
    set (s := bandStep width n) in *.
    set (P := (s * inject_Z (Z.of_nat j))%Q) in *.
    set (PN := (s * inject_Z (Z.of_nat n))%Q) in *.
    split; [lra|]. split; [lra|]. split; [lra|].
    exists (bandCenter width n j). split.
    + rewrite nth_error_map, nth_error_seq.
      destruct (Nat.ltb_spec j n); [|lia]. reflexivity.
    + unfold bandCenter. change (Qmin 1 (1 # 10)) with (1 # 10)%Q.
      fold s. fold P. field.
  - intros i j lo1 hi1 lo2 hi2 Hi Hj.
    destruct (nth i lo1 hi1 Hi) as (Hin & -> & ->).
    destruct (nth j lo2 hi2 Hj) as (Hjn & -> & ->).
    split; [ring|].
    intros Hij.
    pose proof (step_mono (bandStep width n) (S i) j Hs ltac:(lia)) as H1.
    rewrite step_succ in H1.
    set (s := bandStep width n) in *.
    set (P := (s * inject_Z (Z.of_nat i))%Q) in *.
    set (P' := (s * inject_Z (Z.of_nat j))%Q) in *.
    lra.
  - intros lo hi H0 lo' hi' Hl.
    destruct (nth _ lo hi H0) as (Hn & -> & ->).
    destruct (nth _ lo' hi' Hl) as (_ & -> & ->).
    pose proof (bandStart_eq width n ltac:(lia)) as Hst.
    pose proof (bandStep_total width n ltac:(lia)) as Htot.
    pose proof (step_succ (bandStep width n) (n - 1)) as Hsucc.
    replace (S (n - 1)) with n in Hsucc by lia.
    change (inject_Z (Z.of_nat 0)) with 0%Q.
    set (s := bandStep width n) in *.
    set (P := (s * inject_Z (Z.of_nat (n - 1)))%Q) in *.
    set (PN := (s * inject_Z (Z.of_nat n))%Q) in *.
    lra.
Qed.

Lemma bars_tile_the_axis_witness :
  (0 < width)%Q /\ NoDup (map day HoverSpec.scenarioBuckets) /\
  forall lo hi,
    nth_error (barSpans width HoverSpec.scenarioBuckets) 1
      = Some (Some (lo, hi)) ->
    (0 < lo)%Q /\ (lo < hi)%Q /\ (hi < width)%Q.
Proof.
  assert (Hw : (0 < width)%Q) by reflexivity.
  assert (ND : NoDup (map day HoverSpec.scenarioBuckets)).
  { repeat constructor; cbn; intuition discriminate. }
  split; [exact Hw|]. split; [exact ND|].
  intros lo hi H.
  destruct (proj1 (proj2 (bars_tile_the_axis width _ Hw ND)) 1%nat lo hi H)
    as (H1 & H2 & H3 & _).
  split; [exact H1|]. split; [exact H2|exact H3].
Defined.

End GamesPlayedChartExtra.

Module HoverExtra.
Import D3Band D3BandFacts GamesPlayed GamesPlayedHover.
Import NormalizerFacts.

Lemma nth_cumulative (dc : list DailyCount) (i : nat) (b : DailyCount) :
  nth_error dc i = Some b ->
  nth_error (cumulative dc) i
  = Some (mkCumul (day b) (sumCounts (firstn (S i) dc))).
Proof.
  intros Hb.
  assert (Hi : (i < length dc)%nat)
    by (apply nth_error_Some; congruence).
  pose proof (GamesPlayedSpec.cumulativeFrom_total dc 0) as Ht.
  pose proof (GamesPlayedSpec.cumulativeFrom_day dc 0) as Hd.
  fold (cumulative dc) in Ht, Hd.
  apply (f_equal (fun l => nth_error l i)) in Ht, Hd.
  rewrite !nth_error_map in Ht, Hd. rewrite Hb in Hd.
  rewrite nth_error_seq in Ht.
  destruct (Nat.ltb_spec i (length dc)); [|lia].
  destruct (nth_error (cumulative dc) i) as [[d t]|];
    cbn [option_map cday total Nat.add] in Ht, Hd; [|discriminate].
  inversion Ht. inversion Hd. reflexivity.
Qed.

(** X9. The [mousemove] handler of GamesPlayed.vue on a non-empty chart.
    For a positive width and buckets with distinct day numbers, every
    pointer offset resolves to an index inside the series; no band center
    is nearer to the pointer than the center at that index; the handler
    does not throw; and it writes, at that center, the running total up to
    the bucket and the bucket's own count. *)
Theorem hover_is_defined_and_nearest
    (width : Q) (dc : list DailyCount) (mx : Q) :
  (0 < width)%Q -> NoDup (map day dc) -> dc <> [] ->
  exists i b c,
    hoverIndex width dc mx = i /\
    nth_error dc i = Some b /\
    nth_error (xCenters width dc) i = Some (Some c) /\
    (forall j c', nth_error (xCenters width dc) j = Some (Some c') ->
                  (Qabs (c - mx) <= Qabs (c' - mx))%Q) /\
    mousemove width dc (cumulative dc) mx
    = Ok (mkHover (Some c) (sumCounts (firstn (S i) dc))
                  (Some c) (count b)).
Proof.
  intros Hw ND Hne.
  assert (Hn : (0 < length dc)%nat)
    by (destruct dc; [congruence|cbn [length]; lia]).
  pose proof (HoverSpec.xCenters_eq width dc Hw ND) as Hx.
  destruct (D3BandMoreFacts.center_nearest
              (bandCenter width (length dc)) (length dc) mx
              (fun i j Hij _ => bandCenter_mono width (length dc) i j Hw Hij)
              Hn) as (Hlt & Hnear).
  rewrite <- Hx in Hlt, Hnear. fold (hoverIndex width dc mx) in Hlt, Hnear.
  set (i := hoverIndex width dc mx) in *.
  destruct (nth_error dc i) as [b|] eqn:Hb;
    [|apply nth_error_None in Hb; lia].
  exists i, b, (bandCenter width (length dc) i).
  assert (Hc : nth_error (xCenters width dc) i
               = Some (Some (bandCenter width (length dc) i))).
  { rewrite Hx, nth_error_map, nth_error_seq.
    destruct (Nat.ltb_spec i (length dc)); [|lia]. reflexivity. }
  split; [reflexivity|]. split; [exact Hb|]. split; [exact Hc|].
  split.
  - intros j c' Hj. rewrite Hx, nth_error_map, nth_error_seq in Hj.
    destruct (Nat.ltb_spec j (length dc)) as [Hjn|]; [|discriminate].
    cbn [option_map Nat.add] in Hj. inversion Hj; subst c'.
    apply Hnear. exact Hjn.
  - unfold mousemove. fold i.
    rewrite (nth_cumulative dc i b Hb), Hb. cbn [cday total].
    assert (Hm : bandMiddle (scaleBand (map day dc) 0 width (1 # 10)) (day b)
                 = Some (bandCenter width (length dc) i)).
    { unfold xCenters in Hc. rewrite nth_error_map, Hb in Hc.
      cbn [option_map] in Hc. injection Hc as Hc'. unfold bandMiddle.
      exact Hc'. }
    rewrite Hm. reflexivity.
Qed.

Lemma hover_is_defined_and_nearest_witness :
  (0 < width)%Q /\ NoDup (map day HoverSpec.scenarioBuckets) /\
  HoverSpec.scenarioBuckets <> [] /\
  exists i b,
    hoverIndex width HoverSpec.scenarioBuckets 1000 = i /\
    nth_error HoverSpec.scenarioBuckets i = Some b.
Proof.
  assert (Hw : (0 < width)%Q) by reflexivity.
  assert (ND : NoDup (map day HoverSpec.scenarioBuckets)).
  { repeat constructor; cbn; intuition discriminate. }
  assert (Hne : HoverSpec.scenarioBuckets <> []) by discriminate.
  split; [exact Hw|]. split; [exact ND|]. split; [exact Hne|].
  destruct (hover_is_defined_and_nearest width _ 1000 Hw ND Hne)
    as (i & b & c & Hi & Hb & _).
  exists i, b. split; [exact Hi|exact Hb].
Defined.

(** X10. The [mousemove] handler of GamesPlayed.vue when no row has a
    date.  The builder then returns no bucket (for every fuel), and every
    pointer move over the chart throws a [TypeError]: the index resolved
    in an empty series has no element. *)
Theorem hover_without_buckets_throws (rawData : list Entry) :
  Forall nullDate rawData ->
  forall fuel, exists dc,
    dailyCounts fuel rawData = Ok dc /\
    forall (w mx : Q), mousemove w dc (cumulative dc) mx = TypeError.
Proof.
  intros Hn fuel. exists []. split.
  - unfold dailyCounts, dates.
    rewrite (GamesPlayedMoreFacts.extent_all_null rawData Hn). reflexivity.
  - intros w mx. unfold mousemove. cbn [cumulative cumulativeFrom].
    destruct (hoverIndex w [] mx); reflexivity.
Qed.

Lemma hover_without_buckets_throws_witness :
  Forall nullDate (normalize [mkRow "tomorrow" "A" "Chess"]) /\
  exists dc,
    dailyCounts 5 (normalize [mkRow "tomorrow" "A" "Chess"]) = Ok dc /\
    mousemove width dc (cumulative dc) 10 = TypeError.
Proof.
  assert (H : Forall nullDate (normalize [mkRow "tomorrow" "A" "Chess"])).
  { constructor; [reflexivity|constructor]. }
  split; [exact H|].
  destruct (hover_without_buckets_throws _ H 5%nat) as (dc & Hdc & Hm).
  exists dc. split; [exact Hdc|apply Hm].
Defined.

End HoverExtra.

Module GamesPlayedAnimatedExtra.
Import GamesPlayed GamesPlayedAnimated NormalizerFacts.

(** X11. The animated chart on a file whose rows have no parsable date.
    The 30-day fallback is taken only when there is no row at all: with at
    least one row and no date, both series are empty (for every fuel) and
    both domain maxima are [undefined], not the fallback's 10. *)
Theorem undated_rows_do_not_fall_back (fuel : nat) (rawData : list Entry) :
  rawData <> [] -> Forall nullDate rawData ->
  series fuel rawData = Ok ([], []) /\
  yBarDomain rawData [] = (0, None) /\
  yLineDomain rawData [] = (0, None).
Proof.
  intros Hne Hn.
  assert (Hlen : (0 <? length rawData)%nat = true).
  { destruct rawData; [congruence|reflexivity]. }
  unfold series, yBarDomain, yLineDomain, yBarMax, yLineMax.
  rewrite Hlen. unfold dailyCounts, dates.
  rewrite (GamesPlayedMoreFacts.extent_all_null rawData Hn).
  split; [reflexivity|]. split; reflexivity.
Qed.

Lemma undated_rows_do_not_fall_back_witness :
  loadRawData (Some [mkRow "tomorrow" "A" "Chess"]) <> [] /\
  Forall nullDate (loadRawData (Some [mkRow "tomorrow" "A" "Chess"])) /\
  series 0 (loadRawData (Some [mkRow "tomorrow" "A" "Chess"])) = Ok ([], []).
Proof.
  assert (Hne : loadRawData (Some [mkRow "tomorrow" "A" "Chess"]) <> [])
    by discriminate.
  assert (H : Forall nullDate
                (loadRawData (Some [mkRow "tomorrow" "A" "Chess"]))).
  { constructor; [reflexivity|constructor]. }
  split; [exact Hne|]. split; [exact H|].
  exact (proj1 (undated_rows_do_not_fall_back 0 _ Hne H)).
Defined.

End GamesPlayedAnimatedExtra.

(** ** Further facts about the leaderboard *)

Module LeaderboardMoreFacts.
Import JSDate Leaderboard LeaderboardFacts GamesPlayedFacts.

Lemma Zsum_perm (l l' : list Z) : Permutation l l' -> Zsum l = Zsum l'.
Proof.
  unfold Zsum. induction 1; cbn [fold_right]; lia.
Qed.

Lemma Zsum_const0 {A} (l : list A) : Zsum (map (fun _ => 0) l) = 0.
Proof. unfold Zsum. induction l; cbn [map fold_right]; lia. Qed.

Lemma Zsum_person_indicator (x : string) (ps : list string) :
  NoDup ps ->
  Zsum (map (fun p => if String.eqb x p then 1 else 0) ps)
  = if in_dec string_dec x ps then 1 else 0.
Proof.
  unfold Zsum. induction 1 as [|p ps Hp ND IH]; [reflexivity|].
  cbn [map fold_right]. rewrite IH.
  destruct (String.eqb_spec x p) as [->|Hxp].
  - destruct (in_dec string_dec p ps); [contradiction|].
    destruct (in_dec string_dec p (p :: ps)) as [_|Hn]; [reflexivity|].
    exfalso. apply Hn. left. reflexivity.
  - destruct (in_dec string_dec x ps) as [Hi|Hi];
      destruct (in_dec string_dec x (p :: ps)) as [Hj|Hj]; try reflexivity.
    + exfalso. apply Hj. right. exact Hi.
    + exfalso. destruct Hj as [E|Hj]; [congruence|contradiction].
Qed.

Lemma entriesOf_cons p e l :
  entriesOf p (e :: l)
  = (if String.eqb (Person e) p then 1 else 0) + entriesOf p l.
Proof.
  unfold entriesOf. cbn [filter].
  destruct (String.eqb (Person e) p); cbn [length]; lia.
Qed.

(** Each entry is counted for exactly one participant. *)
Lemma entriesOf_sum (ps : list string) (entries : list Entry) :
  NoDup ps -> Forall (fun e => In (Person e) ps) entries ->
  Zsum (map (fun p => entriesOf p entries) ps) = Z.of_nat (length entries).
Proof.
  intros ND. induction 1 as [|e l He _ IH].
  - unfold entriesOf. cbn [filter length]. apply Zsum_const0.
  - rewrite (map_ext _ (fun p => (if String.eqb (Person e) p then 1 else 0)
                                 + entriesOf p l))
      by (intros p; apply entriesOf_cons).
    rewrite Zsum_map_add, IH, Zsum_person_indicator by exact ND.
    destruct (in_dec string_dec (Person e) ps); [|contradiction].
    cbn [length]. lia.
Qed.

Lemma entriesOf_pos p entries :
  In p (map Person entries) -> 1 <= entriesOf p entries.
Proof.
  intros H. apply in_map_iff in H. destruct H as (e & Ee & Hin).
  unfold entriesOf.
  assert (Hf : In e (filter (fun e => String.eqb (Person e) p) entries)).
  { apply filter_In. split; [exact Hin|]. rewrite Ee. apply String.eqb_refl. }
  destruct (filter _ entries); [contradiction|cbn [length]; lia].
Qed.

Lemma daysOf_length p entries :
  Z.of_nat (length (daysOf p entries)) <= entriesOf p entries.
Proof.
  induction entries as [|e l IH]; [reflexivity|].
  rewrite entriesOf_cons. unfold daysOf in *. cbn [flat_map].
  rewrite length_app.
  destruct (String.eqb (Person e) p); [destruct (Date e)|];
    cbn [length]; lia.
Qed.

Lemma distinctDays_le p entries :
  distinctDays p entries <= entriesOf p entries.
Proof.
  pose proof (daysOf_length p entries) as H.
  unfold distinctDays.
  assert (length (nodup Z.eq_dec (daysOf p entries))
          <= length (daysOf p entries))%nat.
  { apply NoDup_incl_length; [apply NoDup_nodup|].
    intros x Hx. apply nodup_In in Hx. exact Hx. }
  lia.
Qed.

Lemma distinctDays_pos p entries :
  Forall hasDate entries -> In p (map Person entries) ->
  1 <= distinctDays p entries.
Proof.
  intros Hd H. apply in_map_iff in H. destruct H as (e & Ee & Hin).
  rewrite Forall_forall in Hd. specialize (Hd e Hin). unfold hasDate in Hd.
  destruct (Date e) as [dt|] eqn:E; [|congruence].
  assert (Hx : In (Day (time dt)) (nodup Z.eq_dec (daysOf p entries))).
  { apply nodup_In. unfold daysOf. apply in_flat_map. exists e.
    split; [exact Hin|]. rewrite Ee, String.eqb_refl, E. left. reflexivity. }
  unfold distinctDays.
  destruct (nodup Z.eq_dec (daysOf p entries)); [contradiction|].
  cbn [length]. lia.
Qed.

Lemma Forall2_map_same {A B C} (R : B -> C -> Prop) (f : A -> B) (g : A -> C)
    (l : list A) :
  (forall x, In x l -> R (f x) (g x)) -> Forall2 R (map f l) (map g l).
Proof.
  induction l as [|x l IH]; intros H; cbn [map]; constructor.
  - apply H. left. reflexivity.
  - apply IH. intros y Hy. apply H. right. exact Hy.
Qed.

Lemma totals_eq (entries : list Entry) :
  totals entries = map (fun p => mkBar p (entriesOf p entries))
                       (players entries).
Proof. reflexivity. Qed.

Lemma onMounted_dated (entries : list Entry) :
  entries <> [] -> Forall hasDate entries ->
  onMounted entries
  = Ok (Some (sort byValueDesc (totals entries),
              sort byValueDesc
                (map (fun p => mkBar p (distinctDays p entries))
                     (players entries)))).
Proof.
  intros Hne Hd. unfold onMounted. destruct entries as [|e l]; [congruence|].
  cbn [length Nat.eqb]. rewrite daysPlayed_spec by exact Hd. reflexivity.
Qed.

End LeaderboardMoreFacts.

Module LeaderboardExtra.
Import JSDate Leaderboard LeaderboardFacts GamesPlayedFacts.
Import LeaderboardMoreFacts.

(** X12. The 'Total Entries' list of the leaderboard.  For every non-empty
    set of dated entries the list has one bar per participant, valued by
    the number of entries of the participant, which is at least one; it is
    sorted by descending value, participants of equal value keep their
    first-seen order, and the values add up to the number of entries. *)
Theorem total_entries_ranking (entries : list Entry) :
  entries <> [] -> Forall hasDate entries ->
  exists total ranked,
    onMounted entries = Ok (Some (total, ranked)) /\
    Permutation total
      (map (fun p => mkBar p (entriesOf p entries)) (players entries)) /\
    NoDup (map player total) /\
    (forall p, In p (map player total) <-> In p (map Person entries)) /\
    Forall (fun b => value b = entriesOf (player b) entries /\ 1 <= value b)
           total /\
    StronglySorted (fun a b => value b <= value a) total /\
    (forall v, map player (filter (fun b => value b =? v) total)
               = filter (fun p => entriesOf p entries =? v)
                        (players entries)) /\
    fold_right Z.add 0 (map value total) = Z.of_nat (length entries).
Proof.
  intros Hne Hd.
  exists (sort byValueDesc (totals entries)),
         (sort byValueDesc (map (fun p => mkBar p (distinctDays p entries))
                                (players entries))).
  destruct (players_spec entries) as (NDp & HInp).
  pose proof (sort_perm (totals entries)) as Hperm.
  assert (Hplayers : map player (totals entries) = players entries).
  { rewrite totals_eq, map_map. cbn [player]. apply map_id. }
  split; [exact (onMounted_dated entries Hne Hd)|].
  split; [exact Hperm|].
  split.
  { apply (Permutation_NoDup (l := map player (totals entries))).
    - apply Permutation_map, Permutation_sym, Hperm.
    - rewrite Hplayers. exact NDp. }
  split.
  { intros p. rewrite <- HInp, <- Hplayers. split; apply Permutation_in.
    - apply Permutation_map, Hperm.
    - apply Permutation_map, Permutation_sym, Hperm. }
  split.
  { apply (Permutation_Forall (Permutation_sym Hperm)).
    rewrite totals_eq. apply Forall_forall. intros b Hb.
    apply in_map_iff in Hb. destruct Hb as (p & <- & Hp).
    cbn [value player]. split; [reflexivity|].
    apply entriesOf_pos, HInp, Hp. }
  split; [apply sort_sorted|].
  split.
  { intros v. rewrite sort_stable, totals_eq.
    clear. induction (players entries) as [|p l IH]; [reflexivity|].
    cbn [map filter value]. destruct (entriesOf p entries =? v);
      cbn [map player]; rewrite IH; reflexivity. }
  fold (Zsum (map value (sort byValueDesc (totals entries)))).
  rewrite (Zsum_perm _ _ (Permutation_map value Hperm)).
  rewrite totals_eq, map_map. cbn [value].
  apply entriesOf_sum; [exact NDp|].
  apply Forall_forall. intros e He. apply HInp, in_map, He.
Qed.

Lemma total_entries_ranking_witness :
  normalize LeaderboardSpec.tieRows <> [] /\
  Forall hasDate (normalize LeaderboardSpec.tieRows) /\
  exists total ranked,
    onMounted (normalize LeaderboardSpec.tieRows) = Ok (Some (total, ranked)) /\
    fold_right Z.add 0 (map value total) = 5.
Proof.
  assert (Hne : normalize LeaderboardSpec.tieRows <> []) by discriminate.
  assert (Hd : Forall hasDate (normalize LeaderboardSpec.tieRows)).
  { repeat constructor; discriminate. }
  split; [exact Hne|]. split; [exact Hd|].
  destruct (total_entries_ranking _ Hne Hd)
    as (total & ranked & HOk & _ & _ & _ & _ & _ & _ & Hsum).
  exists total, ranked. split; [exact HOk|exact Hsum].
Defined.

(** X13. Days played against entries.  For dated entries the days-played
    values are computed without an exception, in the order of the totals
    (one participant per position, before either list is sorted), and the
    number of days a participant played is at least one and at most the
    number of the participant's entries. *)
Theorem days_played_at_most_entries (entries : list Entry) :
  Forall hasDate entries ->
  exists days,
    daysPlayed entries = Ok days /\
    map player days = map player (totals entries) /\
    Forall2 (fun d t => 1 <= value d <= value t) days (totals entries).
Proof.
  intros Hd.
  exists (map (fun p => mkBar p (distinctDays p entries)) (players entries)).
  split; [exact (daysPlayed_spec entries Hd)|].
  rewrite totals_eq. split.
  - rewrite !map_map. reflexivity.
  - apply Forall2_map_same. intros p Hp. cbn [value].
    apply players_spec in Hp.
    pose proof (distinctDays_pos p entries Hd Hp).
    pose proof (distinctDays_le p entries). lia.
Qed.

Lemma days_played_at_most_entries_witness :
  Forall hasDate (normalize LeaderboardSpec.tieRows) /\
  exists days,
    daysPlayed (normalize LeaderboardSpec.tieRows) = Ok days /\
    Forall2 (fun d t => 1 <= value d <= value t) days
            (totals (normalize LeaderboardSpec.tieRows)).
Proof.
  assert (Hd : Forall hasDate (normalize LeaderboardSpec.tieRows)).
  { repeat constructor; discriminate. }
  split; [exact Hd|].
  destruct (days_played_at_most_entries _ Hd) as (days & HOk & _ & H).
  exists days. split; [exact HOk|exact H].
Defined.

(** X14. The three ways [onMounted] of the leaderboard ends.  It returns
    early, drawing nothing, exactly when there is no entry; it throws a
    [TypeError] exactly when some entry has no date (one such row costs
    both charts, the 'Total Entries' chart included); and it hands two
    lists to [drawBarChart] exactly when there are entries and all are
    dated. *)
Theorem leaderboard_outcomes (entries : list Entry) :
  (onMounted entries = Ok None <-> entries = []) /\
  (onMounted entries = TypeError
   <-> Exists (fun e => Date e = None) entries) /\
  ((exists total ranked, onMounted entries = Ok (Some (total, ranked)))
   <-> entries <> [] /\ Forall hasDate entries).
Proof.
  destruct entries as [|e0 rest].
  - split; [|split].
    + split; reflexivity.
    + split; [discriminate|]. intros H. inversion H.
    + split; [intros (t & r & H); discriminate|].
      intros [H _]. congruence.
  - destruct (GamesPlayedMoreFacts.dated_or_null (e0 :: rest)) as [Hd|Hn].
    + pose proof (onMounted_dated (e0 :: rest) ltac:(discriminate) Hd) as HOk.
      split; [|split].
      * split; [rewrite HOk|]; discriminate.
      * split; [rewrite HOk; discriminate|].
        intros Hn. exfalso.
        apply Exists_exists in Hn. destruct Hn as (e & He & Hnone).
        rewrite Forall_forall in Hd. exact (Hd e He Hnone).
      * split; [intros _; split; [discriminate|exact Hd]|].
        intros _. eauto.
    + pose proof (onMounted_null (e0 :: rest) Hn) as HErr.
      split; [|split].
      * split; [rewrite HErr|]; discriminate.
      * split; [intros _; exact Hn|intros _; exact HErr].
      * split; [intros (t & r & H); rewrite HErr in H; discriminate|].
        intros [_ Hd]. exfalso.
        apply Exists_exists in Hn. destruct Hn as (e & He & Hnone).
        rewrite Forall_forall in Hd. exact (Hd e He Hnone).
Qed.

End LeaderboardExtra.

(** ** Facts about the linear scale and the leaderboard's bars *)

Module D3LinearFacts.
Import D3Band D3BandFacts D3Linear.

(** On a domain [[0, m]] with [m] positive and a range [[0, w]] the scale
    is the proportion [w * x / m]. *)
Lemma scale_proportion (m w x : Q) :
  (0 < m)%Q -> (scale 0 m 0 w x * m == w * x)%Q.
Proof.
  intros Hm. unfold scale.
  destruct (Qltb_spec m 0) as [Hc|_]; [lra|].
  unfold normalize, interpolate.
  destruct (Qeq_bool (m - 0) 0) eqn:E.
  - apply Qeq_bool_iff in E. lra.
  - field. lra.
Qed.

End D3LinearFacts.

Module LeaderboardChartExtra.
Import D3LinearFacts Leaderboard LeaderboardFacts LeaderboardChart.
Import LeaderboardMoreFacts.

Lemma Qmult_le_cancel (a b m : Q) :
  (0 < m)%Q -> (a * m <= b * m)%Q -> (a <= b)%Q.
Proof. intros Hm H. apply (Qmult_le_r _ _ m Hm). exact H. Qed.

Lemma Qmult_lt_cancel (a b m : Q) :
  (0 < m)%Q -> (a * m < b * m)%Q -> (a < b)%Q.
Proof. intros Hm H. apply (Qmult_lt_r _ _ m Hm). exact H. Qed.

(** The widths of the bars of a list sorted by descending positive
    values. *)
Lemma barWidths_sorted (data : list Bar) :
  data <> [] -> Forall (fun b => 1 <= value b) data ->
  StronglySorted (fun a b => value b <= value a) data ->
  exists m ws,
    D3Array.max (map value data) = Some m /\ 1 <= m /\
    barWidths data = Some ws /\
    length ws = length data /\
    (forall j b w, nth_error data j = Some b -> nth_error ws j = Some w ->
       (w * inject_Z m == width * inject_Z (value b))%Q /\
       (0 < w)%Q /\ (w <= width)%Q /\
       (value b = m -> (w == width)%Q)) /\
    (forall w, nth_error ws 0 = Some w -> (w == width)%Q) /\
    (forall i j wi wj, (i <= j)%nat ->
       nth_error ws i = Some wi -> nth_error ws j = Some wj ->
       (wj <= wi)%Q).
Proof.
  intros Hne Hpos Hs.
  destruct (D3ArrayFacts.max_spec (map value data)) as (m & Hm & Hin & Hall).
  { destruct data; [congruence|discriminate]. }
  rewrite Forall_map in Hall.
  assert (Hm1 : 1 <= m).
  { apply in_map_iff in Hin. destruct Hin as (b & <- & Hb).
    rewrite Forall_forall in Hpos. exact (Hpos b Hb). }
  assert (HmQ : (0 < inject_Z m)%Q).
  { change 0%Q with (inject_Z 0). rewrite <- Zlt_Qlt. lia. }
  assert (Hw : (0 < width)%Q) by reflexivity.
  set (ws := map (fun d => D3Linear.scale 0 (inject_Z m) 0 width (inject_Z (value d)))
                 data).
  assert (Hnth : forall j b w, nth_error data j = Some b ->
            nth_error ws j = Some w ->
            (w * inject_Z m == width * inject_Z (value b))%Q).
  { intros j b w Hb Hwj. subst ws. rewrite nth_error_map, Hb in Hwj.
    cbn [option_map] in Hwj. inversion Hwj.
    apply scale_proportion. exact HmQ. }
  assert (Hbound : forall j b, nth_error data j = Some b -> 1 <= value b <= m).
  { intros j b Hb. apply nth_error_In in Hb.
    rewrite Forall_forall in Hpos, Hall.
    split; [exact (Hpos b Hb)|exact (Hall b Hb)]. }
  assert (Hfirst : forall b, nth_error data 0 = Some b -> value b = m).
  { intros b Hb. destruct data as [|b0 rest]; [discriminate|].
    cbn [nth_error] in Hb. inversion Hb; subst b0.
    inversion Hs as [|? ? _ Hb0]; subst.
    apply in_map_iff in Hin. destruct Hin as (b' & <- & [<-|Hb']);
      [reflexivity|].
    rewrite Forall_forall in Hb0, Hall. specialize (Hb0 b' Hb').
    specialize (Hall b (or_introl eq_refl)). cbn beta in *. lia. }
  exists m, ws. split; [exact Hm|]. split; [exact Hm1|].
  split; [unfold barWidths; rewrite Hm; reflexivity|].
  split; [subst ws; apply length_map|].
  split; [|split].
  - intros j b w Hb Hwj. pose proof (Hnth j b w Hb Hwj) as Hp.
    destruct (Hbound j b Hb) as [Hb1 Hbm].
    assert (Hv : (0 < inject_Z (value b))%Q).
    { change 0%Q with (inject_Z 0). rewrite <- Zlt_Qlt. lia. }
    assert (Hvm : (inject_Z (value b) <= inject_Z m)%Q)
      by (rewrite <- Zle_Qle; exact Hbm).
    split; [exact Hp|]. split; [|split].
    + apply (Qmult_lt_cancel _ _ (inject_Z m) HmQ). rewrite Hp.
      setoid_replace (0 * inject_Z m)%Q with (width * 0)%Q by ring.
      apply Qmult_lt_l; [exact Hw|exact Hv].
    + apply (Qmult_le_cancel _ _ (inject_Z m) HmQ). rewrite Hp.
      apply Qmult_le_l; [exact Hw|exact Hvm].
    + intros E. rewrite E in Hp.
      apply (Qmult_inj_r _ _ (inject_Z m)); [lra|exact Hp].
  - intros w Hw0.
    destruct (nth_error data 0) as [b|] eqn:Hb.
    + pose proof (Hnth 0%nat b w Hb Hw0) as Hp.
      rewrite (Hfirst b eq_refl) in Hp.
      apply (Qmult_inj_r _ _ (inject_Z m)); [lra|exact Hp].
    + subst ws. rewrite nth_error_map, Hb in Hw0. discriminate.
  - intros i j wi wj Hij Hi Hj.
    destruct (nth_error data i) as [bi|] eqn:Hbi;
      [|subst ws; rewrite nth_error_map, Hbi in Hi; discriminate].
    destruct (nth_error data j) as [bj|] eqn:Hbj;
      [|subst ws; rewrite nth_error_map, Hbj in Hj; discriminate].
    pose proof (Hnth i bi wi Hbi Hi) as Hpi.
    pose proof (Hnth j bj wj Hbj Hj) as Hpj.
    assert (Hle : value bj <= value bi).
    { destruct (Nat.eq_dec i j) as [->|Hneq].
      - rewrite Hbi in Hbj. inversion Hbj. lia.
      - clear - Hs Hbi Hbj Hij Hneq.
        revert i j Hij Hneq Hbi Hbj.
        induction Hs as [|b l Hsl IH Hb]; intros i j Hij Hneq Hbi Hbj.
        + destruct i; discriminate.
        + destruct i as [|i], j as [|j]; try lia; cbn [nth_error] in *.
          * inversion Hbi; subst. apply nth_error_In in Hbj.
            rewrite Forall_forall in Hb. exact (Hb bj Hbj).
          * apply (IH i j); [lia|lia|exact Hbi|exact Hbj]. }
    apply (Qmult_le_cancel _ _ (inject_Z m) HmQ). rewrite Hpi, Hpj.
    apply Qmult_le_l; [exact Hw|]. rewrite <- Zle_Qle. exact Hle.
Qed.

(** X15. The bars drawn by [drawBarChart] for the two lists of the
    leaderboard.  For every non-empty set of dated entries, both lists
    get their bar widths; in each chart the width of a bar is the chart
    width times the bar's value over the largest value, so every bar is
    wider than 0 and at most 300 wide, the first bar is exactly 300 wide,
    and widths do not increase down the chart. *)
Theorem leaderboard_bar_widths (entries : list Entry) :
  entries <> [] -> Forall hasDate entries ->
  exists total ranked,
    onMounted entries = Ok (Some (total, ranked)) /\
    Forall (fun data =>
      exists m ws,
        D3Array.max (map value data) = Some m /\ 1 <= m /\
        barWidths data = Some ws /\
        length ws = length data /\
        (forall j b w, nth_error data j = Some b -> nth_error ws j = Some w ->
           (w * inject_Z m == 300 * inject_Z (value b))%Q /\
           (0 < w)%Q /\ (w <= 300)%Q) /\
        (forall w, nth_error ws 0 = Some w -> (w == 300)%Q) /\
        (forall i j wi wj, (i <= j)%nat ->
           nth_error ws i = Some wi -> nth_error ws j = Some wj ->
           (wj <= wi)%Q))
      [total; ranked].
Proof.
  intros Hne Hd.
  destruct (players_spec entries) as (NDp & HInp).
  assert (Hpl : players entries <> []).
  { destruct entries as [|e l]; [congruence|].
    assert (H : In (Person e) (players (e :: l)))
      by (apply HInp; left; reflexivity).
    destruct (players (e :: l)); [contradiction|discriminate]. }
  assert (Hw300 : (width == 300)%Q) by reflexivity.
  assert (Hgen : forall f : string -> Z,
            (forall p, In p (players entries) -> 1 <= f p) ->
            exists m ws,
              let data := sort byValueDesc
                            (map (fun p => mkBar p (f p)) (players entries)) in
              D3Array.max (map value data) = Some m /\ 1 <= m /\
              barWidths data = Some ws /\
              length ws = length data /\
              (forall j b w, nth_error data j = Some b ->
                 nth_error ws j = Some w ->
                 (w * inject_Z m == 300 * inject_Z (value b))%Q /\
                 (0 < w)%Q /\ (w <= 300)%Q) /\
              (forall w, nth_error ws 0 = Some w -> (w == 300)%Q) /\
              (forall i j wi wj, (i <= j)%nat ->
                 nth_error ws i = Some wi -> nth_error ws j = Some wj ->
                 (wj <= wi)%Q)).
  { intros f Hf.
    set (bars := map (fun p => mkBar p (f p)) (players entries)).
    pose proof (sort_perm bars) as Hperm.
    destruct (barWidths_sorted (sort byValueDesc bars))
      as (m & ws & Hm & Hm1 & Hws & Hlen & Hnth & Hfirst & Hmono).
    - intros E. rewrite E in Hperm. apply Permutation_nil in Hperm.
      subst bars. destruct (players entries); [congruence|discriminate].
    - apply (Permutation_Forall (Permutation_sym Hperm)).
      subst bars. apply Forall_forall. intros b Hb.
      apply in_map_iff in Hb. destruct Hb as (p & <- & Hp). apply Hf, Hp.
    - apply sort_sorted.
    - exists m, ws. cbn zeta.
      split; [exact Hm|]. split; [exact Hm1|]. split; [exact Hws|].
      split; [exact Hlen|]. split; [|split].
      + intros j b w Hb Hwj.
        destruct (Hnth j b w Hb Hwj) as (H1 & H2 & H3 & _).
        rewrite Hw300 in H1, H3. split; [exact H1|]. split; assumption.
      + intros w H0. rewrite <- Hw300. apply Hfirst, H0.
      + exact Hmono. }
  exists (sort byValueDesc (totals entries)),
         (sort byValueDesc (map (fun p => mkBar p (distinctDays p entries))
                                (players entries))).
  split; [exact (onMounted_dated entries Hne Hd)|].
  constructor; [|constructor; [|constructor]].
  - rewrite totals_eq. apply (Hgen (fun p => entriesOf p entries)).
    intros p Hp. apply entriesOf_pos, HInp, Hp.
  - apply (Hgen (fun p => distinctDays p entries)).
    intros p Hp. apply distinctDays_pos; [exact Hd|apply HInp, Hp].
Qed.

Lemma leaderboard_bar_widths_witness :
  normalize LeaderboardSpec.tieRows <> [] /\
  Forall hasDate (normalize LeaderboardSpec.tieRows) /\
  exists total ranked,
    onMounted (normalize LeaderboardSpec.tieRows) = Ok (Some (total, ranked)) /\
    exists ws, barWidths total = Some ws /\ length ws = length total.
Proof.
  assert (Hne : normalize LeaderboardSpec.tieRows <> []) by discriminate.
  assert (Hd : Forall hasDate (normalize LeaderboardSpec.tieRows)).
  { repeat constructor; discriminate. }
  split; [exact Hne|]. split; [exact Hd|].
  destruct (leaderboard_bar_widths _ Hne Hd) as (total & ranked & HOk & HF).
  exists total, ranked. split; [exact HOk|].
  inversion HF as [|? ? (m & ws & _ & _ & Hws & Hlen & _) _].
  exists ws. split; [exact Hws|exact Hlen].
Defined.

End LeaderboardChartExtra.

(** ** Further facts about [d3.rollup] and the sort of the selector *)

Module RollupMoreFacts.
Import GamesPlayedFacts LeaderboardMoreFacts.

Section Keys.
Context {A K : Type} (eqb : K -> K -> bool).
Hypothesis eqb_spec : forall a b, reflect (a = b) (eqb a b).
Variable key : A -> K.
Variable keyof : A -> result K.

Lemma has_keys_set {V} (m : @JsMap.t K V) k :
  JsMap.has eqb m k = JsSet.has eqb (JsMap.keys m) k.
Proof.
  unfold JsMap.has, JsSet.has.
  induction m as [|[k' v] m IH]; cbn [JsMap.get JsMap.keys map existsb fst];
    [reflexivity|].
  destruct (eqb_spec k' k) as [->|Hne].
  - destruct (eqb_spec k k); [reflexivity|congruence].
  - destruct (eqb_spec k k') as [E|_]; [congruence|]. exact IH.
Qed.

(** The keys of the groups are the keys of the values in first-seen
    order. *)
Lemma groupLoop_keys (values : list A) :
  (forall v, In v values -> keyof v = Ok (key v)) ->
  forall groups G,
    D3Array.groupLoop eqb keyof values groups = Ok G ->
    JsMap.keys G
    = fold_left (JsSet.add eqb) (map key values) (JsMap.keys groups).
Proof.
  induction values as [|v vs IH]; intros Hk groups G HG;
    cbn [D3Array.groupLoop map fold_left] in *.
  - inversion HG. reflexivity.
  - rewrite (Hk v (or_introl eq_refl)) in HG. cbn [bind] in HG.
    rewrite (IH (fun x Hx => Hk x (or_intror Hx)) _ G HG). f_equal.
    unfold JsSet.add. rewrite <- has_keys_set.
    destruct (JsMap.get eqb groups (key v));
      apply (JsMapFacts.keys_set eqb eqb_spec).
Qed.

End Keys.

(** Each element is counted under exactly one key. *)
Lemma count_by_key_sum {A} (f : A -> string) (ps : list string) (l : list A) :
  NoDup ps -> Forall (fun e => In (f e) ps) l ->
  Zsum (map (fun p => Z.of_nat (length (filter
                        (fun e => String.eqb (f e) p) l))) ps)
  = Z.of_nat (length l).
Proof.
  intros ND. induction 1 as [|e l He _ IH].
  - cbn [filter length]. apply Zsum_const0.
  - rewrite (map_ext _ (fun p =>
        (if String.eqb (f e) p then 1 else 0)
        + Z.of_nat (length (filter (fun e => String.eqb (f e) p) l)))).
    + rewrite Zsum_map_add, IH, Zsum_person_indicator by exact ND.
      destruct (in_dec string_dec (f e) ps); [|contradiction].
      cbn [length]. lia.
    + intros p. cbn [filter].
      destruct (String.eqb (f e) p); cbn [length]; lia.
Qed.

Lemma count_by_key_pos {A} (f : A -> string) (p : string) (l : list A) :
  In p (map f l) ->
  1 <= Z.of_nat (length (filter (fun e => String.eqb (f e) p) l)).
Proof.
  intros H. apply in_map_iff in H. destruct H as (e & Ee & Hin).
  assert (Hf : In e (filter (fun e => String.eqb (f e) p) l)).
  { apply filter_In. split; [exact Hin|]. rewrite Ee. apply String.eqb_refl. }
  destruct (filter _ l); [contradiction|cbn [length]; lia].
Qed.

Lemma of_list_length_le (xs : list string) :
  (length (JsSet.of_list String.eqb xs) <= length xs)%nat.
Proof.
  destruct (JsSetFacts.of_list_spec String.eqb String.eqb_spec xs)
    as (ND & HIn).
  apply NoDup_incl_length; [exact ND|]. intros x Hx. apply HIn, Hx.
Qed.

Lemma of_list_nonempty (xs : list string) :
  xs <> [] -> JsSet.of_list String.eqb xs <> [].
Proof.
  intros Hne E. destruct xs as [|x xs]; [congruence|].
  destruct (JsSetFacts.of_list_spec String.eqb String.eqb_spec (x :: xs))
    as (_ & HIn).
  rewrite E in HIn. apply (HIn x). left. reflexivity.
Qed.

End RollupMoreFacts.

Module GamesBreakdownMoreFacts.
Import GamesBreakdown GamesBreakdownFacts GamesPlayedFacts.
Import RollupMoreFacts LeaderboardMoreFacts.

Lemma aggregate_spec (dataArray : list RawRow) :
  aggregate dataArray
  = Ok (map (fun g => mkDatum g (rowsOfGame g dataArray))
            (JsSet.of_list String.eqb (map rowGame dataArray))).
Proof.
  unfold aggregate, D3Array.rollup.
  destruct (D3ArrayFacts.groupLoop_spec String.eqb String.eqb_spec rowGame
              (fun d => Ok (rowGame d)) dataArray (fun v _ => eq_refl) []
              (NoDup_nil _)) as (G & HG & ND & Hget).
  pose proof (groupLoop_keys String.eqb String.eqb_spec rowGame
                (fun d => Ok (rowGame d)) dataArray (fun v _ => eq_refl)
                [] G HG) as Hkeys.
  cbn [JsMap.keys map] in Hkeys. fold (JsSet.of_list String.eqb
                                        (map rowGame dataArray)) in Hkeys.
  rewrite HG. cbn [bind]. f_equal. rewrite map_map. cbn [fst snd].
  rewrite <- Hkeys. unfold JsMap.keys. rewrite map_map.
  apply map_ext_in. intros [k g] HIn. cbn [fst snd]. f_equal.
  apply (JsMapFacts.In_get String.eqb String.eqb_spec _ _ _ ND) in HIn.
  rewrite Hget in HIn. cbn [JsMap.get] in HIn.
  unfold rowsOfGame. fold (D3ArrayFacts.groupOf String.eqb rowGame k dataArray).
  destruct (D3ArrayFacts.groupOf String.eqb rowGame k dataArray);
    [discriminate|].
  inversion HIn. reflexivity.
Qed.

Lemma length_arcsLoop (k pa p : R) (data : list Datum) : forall a0 i,
  length (arcsLoop k pa p a0 i data) = length data.
Proof.
  induction data as [|d l IH]; intros a0 i; cbn [arcsLoop length];
    [reflexivity|].
  rewrite IH. reflexivity.
Qed.

Lemma length_pie (data : list Datum) : length (pie data) = length data.
Proof. unfold pie. apply length_arcsLoop. Qed.

Lemma total_Zsum (data : list Datum) : total data = Zsum (map value data).
Proof. unfold total. rewrite total_fold. unfold Zsum. lia. Qed.

End GamesBreakdownMoreFacts.

Module GamesBreakdownExtra.
Import GamesBreakdown GamesBreakdownFacts GamesPlayedFacts.
Import RollupMoreFacts LeaderboardMoreFacts GamesBreakdownMoreFacts.

(** X16. The aggregation of GamesBreakdown.vue.  [d3.rollup] by game never
    throws; it yields one datum per distinct game, in the order in which
    the games first appear in the rows; the value of a datum is the number
    of rows of its game, which is at least one; and [d3.sum] of the values
    is the number of rows. *)
Theorem aggregate_counts_by_game (dataArray : list RawRow) :
  exists data,
    aggregate dataArray = Ok data /\
    map key data = JsSet.of_list String.eqb (map rowGame dataArray) /\
    NoDup (map key data) /\
    (forall g, In g (map key data) <-> In g (map rowGame dataArray)) /\
    Forall (fun d => value d = rowsOfGame (key d) dataArray /\ 1 <= value d)
           data /\
    total data = Z.of_nat (length dataArray).
Proof.
  eexists. split; [apply aggregate_spec|].
  destruct (JsSetFacts.of_list_spec String.eqb String.eqb_spec
              (map rowGame dataArray)) as (ND & HIn).
  assert (Hkeys : map key (map (fun g => mkDatum g (rowsOfGame g dataArray))
                    (JsSet.of_list String.eqb (map rowGame dataArray)))
                  = JsSet.of_list String.eqb (map rowGame dataArray)).
  { rewrite map_map. cbn [key]. apply map_id. }
  rewrite Hkeys.
  split; [reflexivity|]. split; [exact ND|]. split; [exact HIn|]. split.
  - apply Forall_forall. intros d Hd. apply in_map_iff in Hd.
    destruct Hd as (g & <- & Hg). cbn [key value].
    split; [reflexivity|]. apply count_by_key_pos, HIn, Hg.
  - rewrite total_Zsum, map_map. cbn [value].
    apply count_by_key_sum; [exact ND|].
    apply Forall_forall. intros r Hr. apply HIn, in_map, Hr.
Qed.

End GamesBreakdownExtra.

(** ** Facts about the default sort of the player selector *)

Module PlayerSelectFacts.
Import Leaderboard PlayerSelect.

Lemma insert_perm_any {A} (cmp : A -> A -> Z) (x : A) (l : list A) :
  Permutation (insert cmp x l) (x :: l).
Proof.
  induction l as [|y l IH]; cbn [insert]; [reflexivity|].
  destruct (cmp x y <=? 0); [reflexivity|].
  rewrite IH. apply perm_swap.
Qed.

Lemma sort_perm_any {A} (cmp : A -> A -> Z) (l : list A) :
  Permutation (sort cmp l) l.
Proof.
  induction l as [|x l IH]; cbn [sort fold_right]; [reflexivity|].
  fold (sort cmp l). rewrite insert_perm_any. constructor. exact IH.
Qed.

Lemma ascii_compare_spec (a b : ascii) :
  CompareSpec (a = b) (N_of_ascii a < N_of_ascii b)%N
              (N_of_ascii b < N_of_ascii a)%N (Ascii.compare a b).
Proof.
  unfold Ascii.compare.
  destruct (N.compare_spec (N_of_ascii a) (N_of_ascii b)) as [E|L|G];
    constructor; try assumption.
  rewrite <- (ascii_N_embedding a), <- (ascii_N_embedding b), E.
  reflexivity.
Qed.

Lemma leb_cons (c1 c2 : ascii) (s1 s2 : string) :
  String.leb (String c1 s1) (String c2 s2)
  = match Ascii.compare c1 c2 with
    | Eq => String.leb s1 s2
    | Lt => true
    | Gt => false
    end.
Proof.
  unfold String.leb. cbn [String.compare].
  destruct (Ascii.compare c1 c2); reflexivity.
Qed.

(** The order by code units is transitive. *)
Lemma leb_trans (a : string) : forall b c,
  String.leb a b = true -> String.leb b c = true -> String.leb a c = true.
Proof.
  induction a as [|c1 a IH]; intros b c Hab Hbc.
  - destruct c; reflexivity.
  - destruct b as [|c2 b]; [discriminate|].
    destruct c as [|c3 c]; [discriminate|].
    rewrite leb_cons in *.
    destruct (ascii_compare_spec c1 c2) as [E12|L12|G12];
      [subst c2| |discriminate].
    + destruct (Ascii.compare c1 c3);
        [exact (IH b c Hab Hbc)|reflexivity|discriminate].
    + destruct (ascii_compare_spec c2 c3) as [E23|L23|G23];
        [subst c3| |discriminate].
      * destruct (ascii_compare_spec c1 c2) as [E|L|G];
          [subst c2; lia|reflexivity|lia].
      * destruct (ascii_compare_spec c1 c3) as [E|L|G];
          [subst c3; lia|reflexivity|lia].
Qed.

Lemma defaultCompare_leb (a b : string) :
  (defaultCompare a b <=? 0) = String.leb a b.
Proof.
  unfold defaultCompare, String.leb.
  destruct (String.compare a b); reflexivity.
Qed.

Lemma insert_sorted_default (x : string) (l : list string) :
  StronglySorted (fun a b => String.leb a b = true) l ->
  StronglySorted (fun a b => String.leb a b = true)
                 (insert defaultCompare x l).
Proof.
  induction 1 as [|y l Hs IH Hy]; cbn [insert].
  - repeat constructor.
  - rewrite defaultCompare_leb. destruct (String.leb x y) eqn:E.
    + constructor; [constructor; assumption|].
      constructor; [exact E|]. eapply Forall_impl; [|exact Hy].
      cbn beta. intros z Hz. exact (leb_trans x y z E Hz).
    + constructor; [exact IH|].
      apply (Permutation_Forall
               (Permutation_sym (insert_perm_any defaultCompare x l))).
      constructor; [|exact Hy].
      destruct (String.leb_total x y) as [H|H]; [congruence|exact H].
Qed.

Lemma sort_sorted_default (l : list string) :
  StronglySorted (fun a b => String.leb a b = true) (sort defaultCompare l).
Proof.
  induction l as [|x l IH]; cbn [sort fold_right]; [constructor|].
  apply insert_sorted_default. exact IH.
Qed.

Lemma players_perm (persons : list string) :
  Permutation (players persons) (JsSet.of_list String.eqb persons).
Proof. apply sort_perm_any. Qed.

Lemma In_players (persons : list string) (p : string) :
  In p (players persons) <-> In p persons.
Proof.
  destruct (JsSetFacts.of_list_spec String.eqb String.eqb_spec persons)
    as (_ & HIn).
  rewrite <- HIn. split; apply Permutation_in;
    [apply players_perm|apply Permutation_sym, players_perm].
Qed.

End PlayerSelectFacts.

Module PlayerSelectExtra.
Import Leaderboard PlayerSelect PlayerSelectFacts.

(** X17. The options of the player selector of GamesCalendar.vue and
    GamesBreakdown.vue.  [Array.from(new Set(persons)).sort()] lists
    exactly the persons of the rows, each once, in ascending order of
    their code units; a name that is smaller in that order never comes
    after a larger one, whatever the order of the rows. *)
Theorem player_options_sorted (persons : list string) :
  NoDup (players persons) /\
  (forall p, In p (players persons) <-> In p persons) /\
  StronglySorted (fun a b => String.leb a b = true) (players persons) /\
  (forall i j a b, (i < j)%nat ->
     nth_error (players persons) i = Some a ->
     nth_error (players persons) j = Some b ->
     String.ltb a b = true) /\
  (forall persons', Permutation persons persons' ->
     players persons' = players persons).
Proof.
  destruct (JsSetFacts.of_list_spec String.eqb String.eqb_spec persons)
    as (ND & HIn).
  assert (NDp : NoDup (players persons)).
  { apply (Permutation_NoDup (Permutation_sym (players_perm persons))).
    exact ND. }
  pose proof (sort_sorted_default (JsSet.of_list String.eqb persons)) as Hs.
  fold (players persons) in Hs.
  assert (Hlt : forall l, NoDup l ->
            StronglySorted (fun a b => String.leb a b = true) l ->
            forall i j a b, (i < j)%nat ->
              nth_error l i = Some a -> nth_error l j = Some b ->
              String.ltb a b = true).
  { intros l NDl Hsl. induction Hsl as [|x l Hsl IH Hx];
      intros i j a b Hij Ha Hb.
    - destruct i; discriminate.
    - inversion NDl as [|? ? Hnx NDl']; subst.
      destruct j as [|j]; [lia|]. cbn [nth_error] in Hb.
      destruct i as [|i]; cbn [nth_error] in Ha.
      + inversion Ha; subst a. apply nth_error_In in Hb.
        rewrite Forall_forall in Hx. specialize (Hx b Hb).
        unfold String.leb in Hx. unfold String.ltb.
        destruct (String.compare x b) eqn:E;
          [|reflexivity|discriminate].
        apply String.compare_eq_iff in E. subst b. contradiction.
      + apply (IH NDl' i j); [lia|exact Ha|exact Hb]. }
  split; [exact NDp|]. split; [apply In_players|]. split; [exact Hs|].
  split; [exact (Hlt _ NDp Hs)|].
  intros persons' Hperm.
  assert (NDp' : NoDup (players persons')).
  { apply (Permutation_NoDup (Permutation_sym (players_perm persons'))).
    apply (JsSetFacts.of_list_spec String.eqb String.eqb_spec). }
  pose proof (sort_sorted_default (JsSet.of_list String.eqb persons')) as Hs'.
  fold (players persons') in Hs'.
  assert (Hsame : forall p, In p (players persons') <-> In p (players persons)).
  { intros p. rewrite !In_players. split; apply Permutation_in;
      [apply Permutation_sym, Hperm|exact Hperm]. }
  revert NDp NDp' Hs Hs' Hsame.
  generalize (players persons) as l. generalize (players persons') as l'.
  induction l' as [|x l' IH]; intros l NDl NDl' Hsl Hsl' Hsame.
  - destruct l as [|y l]; [reflexivity|].
    exfalso. apply (Hsame y). left. reflexivity.
  - destruct l as [|y l].
    { exfalso. apply (Hsame x). left. reflexivity. }
    inversion NDl as [|? ? Hny NDl1]; subst.
    inversion NDl' as [|? ? Hnx NDl'1]; subst.
    inversion Hsl as [|? ? Hsl1 Hy]; subst.
    inversion Hsl' as [|? ? Hsl'1 Hx]; subst.
    rewrite Forall_forall in Hx, Hy.
    assert (Exy : x = y).
    { destruct (proj1 (Hsame x) (or_introl eq_refl)) as [E|Hxl];
        [congruence|].
      destruct (proj2 (Hsame y) (or_introl eq_refl)) as [E|Hyl'];
        [congruence|].
      apply String.leb_antisym; [apply Hx, Hyl'|apply Hy, Hxl]. }
    subst y. f_equal. apply IH; try assumption.
    intros p. split; intros Hp.
    + destruct (proj1 (Hsame p) (or_intror Hp)) as [E|H]; [|exact H].
      subst p. contradiction.
    + destruct (proj2 (Hsame p) (or_intror Hp)) as [E|H]; [|exact H].
      subst p. contradiction.
Qed.

End PlayerSelectExtra.

(** ** The numbers of GameStats.vue and the selected player *)

Module SelectionFacts.
Import RollupMoreFacts.

Lemma Person_normalize (data : list RawRow) :
  map Person (normalize data) = map rowPerson data.
Proof. unfold normalize. rewrite map_map. reflexivity. Qed.

Lemma filter_filter {A} (f g : A -> bool) (l : list A) :
  filter f (filter g l) = filter (fun x => g x && f x) l.
Proof.
  induction l as [|x l IH]; [reflexivity|]. cbn [filter].
  destruct (g x); cbn [filter andb]; rewrite IH; reflexivity.
Qed.

Lemma filter_nonempty {A} (f : A -> bool) (l : list A) (x : A) :
  In x l -> f x = true -> filter f l <> [].
Proof.
  intros Hx Hf E.
  assert (H : In x (filter f l)) by (apply filter_In; split; assumption).
  rewrite E in H. exact H.
Qed.

Lemma aggregate_full (dataArray : list RawRow) :
  exists data,
    GamesBreakdown.aggregate dataArray = Ok data /\
    map GamesBreakdown.key data
      = JsSet.of_list String.eqb (map rowGame dataArray) /\
    NoDup (map GamesBreakdown.key data) /\
    (forall g, In g (map GamesBreakdown.key data)
               <-> In g (map rowGame dataArray)) /\
    Forall (fun d => GamesBreakdown.value d
                     = rowsOfGame (GamesBreakdown.key d) dataArray /\
                     1 <= GamesBreakdown.value d) data /\
    GamesBreakdown.total data = Z.of_nat (length dataArray).
Proof.
  eexists. split; [apply GamesBreakdownMoreFacts.aggregate_spec|].
  destruct (JsSetFacts.of_list_spec String.eqb String.eqb_spec
              (map rowGame dataArray)) as (ND & HIn).
  assert (Hkeys : map GamesBreakdown.key
                    (map (fun g => GamesBreakdown.mkDatum g
                                     (rowsOfGame g dataArray))
                       (JsSet.of_list String.eqb (map rowGame dataArray)))
                  = JsSet.of_list String.eqb (map rowGame dataArray)).
  { rewrite map_map. cbn [GamesBreakdown.key]. apply map_id. }
  rewrite Hkeys.
  split; [reflexivity|]. split; [exact ND|]. split; [exact HIn|]. split.
  - apply Forall_forall. intros d Hd. apply in_map_iff in Hd.
    destruct Hd as (g & <- & Hg). cbn [GamesBreakdown.key GamesBreakdown.value].
    split; [reflexivity|]. apply count_by_key_pos, HIn, Hg.
  - rewrite GamesBreakdownMoreFacts.total_Zsum, map_map.
    cbn [GamesBreakdown.value].
    apply count_by_key_sum; [exact ND|].
    apply Forall_forall. intros r Hr. apply HIn, in_map, Hr.
Qed.

End SelectionFacts.

Module GameStatsExtra.
Import GameStats RollupMoreFacts SelectionFacts.

(** X18. The three numbers of GameStats.vue against the charts drawn from
    the same rows.  'Unique Players' and 'Game Types' are at most 'Games
    Logged', and at least one when there is a row; 'Unique Players' is the
    number of options of the player selector and, whenever the leaderboard
    draws, the number of bars of each of its two charts; 'Game Types' is
    the number of slices of the breakdown of all rows, whenever it draws. *)
Theorem stats_match_the_charts (data : list RawRow) :
  0 <= playersCount data <= gamesCount data /\
  0 <= typesCount data <= gamesCount data /\
  (data <> [] -> 1 <= playersCount data /\ 1 <= typesCount data) /\
  Z.of_nat (length (PlayerSelect.players (map rowPerson data)))
    = playersCount data /\
  (forall t d, Leaderboard.onMounted (normalize data) = Ok (Some (t, d)) ->
     Z.of_nat (length t) = playersCount data /\
     Z.of_nat (length d) = playersCount data) /\
  (forall arcs, GamesBreakdown.drawChart data = Ok (Some arcs) ->
     Z.of_nat (length arcs) = typesCount data).
Proof.
  unfold playersCount, typesCount, gamesCount, JsSet.size.
  pose proof (of_list_length_le (map rowPerson data)) as Hp.
  pose proof (of_list_length_le (map rowGame data)) as Hg.
  rewrite length_map in Hp, Hg.
  split; [lia|]. split; [lia|]. split; [|split; [|split]].
  - intros Hne.
    assert (Hp1 : JsSet.of_list String.eqb (map rowPerson data) <> []).
    { apply of_list_nonempty. destruct data; [congruence|discriminate]. }
    assert (Hg1 : JsSet.of_list String.eqb (map rowGame data) <> []).
    { apply of_list_nonempty. destruct data; [congruence|discriminate]. }
    destruct (JsSet.of_list String.eqb (map rowPerson data));
      [congruence|].
    destruct (JsSet.of_list String.eqb (map rowGame data));
      [congruence|].
    cbn [length]. lia.
  - f_equal. apply Permutation_length, PlayerSelectFacts.players_perm.
  - intros t d HOk.
    assert (Hne : normalize data <> []).
    { destruct data; [cbv in HOk; discriminate|].
      unfold normalize; cbn [map]; discriminate. }
    destruct (GamesPlayedMoreFacts.dated_or_null (normalize data))
      as [Hd|Hn].
    + rewrite (LeaderboardMoreFacts.onMounted_dated _ Hne Hd) in HOk.
      injection HOk as Et Ed. subst t d.
      rewrite !(Permutation_length (LeaderboardFacts.sort_perm _)).
      rewrite LeaderboardMoreFacts.totals_eq, !length_map.
      unfold Leaderboard.players. rewrite Person_normalize.
      split; reflexivity.
    + rewrite (LeaderboardFacts.onMounted_null _ Hn) in HOk. discriminate.
  - intros arcs HOk. unfold GamesBreakdown.drawChart in HOk.
    destruct (length data =? 0)%nat; [discriminate|].
    rewrite GamesBreakdownMoreFacts.aggregate_spec in HOk.
    cbn [bind] in HOk. inversion HOk.
    rewrite GamesBreakdownMoreFacts.length_pie, length_map. reflexivity.
Qed.

End GameStatsExtra.

Module SelectionExtra.
Import PlayerSelect PlayerSelectFacts RollupMoreFacts SelectionFacts.
Import GamesBreakdown GamesBreakdownMoreFacts.

(** X19. The breakdown of a selected player.  For every option of the
    selector other than 'All', [updateChart] of GamesBreakdown.vue draws a
    pie and not the 'No data' placeholder; the pie has one slice per game
    the player has a row of, valued by the number of rows of the player
    and that game, and the values add up to the number of rows of the
    player.  Dates are not read: whatever is selected, no [TypeError]
    arises. *)
Theorem breakdown_of_selected_player (rawData : list RawRow) (p : string) :
  In p (players (map rowPerson rawData)) -> p <> "All"%string ->
  (exists data,
     updateBreakdown p rawData = Ok (Some (pie data)) /\
     data <> [] /\
     (forall g, In g (map key data) <->
                exists r, In r rawData /\ rowPerson r = p /\ rowGame r = g) /\
     Forall (fun d =>
       value d = Z.of_nat (length (filter
                   (fun r => String.eqb (rowPerson r) p
                             && String.eqb (rowGame r) (key d)) rawData)) /\
       1 <= value d) data /\
     total data = rowsOfPerson p rawData /\
     1 <= total data) /\
  (forall q, updateBreakdown q rawData <> TypeError).
Proof.
  intros Hp Hall. split.
  - apply In_players, in_map_iff in Hp. destruct Hp as (r0 & Er0 & Hr0).
    set (mine := filter (fun d => String.eqb (rowPerson d) p) rawData).
    assert (Hmine : mine <> []).
    { apply (filter_nonempty _ _ r0 Hr0). rewrite Er0.
      apply String.eqb_refl. }
    assert (Hupd : updateBreakdown p rawData = drawChart mine).
    { unfold updateBreakdown. destruct (String.eqb_spec p "All");
        [contradiction|reflexivity]. }
    destruct (aggregate_full mine) as
      (data & Ha & Hkeys & ND & HIn & Hvals & Htot).
    exists data. rewrite Hupd. split.
    { unfold drawChart. destruct mine as [|x m]; [congruence|].
      cbn [length Nat.eqb]. rewrite Ha. reflexivity. }
    split.
    { intros E. subst data. destruct mine as [|x m]; [congruence|].
      apply (HIn (rowGame x)). left. reflexivity. }
    split.
    { intros g. rewrite HIn, in_map_iff. subst mine.
      split.
      - intros (r & Eg & Hr). apply filter_In in Hr. destruct Hr as [Hr Hpr].
        apply String.eqb_eq in Hpr. eauto.
      - intros (r & Hr & Hpr & Eg). exists r. split; [exact Eg|].
        apply filter_In. split; [exact Hr|]. apply String.eqb_eq, Hpr. }
    split.
    { eapply Forall_impl; [|exact Hvals]. cbn beta. intros d [Hv H1].
      split; [|exact H1]. rewrite Hv. unfold rowsOfGame. subst mine.
      rewrite filter_filter. reflexivity. }
    split; [exact Htot|].
    rewrite Htot. unfold rowsOfPerson. fold mine.
    destruct mine; [congruence|cbn [length]; lia].
  - intros q. unfold updateBreakdown, drawChart.
    destruct (length _ =? 0)%nat; [discriminate|].
    rewrite aggregate_spec. discriminate.
Qed.

Lemma breakdown_of_selected_player_witness :
  In "A"%string (players (map rowPerson scenarioRows)) /\
  "A"%string <> "All"%string /\
  exists data,
    updateBreakdown "A" scenarioRows = Ok (Some (pie data)) /\
    total data = rowsOfPerson "A" scenarioRows.
Proof.
  assert (Hin : In "A"%string (players (map rowPerson scenarioRows)))
    by (left; reflexivity).
  assert (Hne : "A"%string <> "All"%string) by discriminate.
  split; [exact Hin|]. split; [exact Hne|].
  destruct (proj1 (breakdown_of_selected_player scenarioRows "A" Hin Hne))
    as (data & HOk & _ & _ & _ & Htot & _).
  exists data. split; [exact HOk|exact Htot].
Defined.

(** X20. The calendar of a selected player.  For a participant other than
    'All' who has an entry, [updateChart] of GamesCalendar.vue hands
    [drawCalendar] that participant's entries only, and they are not
    empty.  An entry without a date throws only if it is the selected
    participant's; when all of the participant's entries are dated (other
    participants' may not be), the calendar is drawn, its month is that of
    the participant's first entry, and each cell counts the participant's
    entries at the cell's time value. *)
Theorem calendar_of_selected_player (entries : list Entry) (p : string) :
  In p (map Person entries) -> p <> "All"%string ->
  let mine := filter (fun e => String.eqb (Person e) p) entries in
  mine <> [] /\
  (GamesCalendar.updateChart p entries = TypeError
   <-> exists e, In e entries /\ Person e = p /\ Date e = None) /\
  (Forall hasDate mine ->
   exists L e0 first,
     hd_error mine = Some e0 /\ Date e0 = Some first /\
     GamesCalendar.updateChart p entries = Ok (Some L) /\
     GamesCalendar.year L = JSDate.getFullYear first /\
     GamesCalendar.month L = JSDate.getMonth first /\
     Forall (fun c =>
       GamesCalendar.cnt c
       = countOn (JSDate.getTime
                    (JSDate.create (GamesCalendar.year L)
                       (GamesCalendar.month L) (GamesCalendar.cellDay c)))
                 mine) (GamesCalendar.cells L)).
Proof.
  intros Hp Hall mine.
  apply in_map_iff in Hp. destruct Hp as (e1 & Ee1 & He1).
  assert (Hmine : mine <> []).
  { apply (filter_nonempty _ _ e1 He1). rewrite Ee1. apply String.eqb_refl. }
  assert (Hupd : GamesCalendar.updateChart p entries
                 = GamesCalendar.drawCalendar mine).
  { unfold GamesCalendar.updateChart. destruct (String.eqb_spec p "All");
      [contradiction|reflexivity]. }
  assert (Hdated : Forall hasDate mine ->
            exists L e0 first,
              hd_error mine = Some e0 /\ Date e0 = Some first /\
              GamesCalendar.drawCalendar mine = Ok (Some L) /\
              GamesCalendar.year L = JSDate.getFullYear first /\
              GamesCalendar.month L = JSDate.getMonth first /\
              Forall (fun c =>
                GamesCalendar.cnt c
                = countOn (JSDate.getTime
                             (JSDate.create (GamesCalendar.year L)
                                (GamesCalendar.month L)
                                (GamesCalendar.cellDay c)))
                          mine) (GamesCalendar.cells L)).
  { intros Hd.
    destruct (GamesCalendarSpec.cell_counts_by_time mine Hmine Hd)
      as (L & HL & Hcells & _).
    destruct mine as [|e0 rest] eqn:Em; [congruence|].
    destruct (GamesCalendarFacts.drawCalendar_layout e0 rest Hd)
      as (first & counts & L' & Hfirst & _ & _ & HL' & Hy & Hm & _).
    rewrite HL in HL'. injection HL' as <-.
    exists L, e0, first. split; [reflexivity|]. split; [exact Hfirst|].
    split; [exact HL|]. split; [exact Hy|]. split; [exact Hm|exact Hcells]. }
  split; [exact Hmine|]. split; [|rewrite Hupd; exact Hdated].
  rewrite Hupd. split.
  - intros HErr.
    destruct (GamesPlayedMoreFacts.dated_or_null mine) as [Hd|Hn].
    + destruct (Hdated Hd) as (L & _ & _ & _ & _ & HL & _).
      rewrite HL in HErr. discriminate.
    + apply Exists_exists in Hn. destruct Hn as (e & He & Hnone).
      apply filter_In in He. destruct He as [He Hpe].
      exists e. split; [exact He|]. split; [apply String.eqb_eq, Hpe|].
      exact Hnone.
  - intros (e & He & Hpe & Hnone).
    apply GamesCalendarFacts.drawCalendar_null.
    apply Exists_exists. exists e. split; [|exact Hnone].
    apply filter_In. split; [exact He|]. apply String.eqb_eq, Hpe.
Qed.

Lemma calendar_of_selected_player_witness :
  In "B"%string (map Person (normalize NormalizerSpec.mixedRows)) /\
  "B"%string <> "All"%string /\
  GamesCalendar.updateChart "All" (normalize NormalizerSpec.mixedRows)
    = TypeError /\
  GamesCalendar.updateChart "B" (normalize NormalizerSpec.mixedRows)
    <> TypeError.
Proof.
  assert (Hin : In "B"%string (map Person (normalize NormalizerSpec.mixedRows)))
    by (right; left; reflexivity).
  assert (Hne : "B"%string <> "All"%string) by discriminate.
  split; [exact Hin|]. split; [exact Hne|]. split; [reflexivity|].
  intros HErr.
  apply (proj1 (proj2 (calendar_of_selected_player _ "B" Hin Hne))) in HErr.
  destruct HErr as (e & He & Hpe & Hnone).
  destruct He as [<-|[<-|[]]]; discriminate.
Defined.

End SelectionExtra.

(** ** The ordinal of the hover label *)

Module OrdinalExtra.
Import Ordinal.

(** X21. [formatOrdinal] of GamesCalendar.vue, which labels the hovered
    day.  For every non-negative day number the result is the decimal
    numeral followed by the English ordinal suffix: 'th' when the tens
    digit is 1 (11th, 12th, 13th, 111th), and otherwise 'st', 'nd', 'rd'
    for a last digit 1, 2, 3 and 'th' for the rest. *)
Theorem ordinal_follows_english_rule (day : Z) :
  0 <= day ->
  formatOrdinal day = (numberToString day ++ englishSuffix day)%string.
Proof.
  intros Hd. unfold formatOrdinal, englishSuffix.
  rewrite !Z.rem_mod_nonneg by lia.
  assert (Hk : day mod 100 = 10 * ((day / 10) mod 10) + day mod 10).
  { Z.div_mod_to_equations. lia. }
  assert (Hj : 0 <= day mod 10 < 10) by (apply Z.mod_pos_bound; lia).
  assert (Ht : 0 <= (day / 10) mod 10 < 10) by (apply Z.mod_pos_bound; lia).
  rewrite Hk.
  set (j := day mod 10) in *. set (t := (day / 10) mod 10) in *.
  destruct (Z.eqb_spec t 1) as [Et|Et].
  - rewrite Et.
    destruct (Z.eqb_spec j 1) as [->|?]; [reflexivity|].
    destruct (Z.eqb_spec j 2) as [->|?]; [reflexivity|].
    destruct (Z.eqb_spec j 3) as [->|?]; reflexivity.
  - destruct (Z.eqb_spec j 1) as [->|?].
    { destruct (Z.eqb_spec (10 * t + 1) 11); [lia|reflexivity]. }
    destruct (Z.eqb_spec j 2) as [->|?].
    { destruct (Z.eqb_spec (10 * t + 2) 12); [lia|reflexivity]. }
    destruct (Z.eqb_spec j 3) as [->|?].
    { destruct (Z.eqb_spec (10 * t + 3) 13); [lia|reflexivity]. }
    reflexivity.
Qed.

Lemma ordinal_follows_english_rule_witness :
  0 <= 22 /\ formatOrdinal 22 = "22nd"%string.
Proof.
  split; [lia|]. exact (ordinal_follows_english_rule 22 ltac:(lia)).
Defined.

End OrdinalExtra.

(** ** Further facts about the pie layout *)

Module PieMoreFacts.
Import GamesBreakdown GamesBreakdownFacts GamesPlayedFacts.
Import GamesBreakdownMoreFacts.
Local Open Scope R_scope.

Lemma arcsLoop_bounds (k : R) (data : list Datum) :
  0 < k -> Forall (fun d => (0 < value d)%Z) data ->
  forall a0 i,
    Forall (fun a => a0 <= startAngle a /\ startAngle a < endAngle a /\
                     endAngle a <= a0 + k * IZR (Zsum (map value data)))
           (arcsLoop k 0 0 a0 i data).
Proof.
  intros Hk. induction 1 as [|d l Hd Hl IH]; intros a0 i; cbn [arcsLoop].
  - constructor.
  - destruct (Z.ltb_spec 0 (value d)) as [_|Hc]; [|lia].
    assert (Hv : 0 < IZR (value d)) by (apply IZR_lt; exact Hd).
    assert (Hvk : 0 < IZR (value d) * k) by (apply Rmult_lt_0_compat; assumption).
    assert (Hsum : (0 <= Zsum (map value l))%Z).
    { clear - Hl. unfold Zsum. induction Hl; cbn [map fold_right]; lia. }
    apply IZR_le in Hsum.
    assert (Hks : 0 <= k * IZR (Zsum (map value l)))
      by (apply Rmult_le_pos; lra).
    unfold Zsum in *. cbn [map fold_right]. rewrite plus_IZR.
    constructor.
    + cbn [startAngle endAngle]. lra.
    + eapply Forall_impl; [|apply IH]. cbn beta.
      intros a (H1 & H2 & H3). lra.
Qed.

(** The angles of the slices lie between 0 and a full turn. *)
Lemma pie_angles (data : list Datum) :
  data <> [] -> Forall (fun d => (0 < value d)%Z) data ->
  Forall (fun a => 0 <= startAngle a /\ startAngle a < endAngle a /\
                   endAngle a <= 2 * PI) (pie data).
Proof.
  intros Hne Hpos. rewrite (pie_eq data Hne Hpos).
  pose proof (total_positive data Hne Hpos) as Ht.
  apply IZR_lt in Ht.
  assert (Hk : 0 < tau / IZR (total data)).
  { apply Rdiv_lt_0_compat; [apply tau_pos|exact Ht]. }
  eapply Forall_impl; [|apply (arcsLoop_bounds _ data Hk Hpos)].
  cbn beta. intros a (H1 & H2 & H3).
  split; [exact H1|]. split; [exact H2|].
  rewrite <- total_Zsum in H3.
  replace (0 + tau / IZR (total data) * IZR (total data)) with (2 * PI) in H3.
  - exact H3.
  - unfold tau. field. lra.
Qed.

Lemma radius_eq : BreakdownLabels.radius = 260.
Proof.
  unfold BreakdownLabels.radius, Rmin.
  destruct (Rle_dec 800 600); lra.
Qed.

Lemma cos_quarter (x : R) : cos (x - PI / 2) = sin x.
Proof.
  replace (x - PI / 2) with (- (PI / 2 - x)) by lra.
  rewrite cos_neg. apply cos_shift.
Qed.

Lemma sin_quarter (x : R) : sin (x - PI / 2) = - cos x.
Proof.
  replace (x - PI / 2) with (- (PI / 2 - x)) by lra.
  rewrite sin_neg, sin_shift. reflexivity.
Qed.

(** The 1% threshold, on integers. *)
Lemma threshold_iff (v t : Z) :
  (0 < t)%Z -> (1 / 100 <= IZR v / IZR t <-> (t <= 100 * v)%Z).
Proof.
  intros Ht. assert (HtR : 0 < IZR t) by (apply IZR_lt; exact Ht).
  split.
  - intros H. apply le_IZR. rewrite mult_IZR.
    apply (Rmult_le_compat_r (IZR t)) in H; [|lra].
    replace (IZR v / IZR t * IZR t) with (IZR v) in H by (field; lra).
    lra.
  - intros H. apply IZR_le in H. rewrite mult_IZR in H.
    apply (Rmult_le_reg_r (IZR t)); [exact HtR|].
    replace (IZR v / IZR t * IZR t) with (IZR v) by (field; lra).
    lra.
Qed.

Lemma filter_map_swap {A B} (f : A -> B) (p : B -> bool) (l : list A) :
  map f (filter (fun a => p (f a)) l) = filter p (map f l).
Proof.
  induction l as [|x l IH]; [reflexivity|]. cbn [filter map].
  destruct (p (f x)); cbn [map]; rewrite IH; reflexivity.
Qed.

Lemma data_ready_eq (tot : Z) (arcs : list Arc) :
  (0 < tot)%Z ->
  data_ready tot arcs
  = filter (fun a => (tot <=? 100 * value (data a))%Z) arcs.
Proof.
  intros Ht. unfold data_ready. apply filter_ext. intros a.
  destruct (Rle_dec (1 / 100) (IZR (value (data a)) / IZR tot)) as [H|H];
    destruct (Z.leb_spec tot (100 * value (data a))) as [H'|H'];
    try reflexivity; exfalso.
  - apply threshold_iff in H; [lia|exact Ht].
  - apply H, threshold_iff; [exact Ht|exact H'].
Qed.

End PieMoreFacts.

Module BreakdownLabelsExtra.
Import GamesBreakdown GamesBreakdownFacts GamesBreakdownMoreFacts.
Import BreakdownLabels PieMoreFacts.
Local Open Scope R_scope.

(** The slice [b] of the values 5, 2, 5 is centred on the bottom of the
    pie: its exact mid-angle is [PI], and the mid-angle computed in
    binary64 is below [Math.PI], so the program draws its label on the
    right with the anchor 'start'. *)
Lemma slice_centred_on_PI :
  map midAngle (pie [mkDatum "a" 5; mkDatum "b" 2; mkDatum "c" 5])
  = [5 * PI / 12; PI; 19 * PI / 12] /\
  map GamesBreakdownFloat.below
      (GamesBreakdownFloat.pieAngles
         [mkDatum "a" 5; mkDatum "b" 2; mkDatum "c" 5])
  = [true; true; false].
Proof.
  split; [|vm_compute; reflexivity].
  rewrite pie_eq;
    [|discriminate|repeat constructor].
  change (total [mkDatum "a" 5; mkDatum "b" 2; mkDatum "c" 5]) with 12%Z.
  cbn [arcsLoop map value Z.ltb Z.compare]. unfold midAngle, tau.
  cbn [startAngle endAngle].
  repeat (f_equal; [field|]). f_equal. field.
Qed.

(** X22. The leader lines and labels of GamesBreakdown.vue.  For every
    slice of the pie of a non-empty list of positive values (hence for
    every labelled slice) and whatever the rounding gives at an exact
    mid-angle [PI]: the mid-angle lies strictly inside the turn; the last
    segment of the polyline is horizontal and ends beyond the elbow, at
    247 or at -247; the label sits on the same side at 257.4 or -257.4,
    at the height of the polyline's end, anchored at its start on the
    right and at its end on the left.  For a mid-angle below [PI] the
    three points go strictly rightwards and the label is on the right;
    for a mid-angle above [PI] they go strictly leftwards and the label
    is on the left. *)
Theorem leader_lines_point_outward (atPI : bool) (data : list Datum) :
  data <> [] -> Forall (fun d => (0 < value d)%Z) data ->
  Forall (fun a =>
    let '(posA, posB, posC) := polylinePoints atPI a in
    0 < midAngle a < 2 * PI /\
    snd posC = snd posB /\
    snd (labelPosition atPI a) = snd posC /\
    - 247 < fst posB < 247 /\
    ((fst posC = 247 /\ fst (labelPosition atPI a) = 2574 / 10 /\
      textAnchor atPI a = "start"%string) \/
     (fst posC = -247 /\ fst (labelPosition atPI a) = - (2574 / 10) /\
      textAnchor atPI a = "end"%string)) /\
    (midAngle a < PI ->
       0 < fst posA /\ fst posA < fst posB /\ fst posB < fst posC /\
       fst posC = 247 /\ fst (labelPosition atPI a) = 2574 / 10 /\
       textAnchor atPI a = "start"%string) /\
    (PI < midAngle a ->
       fst posC = -247 /\ fst posC < fst posB /\ fst posB < fst posA /\
       fst posA < 0 /\ fst (labelPosition atPI a) = - (2574 / 10) /\
       textAnchor atPI a = "end"%string))
  (pie data) /\
  incl (data_ready (total data) (pie data)) (pie data).
Proof.
  intros Hne Hpos. split.
  - eapply Forall_impl; [|apply (pie_angles data Hne Hpos)].
    cbn beta. intros a (H0 & Hlt & H2pi).
    unfold polylinePoints, labelPosition, textAnchor, side, below, centroid.
    cbn [fst snd]. rewrite radius_eq.
    set (m := midAngle a).
    assert (Em : (startAngle a + endAngle a) / 2 = m)
      by (subst m; unfold midAngle; lra).
    rewrite Em, cos_quarter, sin_quarter.
    assert (Hm : 0 < m < 2 * PI) by (subst m; unfold midAngle; lra).
    pose proof (SIN_bound m) as [Hs1 Hs2].
    split; [exact Hm|]. split; [reflexivity|]. split; [reflexivity|].
    split; [split; lra|].
    split.
    + destruct (Rlt_dec m PI) as [_|_];
        [left; repeat split; lra|].
      destruct (Rlt_dec PI m) as [_|_];
        [right; repeat split; lra|].
      destruct atPI; [left|right]; repeat split; lra.
    + split.
      * intros Hlow. destruct (Rlt_dec m PI) as [_|Hc]; [|lra].
        assert (Hsin : 0 < sin m) by (apply sin_gt_0; lra).
        repeat split; try nra; try lra.
      * intros Hhigh. destruct (Rlt_dec m PI) as [Hc|_]; [lra|].
        destruct (Rlt_dec PI m) as [_|Hc]; [|lra].
        assert (Hsin : sin m < 0) by (apply sin_lt_0; lra).
        repeat split; try nra; try lra.
  - unfold data_ready. intros a Ha. apply filter_In in Ha. tauto.
Qed.

Lemma leader_lines_point_outward_witness :
  [mkDatum "Chess" 2; mkDatum "Go" 1] <> [] /\
  Forall (fun d => (0 < value d)%Z) [mkDatum "Chess" 2; mkDatum "Go" 1] /\
  incl (data_ready (total [mkDatum "Chess" 2; mkDatum "Go" 1])
                   (pie [mkDatum "Chess" 2; mkDatum "Go" 1]))
       (pie [mkDatum "Chess" 2; mkDatum "Go" 1]).
Proof.
  assert (Hne : [mkDatum "Chess" 2; mkDatum "Go" 1] <> []) by discriminate.
  assert (Hpos : Forall (fun d => (0 < value d)%Z)
                        [mkDatum "Chess" 2; mkDatum "Go" 1]).
  { repeat constructor. }
  split; [exact Hne|]. split; [exact Hpos|].
  exact (proj2 (leader_lines_point_outward true _ Hne Hpos)).
Defined.

(** X23. The 1% threshold of the labels.  For a non-empty list of positive
    values, the labelled slices are, in order, those whose value times 100
    is at least the total; so with at most 100 rows every slice is
    labelled, and a slice is left without a label exactly when its share
    is below one hundredth. *)
Theorem labels_skip_small_slices (data : list Datum) :
  data <> [] -> Forall (fun d => (0 < value d)%Z) data ->
  map GamesBreakdown.data (data_ready (total data) (pie data))
    = filter (fun d => (total data <=? 100 * value d)%Z) data /\
  (forall a, In a (pie data) ->
     (In a (data_ready (total data) (pie data))
      <-> (total data <= 100 * value (GamesBreakdown.data a))%Z)) /\
  ((total data <= 100)%Z -> data_ready (total data) (pie data) = pie data).
Proof.
  intros Hne Hpos.
  pose proof (total_positive data Hne Hpos) as Ht.
  rewrite (data_ready_eq _ _ Ht).
  assert (Hdata : map GamesBreakdown.data (pie data) = data).
  { rewrite (pie_eq data Hne Hpos).
    exact (proj1 (arcsLoop_spec _ data Hpos 0 0%nat)). }
  split; [|split].
  - rewrite (filter_map_swap GamesBreakdown.data
               (fun d => (total data <=? 100 * value d)%Z)).
    rewrite Hdata. reflexivity.
  - intros a Ha. rewrite filter_In. split.
    + intros [_ H]. apply Z.leb_le, H.
    + intros H. split; [exact Ha|apply Z.leb_le, H].
  - intros Hsmall. apply forallb_filter_id. apply forallb_forall.
    intros a Ha. apply Z.leb_le.
    assert (Hd : In (GamesBreakdown.data a) data)
      by (rewrite <- Hdata; apply in_map, Ha).
    rewrite Forall_forall in Hpos. specialize (Hpos _ Hd). cbn beta in Hpos.
    lia.
Qed.

Lemma labels_skip_small_slices_witness :
  [mkDatum "Chess" 2; mkDatum "Go" 1] <> [] /\
  Forall (fun d => (0 < value d)%Z) [mkDatum "Chess" 2; mkDatum "Go" 1] /\
  map GamesBreakdown.data
      (data_ready (total [mkDatum "Chess" 2; mkDatum "Go" 1])
                  (pie [mkDatum "Chess" 2; mkDatum "Go" 1]))
  = [mkDatum "Chess" 2; mkDatum "Go" 1].
Proof.
  assert (Hne : [mkDatum "Chess" 2; mkDatum "Go" 1] <> []) by discriminate.
  assert (Hpos : Forall (fun d => (0 < value d)%Z)
                        [mkDatum "Chess" 2; mkDatum "Go" 1]).
  { repeat constructor. }
  split; [exact Hne|]. split; [exact Hpos|].
  exact (proj1 (labels_skip_small_slices _ Hne Hpos)).
Defined.

End BreakdownLabelsExtra.

(** ** Facts about the date parser *)

Module D3TimeParseFacts.
Import JSDate JSDateFacts D3TimeParse.

Lemma digit_cases (d : Z) :
  isDecimalDigit d ->
  d = 0 \/ d = 1 \/ d = 2 \/ d = 3 \/ d = 4 \/
  d = 5 \/ d = 6 \/ d = 7 \/ d = 8 \/ d = 9.
Proof. unfold isDecimalDigit. lia. Qed.

Lemma isDigit_digitChar d : isDecimalDigit d -> isDigit (digitChar d) = true.
Proof.
  intros H. destruct (digit_cases d H) as [E|[E|[E|[E|[E|[E|[E|[E|[E|E]]]]]]]]];
    subst d; reflexivity.
Qed.

Lemma isSpace_digitChar d : isDecimalDigit d -> isSpace (digitChar d) = false.
Proof.
  intros H. destruct (digit_cases d H) as [E|[E|[E|[E|[E|[E|[E|[E|[E|E]]]]]]]]];
    subst d; reflexivity.
Qed.

Lemma digitValue_digitChar d : isDecimalDigit d -> digitValue (digitChar d) = d.
Proof.
  intros H. destruct (digit_cases d H) as [E|[E|[E|[E|[E|[E|[E|[E|[E|E]]]]]]]]];
    subst d; reflexivity.
Qed.

Lemma takeWhile_digits (ds : list Z) (rest : list ascii) :
  Forall isDecimalDigit ds ->
  match rest with [] => True | c :: _ => isDigit c = false end ->
  takeWhile isDigit (digitsOf ds ++ rest) = digitsOf ds.
Proof.
  intros Hds Hrest. induction Hds as [|d ds Hd _ IH]; cbn [digitsOf map app].
  - destruct rest as [|c rest]; [reflexivity|]. cbn [takeWhile].
    rewrite Hrest. reflexivity.
  - cbn [takeWhile]. rewrite (isDigit_digitChar d Hd). f_equal. exact IH.
Qed.

Lemma decimal_fold (ds : list Z) :
  Forall isDecimalDigit ds ->
  forall acc,
    fold_left (fun acc c => 10 * acc + digitValue c) (digitsOf ds) acc
    = fold_left (fun acc d => 10 * acc + d) ds acc.
Proof.
  induction 1 as [|d ds Hd _ IH]; intros acc; [reflexivity|].
  cbn [digitsOf map fold_left]. rewrite (digitValue_digitChar d Hd).
  apply IH.
Qed.

Lemma decimal_digits (ds : list Z) :
  Forall isDecimalDigit ds -> decimal (digitsOf ds) = numeral ds.
Proof. intros H. apply (decimal_fold ds H). Qed.

(** A field of at most [w] digits, followed by nothing or by a character
    that is not a digit, is read in full. *)
Lemma parseNumber_digits (w : nat) (ds : list Z) (rest : list ascii) :
  Forall isDecimalDigit ds -> (1 <= length ds <= w)%nat ->
  match rest with [] => True | c :: _ => isDigit c = false end ->
  parseNumber w (digitsOf ds ++ rest) = Some (numeral ds, rest).
Proof.
  intros Hds Hlen Hrest. unfold parseNumber.
  assert (Hl : length (digitsOf ds) = length ds) by apply length_map.
  rewrite firstn_app, Hl.
  rewrite (@firstn_all2 _ w (digitsOf ds)) by lia.
  assert (Hsp : takeWhile isSpace
                  (digitsOf ds ++ firstn (w - length ds) rest) = []).
  { destruct ds as [|d ds]; [cbn [length] in Hlen; lia|].
    inversion Hds; subst. cbn [digitsOf map app takeWhile].
    rewrite isSpace_digitChar by assumption. reflexivity. }
  rewrite Hsp. cbn [length skipn Nat.add].
  rewrite (takeWhile_digits ds _ Hds).
  - rewrite Hl, (decimal_digits ds Hds).
    rewrite skipn_app, Hl, Nat.sub_diag.
    rewrite (@skipn_all2 _ (length ds) (digitsOf ds)) by lia.
    cbn [skipn app].
    destruct ds as [|d ds]; [cbn [length] in Hlen; lia|].
    reflexivity.
  - destruct rest as [|c rest]; [rewrite firstn_nil; exact I|].
    destruct (w - length ds)%nat; cbn [firstn]; [exact I|exact Hrest].
Qed.

(** A full field of [w] digits is read whatever follows. *)
Lemma parseNumber_full (w : nat) (ds : list Z) (rest : list ascii) :
  Forall isDecimalDigit ds -> length ds = w -> (1 <= w)%nat ->
  parseNumber w (digitsOf ds ++ rest) = Some (numeral ds, rest).
Proof.
  intros Hds Hlen Hw. unfold parseNumber.
  assert (Hl : length (digitsOf ds) = length ds) by apply length_map.
  rewrite firstn_app, Hl, Hlen, Nat.sub_diag.
  rewrite (@firstn_all2 _ w (digitsOf ds)) by lia.
  cbn [firstn]. rewrite app_nil_r.
  assert (Hsp : takeWhile isSpace (digitsOf ds) = []).
  { destruct ds as [|d ds]; [cbn [length] in Hlen; lia|].
    inversion Hds; subst. cbn [digitsOf map takeWhile].
    rewrite isSpace_digitChar by assumption. reflexivity. }
  rewrite Hsp. cbn [length skipn Nat.add].
  pose proof (takeWhile_digits ds [] Hds I) as Ht.
  rewrite app_nil_r in Ht. rewrite Ht, Hl, (decimal_digits ds Hds).
  rewrite skipn_app, Hl, Hlen, Nat.sub_diag.
  rewrite (@skipn_all2 _ w (digitsOf ds)) by lia.
  cbn [skipn app].
  destruct ds as [|d ds]; [cbn [length] in Hlen; lia|].
  reflexivity.
Qed.

Lemma parseDate_text (l : list ascii) :
  parseDate (string_of_list_ascii l)
  = match parseNumber 2 l with
    | None => None
    | Some (mo, s1) =>
      match parseLiteral "/" s1 with
      | None => None
      | Some s2 =>
        match parseNumber 2 s2 with
        | None => None
        | Some (d, s3) =>
          match parseLiteral "/" s3 with
          | None => None
          | Some s4 =>
            match parseNumber 4 s4 with
            | Some (y, []) => Some (localDate y (mo - 1) d)
            | _ => None
            end
          end
        end
      end
    end.
Proof.
  unfold parseDate. rewrite list_ascii_of_string_of_list_ascii. reflexivity.
Qed.

(** A text made of one or two month digits, a slash, one or two day
    digits, a slash and one to four year digits is read as those three
    numbers, the month counted from 0, without range check. *)
Lemma parseFields_written (ms ds ys : list Z) :
  Forall isDecimalDigit ms -> Forall isDecimalDigit ds ->
  Forall isDecimalDigit ys ->
  (1 <= length ms <= 2)%nat -> (1 <= length ds <= 2)%nat ->
  (1 <= length ys <= 4)%nat ->
  D3TimeParseZone.parseFields (string_of_list_ascii (dateText ms ds ys))
  = Some (numeral ys, numeral ms - 1, numeral ds).
Proof.
  intros Hms Hds Hys Lm Ld Ly.
  assert (Hslash : isDigit "/" = false) by reflexivity.
  unfold D3TimeParseZone.parseFields, dateText.
  rewrite list_ascii_of_string_of_list_ascii.
  rewrite (parseNumber_digits 2 ms ("/"%char :: _) Hms Lm Hslash).
  cbn [parseLiteral]. rewrite Ascii.eqb_refl.
  rewrite (parseNumber_digits 2 ds ("/"%char :: _) Hds Ld Hslash).
  cbn [parseLiteral]. rewrite Ascii.eqb_refl.
  pose proof (parseNumber_digits 4 ys [] Hys Ly I) as Hy.
  rewrite app_nil_r in Hy. rewrite Hy. reflexivity.
Qed.

Lemma slash_is_no_digit d :
  isDecimalDigit d -> Ascii.eqb "/" (digitChar d) = false.
Proof.
  intros H. destruct (digit_cases d H) as [E|[E|[E|[E|[E|[E|[E|[E|[E|E]]]]]]]]];
    subst d; reflexivity.
Qed.

(** Texts that the parser turns into [null]: one that begins with three
    digits (the month field takes two and the third is not the slash), one
    whose first character is neither white space nor a digit, and the
    empty text. *)
Lemma parseDate_other_shapes :
  (forall a b c rest,
     isDecimalDigit a -> isDecimalDigit b -> isDecimalDigit c ->
     parseDate (string_of_list_ascii (digitsOf [a; b; c] ++ rest)) = None) /\
  (forall ch s,
     isSpace ch = false -> isDigit ch = false ->
     parseDate (String ch s) = None) /\
  parseDate "" = None.
Proof.
  split; [|split; [|reflexivity]].
  - intros a b c rest Ha Hb Hc. rewrite parseDate_text.
    change (digitsOf [a; b; c] ++ rest)
      with (digitsOf [a; b] ++ digitChar c :: rest).
    assert (Hab : Forall isDecimalDigit [a; b])
      by (constructor; [exact Ha|constructor; [exact Hb|constructor]]).
    rewrite (parseNumber_full 2 [a; b] (digitChar c :: rest) Hab eq_refl)
      by lia.
    cbn [parseLiteral]. rewrite (slash_is_no_digit c Hc). reflexivity.
  - intros ch s Hsp Hdg. unfold parseDate. cbn [list_ascii_of_string].
    unfold parseNumber. cbn [firstn takeWhile]. rewrite Hsp.
    cbn [length skipn takeWhile]. rewrite Hdg. reflexivity.
Qed.

End D3TimeParseFacts.

Module D3TimeParseExtra.
Import D3TimeParse D3TimeParseFacts.

(** X24. Rows whose dates are written month/day/year.  If every row's
    date text is one or two month digits, a slash, one or two day digits,
    a slash and one to four year digits, then in every zone the row
    conversion of the components yields, row by row, an entry with the
    row's person and game whose date is not [null] but the local date of
    the three written numbers (no range check); so on a non-empty file of
    such rows neither the calendar nor the leaderboard throws: the one
    lays out a month and the other hands over its two lists (which month
    and which days depends on the zone in which they read the dates; that
    they return does not). *)
Theorem rows_with_written_dates_have_dates
    (z : JSDateZone.Zone) (rows : list RawRow) :
  rows <> [] ->
  Forall (fun r => exists y mo d, writtenDate (rowDate r) y mo d) rows ->
  Forall hasDate (GamesPlayedZone.normalize z rows) /\
  Forall2 (fun r e =>
             Person e = rowPerson r /\ Game e = rowGame r /\
             exists y mo d,
               writtenDate (rowDate r) y mo d /\
               Date e = Some (D3TimeParseZone.localDate z y (mo - 1) d))
          rows (GamesPlayedZone.normalize z rows) /\
  (exists L, GamesCalendar.drawCalendar (GamesPlayedZone.normalize z rows)
             = Ok (Some L)) /\
  (exists total ranked,
     Leaderboard.onMounted (GamesPlayedZone.normalize z rows)
     = Ok (Some (total, ranked))).
Proof.
  intros Hne Hrows.
  assert (H2 : Forall2 (fun r e =>
             Person e = rowPerson r /\ Game e = rowGame r /\
             exists y mo d,
               writtenDate (rowDate r) y mo d /\
               Date e = Some (D3TimeParseZone.localDate z y (mo - 1) d))
          rows (GamesPlayedZone.normalize z rows)).
  { clear Hne. induction Hrows as [|r rows Hr _ IH]; [constructor|].
    unfold GamesPlayedZone.normalize. cbn [map].
    fold (GamesPlayedZone.normalize z rows).
    constructor; [|exact IH]. cbn [Person Game Date].
    split; [reflexivity|]. split; [reflexivity|].
    destruct Hr as (y & mo & d & Hw). exists y, mo, d.
    split; [exact Hw|].
    destruct Hw as (ms & ds & ys & Hms & Hds & Hys & Lm & Ld & Ly & Et
                    & Emo & Ed & Ey).
    unfold D3TimeParseZone.parseDate.
    rewrite Et, (parseFields_written ms ds ys Hms Hds Hys Lm Ld Ly).
    rewrite Emo, Ed, Ey. reflexivity. }
  assert (Hd : Forall hasDate (GamesPlayedZone.normalize z rows)).
  { clear Hne Hrows. induction H2 as [|r e rs es He _ IH]; constructor.
    - destruct He as (_ & _ & y & mo & d & _ & Hdate).
      unfold hasDate. rewrite Hdate. discriminate.
    - exact IH. }
  assert (Hne' : GamesPlayedZone.normalize z rows <> []).
  { destruct rows; [congruence|].
    unfold GamesPlayedZone.normalize. cbn [map]. discriminate. }
  split; [exact Hd|]. split; [exact H2|]. split.
  - destruct (GamesPlayedZone.normalize z rows) as [|e0 rest];
      [congruence|].
    destruct (GamesCalendarFacts.drawCalendar_layout e0 rest Hd)
      as (first & counts & L & _ & _ & _ & HL & _).
    exists L. exact HL.
  - eexists. eexists.
    exact (LeaderboardMoreFacts.onMounted_dated _ Hne' Hd).
Qed.

Lemma rows_with_written_dates_have_dates_witness :
  [mkRow "3/9/2025" "A" "Go"] <> [] /\
  Forall (fun r => exists y mo d, writtenDate (rowDate r) y mo d)
         [mkRow "3/9/2025" "A" "Go"] /\
  Forall hasDate
    (GamesPlayedZone.normalize JSDateZone.havana [mkRow "3/9/2025" "A" "Go"]).
Proof.
  assert (Hne : [mkRow "3/9/2025" "A" "Go"] <> []) by discriminate.
  assert (H : Forall (fun r => exists y mo d, writtenDate (rowDate r) y mo d)
                     [mkRow "3/9/2025" "A" "Go"]).
  { constructor; [|constructor].
    exists 2025, 3, 9. exists [3], [9], [2; 0; 2; 5].
    repeat split;
      try (repeat constructor; unfold isDecimalDigit; lia);
      cbn [length]; lia. }
  split; [exact Hne|]. split; [exact H|].
  exact (proj1 (rows_with_written_dates_have_dates JSDateZone.havana _ Hne H)).
Defined.

End D3TimeParseExtra.

Module PointerExtra.
Import D3Band D3BandFacts GamesPlayed GamesPlayedBars GamesPlayedHover.
Import BandLayoutFacts.

(** X25. Pointing at a bar selects it.  For a positive width and buckets
    with distinct day numbers, a pointer offset anywhere on a bar (its
    edges included) resolves, in the [mousemove] handler of
    GamesPlayed.vue, to the index of that bar. *)
Theorem pointing_at_a_bar_selects_it
    (width : Q) (dc : list DailyCount) (j : nat) (lo hi mx : Q) :
  (0 < width)%Q -> NoDup (map day dc) ->
  nth_error (barSpans width dc) j = Some (Some (lo, hi)) ->
  (lo <= mx)%Q -> (mx <= hi)%Q ->
  hoverIndex width dc mx = j.
Proof.
  intros Hw ND Hbar Hlo Hhi.
  rewrite (barSpans_eq width dc Hw ND) in Hbar.
  set (n := length dc) in *.
  rewrite nth_error_map, nth_error_seq in Hbar.
  destruct (Nat.ltb_spec j n) as [Hj|Hj]; [|discriminate].
  cbn [option_map Nat.add] in Hbar.
  change (Qmin 1 (1 # 10)) with (1 # 10)%Q in Hbar.
  injection Hbar as Elo Ehi.
  destruct (D3BandMoreFacts.center_nearest
              (bandCenter width n) n mx
              (fun a b Hab _ => bandCenter_mono width n a b Hw Hab)
              ltac:(lia)) as (Hlt & Hnear).
  pose proof (HoverSpec.xCenters_eq width dc Hw ND) as Hx. fold n in Hx.
  rewrite <- Hx in Hlt, Hnear. fold (hoverIndex width dc mx) in Hlt, Hnear.
  set (i := hoverIndex width dc mx) in *.
  specialize (Hnear j Hj).
  pose proof (bandStep_pos width n Hw) as Hs.
  unfold bandCenter in Hnear.
  change (Qmin 1 (1 # 10)) with (1 # 10)%Q in Hnear.
  set (s := bandStep width n) in *. set (st := bandStart width n) in *.
  assert (Ehalf : (s * (1 - (1 # 10)) / 2 == s * (45 # 100))%Q) by field.
  rewrite !Ehalf in Hnear.
  subst lo hi.
  set (Pi := (s * inject_Z (Z.of_nat i))%Q) in *.
  set (Pj := (s * inject_Z (Z.of_nat j))%Q) in *.
  assert (Hj45 : (Qabs (st + Pj + s * (45 # 100) - mx) <= s * (45 # 100))%Q).
  { apply Qabs_Qle_condition. split; lra. }
  assert (Hi45 : (Qabs (st + Pi + s * (45 # 100) - mx) <= s * (45 # 100))%Q)
    by (eapply Qle_trans; [exact Hnear|exact Hj45]).
  apply Qabs_Qle_condition in Hi45. destruct Hi45 as [Hi1 Hi2].
  destruct (Nat.lt_trichotomy i j) as [Hij|[E|Hij]]; [|exact E|]; exfalso.
  - pose proof (step_mono s (S i) j Hs ltac:(lia)) as Hm.
    rewrite step_succ in Hm. fold Pi Pj in Hm. lra.
  - pose proof (step_mono s (S j) i Hs ltac:(lia)) as Hm.
    rewrite step_succ in Hm. fold Pi Pj in Hm. lra.
Qed.

Lemma pointing_at_a_bar_selects_it_witness :
  (0 < width)%Q /\ NoDup (map day HoverSpec.scenarioBuckets) /\
  exists lo hi,
    nth_error (barSpans width HoverSpec.scenarioBuckets) 1
      = Some (Some (lo, hi)) /\
    hoverIndex width HoverSpec.scenarioBuckets lo = 1%nat.
Proof.
  assert (Hw : (0 < width)%Q) by reflexivity.
  assert (ND : NoDup (map day HoverSpec.scenarioBuckets)).
  { repeat constructor; cbn; intuition discriminate. }
  split; [exact Hw|]. split; [exact ND|].
  destruct (nth_error (barSpans width HoverSpec.scenarioBuckets) 1)
    as [[[lo hi]|]|] eqn:Hbar;
    [|vm_compute in Hbar; discriminate|vm_compute in Hbar; discriminate].
  exists lo, hi. split; [reflexivity|].
  apply (pointing_at_a_bar_selects_it width _ 1 lo hi lo Hw ND Hbar).
  - apply Qle_refl.
  - vm_compute in Hbar. injection Hbar as <- <-. vm_compute. discriminate.
Defined.

End PointerExtra.

Module GamesCalendarSvgExtra.
Import JSDate JSDateFacts GamesCalendar GamesCalendarFacts GamesCalendarSvg.

(** X26. The pixels of the calendar grid.  For every non-empty set of
    dated entries, each cell's rectangle lies inside the [svg] element,
    right of the week labels' margin and below the weekday header; two
    cells of different days are a gap of 2 pixels apart, horizontally or
    vertically; and the 40-pixel slot of each cell is centred on the
    weekday label of its column and on the week label of its row, which
    exists. *)
Theorem calendar_cells_fit_the_svg (entries : list Entry) :
  entries <> [] -> Forall hasDate entries ->
  exists L,
    drawCalendar entries = Ok (Some L) /\
    weeks L = map Z.of_nat (seq 1 (Z.to_nat (rows L))) /\
    Forall (fun c =>
      let r := cellRect c in
      60 <= rx r /\ rx r + rwidth r <= svgWidth /\
      cellSize <= ry r /\ ry r + rheight r <= svgHeight L /\
      2 * weekdayLabelX (col c) = 2 * rx r + cellSize /\
      2 * weekLabelY (row c) = 2 * ry r + cellSize /\
      In (row c + 1) (weeks L)) (cells L) /\
    (forall c1 c2, In c1 (cells L) -> In c2 (cells L) ->
       cellDay c1 <> cellDay c2 ->
       let r1 := cellRect c1 in
       let r2 := cellRect c2 in
       rx r1 + rwidth r1 + 2 <= rx r2 \/ rx r2 + rwidth r2 + 2 <= rx r1 \/
       ry r1 + rheight r1 + 2 <= ry r2 \/ ry r2 + rheight r2 + 2 <= ry r1).
Proof.
  intros Hne Hd. destruct entries as [|e0 rest]; [congruence|].
  destruct (drawCalendar_layout e0 rest Hd)
    as (first & counts & L & _ & _ & _ & HL & _ & Hm & Hdim & Hsd & Hrows & _
        & Hcells).
  exists L. split; [exact HL|].
  assert (Hs : 0 <= startDay L <= 6) by (rewrite Hsd; apply WeekDay_range).
  assert (Hmr : 0 <= month L <= 11) by (rewrite Hm; apply MonthFromDay_range).
  assert (Hdr : 28 <= daysInMonth L <= 31).
  { rewrite Hdim, getDate_next_month_0 by exact Hmr.
    apply monthLength_range; [apply InLeapYear_range|exact Hmr]. }
  clear Hdim Hsd Hm.
  assert (Hr : rows L = (startDay L + daysInMonth L + 6) / 7).
  { rewrite Hrows. unfold ceilDiv. Z.div_mod_to_equations. lia. }
  assert (Hrr : 4 <= rows L <= 6) by (rewrite Hr; Z.div_mod_to_equations; lia).
  assert (Hplace : forall c, In c (cells L) ->
            1 <= cellDay c <= daysInMonth L /\
            0 <= row c < rows L /\ 0 <= col c <= 6 /\
            row c * 7 + col c = startDay L + cellDay c - 1).
  { intros c Hc. rewrite Hcells in Hc.
    apply in_map_iff in Hc. destruct Hc as (day & <- & Hday).
    apply In_daysUpTo in Hday.
    destruct (cellOf_place (year L) (month L) (startDay L) counts day)
      as (H1 & H2 & H3 & H4); [lia|lia|].
    rewrite H1. split; [exact Hday|]. split; [|split; [|exact H4]].
    - rewrite H2, Hr. Z.div_mod_to_equations. lia.
    - rewrite H3. Z.div_mod_to_equations. lia. }
  split.
  { unfold weeks. rewrite <- seq_shift, map_map. apply map_ext.
    intros i. lia. }
  split.
  - apply Forall_forall. intros c Hc.
    destruct (Hplace c Hc) as (_ & Hrow & Hcol & _).
    unfold cellRect, svgWidth, svgHeight, weekdayLabelX, weekLabelY,
      cellSize, cols.
    cbn [rx ry rwidth rheight].
    change (40 / 2) with 20.
    repeat (split; [lia|]).
    unfold weeks. apply in_map_iff. exists (Z.to_nat (row c)).
    split; [lia|]. apply in_seq. lia.
  - intros c1 c2 H1 H2 Hneq.
    destruct (Hplace c1 H1) as (_ & Hr1 & Hc1 & Hs1).
    destruct (Hplace c2 H2) as (_ & Hr2 & Hc2 & Hs2).
    unfold cellRect, cellSize. cbn [rx ry rwidth rheight]. lia.
Qed.

Lemma calendar_cells_fit_the_svg_witness :
  normalize scenarioRows <> [] /\
  Forall hasDate (normalize scenarioRows) /\
  exists L, drawCalendar (normalize scenarioRows) = Ok (Some L) /\
            weeks L = map Z.of_nat (seq 1 (Z.to_nat (rows L))).
Proof.
  assert (Hne : normalize scenarioRows <> []) by discriminate.
  assert (Hd : Forall hasDate (normalize scenarioRows))
    by (repeat constructor; discriminate).
  split; [exact Hne|]. split; [exact Hd|].
  destruct (calendar_cells_fit_the_svg _ Hne Hd) as (L & H1 & H2 & _).
  exists L. split; [exact H1|exact H2].
Defined.

End GamesCalendarSvgExtra.

Module D3TimeParseShapeExtra.
Import D3TimeParse D3TimeParseFacts NormalizerFacts.

(** X27. A file whose dates are written year first.  If every row's date
    text begins with three digits (as '2025-01-03' does), the parser
    returns [null] for each, so every entry has a null date: the day
    buckets of GamesPlayed.vue are empty, the calendar and the
    leaderboard throw a [TypeError], and only the breakdown, which reads
    no date, still draws its pie. *)
Theorem year_first_files_break_the_charts (rows : list RawRow) :
  rows <> [] -> Forall (fun r => yearFirst (rowDate r)) rows ->
  Forall (fun e => Date e = None) (normalize rows) /\
  (forall fuel, GamesPlayed.dailyCounts fuel (normalize rows) = Ok []) /\
  GamesCalendar.drawCalendar (normalize rows) = TypeError /\
  Leaderboard.onMounted (normalize rows) = TypeError /\
  exists data,
    GamesBreakdown.drawChart rows = Ok (Some (GamesBreakdown.pie data)).
Proof.
  intros Hne Hrows.
  assert (Hnull : Forall (fun e => Date e = None) (normalize rows)).
  { clear Hne. induction Hrows as [|r rows Hr _ IH]; [constructor|].
    unfold normalize. cbn [map]. fold (normalize rows).
    constructor; [|exact IH]. cbn [Date].
    destruct Hr as (a & b & c & rest & Ha & Hb & Hc & Et). rewrite Et.
    exact (proj1 parseDate_other_shapes a b c rest Ha Hb Hc). }
  assert (Hex : Exists (fun e => Date e = None) (normalize rows)).
  { destruct rows as [|r rows]; [congruence|].
    unfold normalize in *. cbn [map] in *.
    inversion Hnull; subst. apply Exists_cons_hd. assumption. }
  split; [exact Hnull|]. split; [|split; [|split]].
  - intros fuel. unfold GamesPlayed.dailyCounts, GamesPlayed.dates.
    rewrite (GamesPlayedMoreFacts.extent_all_null _ Hnull). reflexivity.
  - exact (GamesCalendarFacts.drawCalendar_null _ Hex).
  - exact (LeaderboardFacts.onMounted_null _ Hex).
  - destruct (GamesBreakdownFacts.drawChart_pie rows Hne) as (data & H & _).
    exists data. exact H.
Qed.

Lemma year_first_files_break_the_charts_witness :
  [mkRow "2025-01-03" "A" "Chess"] <> [] /\
  Forall (fun r => yearFirst (rowDate r)) [mkRow "2025-01-03" "A" "Chess"] /\
  GamesCalendar.drawCalendar (normalize [mkRow "2025-01-03" "A" "Chess"])
    = TypeError.
Proof.
  assert (Hne : [mkRow "2025-01-03" "A" "Chess"] <> []) by discriminate.
  assert (H : Forall (fun r => yearFirst (rowDate r))
                     [mkRow "2025-01-03" "A" "Chess"]).
  { constructor; [|constructor].
    exists 2, 0, 2, (list_ascii_of_string "5-01-03").
    repeat split; unfold isDecimalDigit; lia. }
  split; [exact Hne|]. split; [exact H|].
  exact (proj1 (proj2 (proj2 (year_first_files_break_the_charts _ Hne H)))).
Defined.

End D3TimeParseShapeExtra.
